(** * schedule.c: tick clock, periodic callbacks and one-shot callouts

    A shallow embedding of [firmware/src/schedule.c].  The file keeps five
    variables (the clock [now], the callback array with its fill count
    [event_count], the callout array with its occupancy bitmap
    [callout_map]); every C function becomes a function on a record of
    these five.  Handlers are C function pointers: a pointer is its
    address, and calling it is an unknown state transformer [run]. *)

From Stdlib Require Import ZArith List Bool Lia Sorted.
Import ListNotations.

Local Open Scope Z_scope.

(** ** Machine integers *)

(** Assignment to a [uint8_t], [uint16_t], [uint32_t] lvalue. *)
Definition uint8 (z : Z) : Z := z mod 2 ^ 8.
Definition uint16 (z : Z) : Z := z mod 2 ^ 16.
Definition uint32 (z : Z) : Z := z mod 2 ^ 32.

(** Modelled from the spec: [global.h] is not among the sources.  [_BV] is
    the bit-value macro [(1 << (i))] that [callout_map] is tested and
    updated with. *)
Definition _BV (i : Z) : Z := Z.shiftl 1 i.

(** Modelled from the spec: [global.h] is not among the sources.  The two
    results of a registration, success and "full". *)
Inductive Status : Set := SUCCESS | FAILURE.

(** Modelled from the spec: [schedule.h] is not among the sources.
    [enum ScheduleMode] has a disabled (zero) and an enabled (non-zero)
    value. *)
Inductive ScheduleMode : Set := DISABLED | ENABLED.

Definition mode_flag (mode : ScheduleMode) : bool :=
  match mode with DISABLED => false | ENABLED => true end.

(** A handler is a pointer to a [void f(void)]. *)
Definition CallbackFn := Z.
Definition CalloutFn := Z.

(** ** The two kinds of table entry *)

(** Modelled from the spec: [schedule.h] is not among the sources.  The
    fields of [CallbackEvent] are the four that schedule.c reads and
    writes. *)
Module CallbackEvent.
Record t : Type := mk
  { enabled : bool;
    func : CallbackFn;
    run_time : Z;
    next_run_time : Z }.

(** Static storage is zero-initialised. *)
Definition zero : t := mk false 0 0 0.

Definition set_enabled (e : t) (b : bool) : t :=
  mk b (func e) (run_time e) (next_run_time e).

Definition set_next_run_time (e : t) (n : Z) : t :=
  mk (enabled e) (func e) (run_time e) n.
End CallbackEvent.

Module CalloutEvent.
Record t : Type := mk
  { func : CalloutFn;
    run_time : Z }.

Definition zero : t := mk 0 0.
End CalloutEvent.

(** ** The file's variables *)

(** An array is the map from index to cell.  For [callback_store] the map
    is total on purpose: [CallbackRegister] can be led to index past the
    declared [MAX_CALLBACK_CNT] cells, and the model keeps such a write
    at its index instead of dropping it. *)
Definition upd {A : Type} (m : Z -> A) (i : Z) (v : A) : Z -> A :=
  fun j => if j =? i then v else m j.

Record State : Type := mkState
  { now : Z;
    event_count : Z;
    callback_store : Z -> CallbackEvent.t;
    callout_map : Z;
    callout_store : Z -> CalloutEvent.t }.

Definition set_now (st : State) (n : Z) : State :=
  mkState n (event_count st) (callback_store st) (callout_map st)
          (callout_store st).

Definition set_event_count (st : State) (n : Z) : State :=
  mkState (now st) n (callback_store st) (callout_map st) (callout_store st).

Definition set_callback (st : State) (i : Z) (e : CallbackEvent.t) : State :=
  mkState (now st) (event_count st) (upd (callback_store st) i e)
          (callout_map st) (callout_store st).

Definition set_callout_map (st : State) (m : Z) : State :=
  mkState (now st) (event_count st) (callback_store st) m (callout_store st).

Definition set_callout (st : State) (i : Z) (e : CalloutEvent.t) : State :=
  mkState (now st) (event_count st) (callback_store st) (callout_map st)
          (upd (callout_store st) i e).

(** The state at reset: every static is zero. *)
Definition init_state : State :=
  mkState 0 0 (fun _ => CallbackEvent.zero) 0 (fun _ => CalloutEvent.zero).

(** What a service pass did, in the order it did it: the cell it fired
    and the handler it called. *)
Inductive Fired : Set :=
| FiredCallback (i : Z) (f : CallbackFn)
| FiredCallout (i : Z) (f : CalloutFn).

Definition is_callback (ev : Fired) : bool :=
  match ev with FiredCallback _ _ => true | FiredCallout _ _ => false end.

Definition is_callout (ev : Fired) : bool := negb (is_callback ev).

(** ** The functions of schedule.c *)

Definition TimeNow (st : State) : Z := now st.

(** [callout_map & _BV(i)] as a condition. *)
Definition occupied (map i : Z) : bool := negb (Z.land map (_BV i) =? 0).

(** [callout_map |= _BV(i)] and [callout_map &= ~_BV(i)]. *)
Definition claim (map i : Z) : Z := uint16 (Z.lor map (_BV i)).
Definition vacate (map i : Z) : Z := uint16 (Z.land map (Z.lnot (_BV i))).

(** [for (sum = 0; map; sum++) map &= map - 1;] on a [uint16_t]: every
    turn clears one bit, so sixteen turns are always enough. *)
Fixpoint popcount_loop (k : nat) (map sum : Z) : Z :=
  match k with
  | O => sum
  | S k' =>
      if map =? 0 then sum
      else popcount_loop k' (uint16 (Z.land map (map - 1))) (uint8 (sum + 1))
  end.

Definition get_callout_map_size (st : State) : Z :=
  popcount_loop 16 (callout_map st) 0.

Section Schedule.

(** Modelled from the spec: [config.h] and [schedule.h] are not among the
    sources.  The capacities, the tick factor [_MILLISECOND] and the two
    [sizeof] values that [CallbackRegister] divides are parameters. *)
Variable MAX_CALLBACK_CNT : Z.
Variable MAX_CALLOUT_CNT : Z.
Variable _MILLISECOND : Z.
Variable sizeof_CallbackEvent : Z.
Variable sizeof_CallbackFn : Z.

(** [func()]: what calling the handler at address [f] does to the
    variables of this file. *)
Variable run : Z -> State -> State.

(** [sizeof(callback_store)/sizeof(CallbackFn)]. *)
Definition callback_limit : Z :=
  (MAX_CALLBACK_CNT * sizeof_CallbackEvent) / sizeof_CallbackFn.

(** [callback_store] is declared with [MAX_CALLBACK_CNT] cells, while the
    test compares [event_count] with [callback_limit].  When
    [MAX_CALLBACK_CNT <= event_count < callback_limit] the four stores go
    to [callback_store[event_count]], behind the last cell.  The model
    records the entry at that index and the new count; what the stores
    overwrite behind the array depends on the memory layout and is not
    modelled.  Statements about the other variables are therefore made
    for [event_count] within the array. *)
Definition CallbackRegister (func : CallbackFn) (run_time : Z) (st : State)
  : Status * State :=
  if event_count st <? callback_limit then
    let e := CallbackEvent.mk
               false
               func
               (uint32 (run_time - 1))
               (uint32 (now st + uint32 (run_time * _MILLISECOND))) in
    let st1 := set_callback st (event_count st) e in
    (SUCCESS, set_event_count st1 (uint8 (event_count st1 + 1)))
  else (FAILURE, st).

(** The [for] loop of [CallbackService].  [i] is a [uint8_t] and so is
    [event_count], hence the body runs at most 255 times; [k] counts the
    turns that are left before [i] would reach 256. *)
Fixpoint CallbackService_loop (k : nat) (i callbacks_remaining : Z)
         (current_time : Z) (st : State) : list Fired * State :=
  match k with
  | O => ([], st)
  | S k' =>
      if i <? event_count st then
        let e := callback_store st i in
        if CallbackEvent.enabled e
           && (current_time =? CallbackEvent.next_run_time e)
        then
          let st1 :=
            set_callback st i
              (CallbackEvent.set_next_run_time e
                 (uint32 (current_time
                          + uint32 (CallbackEvent.run_time e
                                    * _MILLISECOND)))) in
          let f := CallbackEvent.func (callback_store st1 i) in
          let st2 := run f st1 in
          let remaining := uint8 (callbacks_remaining - 1) in
          if remaining =? 0 then ([FiredCallback i f], st2)
          else
            let '(log, st3) :=
              CallbackService_loop k' (i + 1) remaining current_time st2 in
            (FiredCallback i f :: log, st3)
        else CallbackService_loop k' (i + 1) callbacks_remaining
                                  current_time st
      else ([], st)
  end.

Definition CallbackService (current_time : Z) (st : State)
  : list Fired * State :=
  let callbacks_remaining := event_count st in
  if callbacks_remaining =? 0 then ([], st)
  else CallbackService_loop 256 0 callbacks_remaining current_time st.

(** The [for] loop of [CallbackMode], which leaves at the first match. *)
Fixpoint CallbackMode_loop (k : nat) (i : Z) (func : CallbackFn)
         (mode : ScheduleMode) (st : State) : State :=
  match k with
  | O => st
  | S k' =>
      if i <? event_count st then
        let e := callback_store st i in
        if func =? CallbackEvent.func e then
          let st1 :=
            set_callback st i
              (CallbackEvent.set_enabled e (mode_flag mode)) in
          if mode_flag mode then
            let e1 := callback_store st1 i in
            set_callback st1 i
              (CallbackEvent.set_next_run_time e1
                 (uint32 (now st1
                          + uint32 (CallbackEvent.run_time e1
                                    * _MILLISECOND))))
          else st1
        else CallbackMode_loop k' (i + 1) func mode st
      else st
  end.

Definition CallbackMode (func : CallbackFn) (mode : ScheduleMode)
           (st : State) : State :=
  CallbackMode_loop 256 0 func mode st.

(** The slot search of [CalloutRegister]; [k] turns are left, the next
    one looks at slot [i]. *)
Fixpoint CalloutRegister_loop (k : nat) (i : Z) (func : CalloutFn)
         (run_time : Z) (st : State) : Status * State :=
  match k with
  | O => (FAILURE, st)
  | S k' =>
      if negb (occupied (callout_map st) i) then
        let st1 := set_callout_map st (claim (callout_map st) i) in
        let e := CalloutEvent.mk
                   func
                   (uint32 (now st1 + uint32 (run_time * _MILLISECOND))) in
        (SUCCESS, set_callout st1 i e)
      else CalloutRegister_loop k' (i + 1) func run_time st
  end.

Definition CalloutRegister (func : CalloutFn) (run_time : Z) (st : State)
  : Status * State :=
  if negb (get_callout_map_size st =? MAX_CALLOUT_CNT) then
    CalloutRegister_loop (Z.to_nat MAX_CALLOUT_CNT) 0 func run_time st
  else (FAILURE, st).

Fixpoint CalloutCancel_loop (k : nat) (i : Z) (func : CalloutFn)
         (st : State) : State :=
  match k with
  | O => st
  | S k' =>
      if CalloutEvent.func (callout_store st i) =? func then
        set_callout_map st (vacate (callout_map st) i)
      else CalloutCancel_loop k' (i + 1) func st
  end.

Definition CalloutCancel (func : CalloutFn) (st : State) : State :=
  CalloutCancel_loop (Z.to_nat MAX_CALLOUT_CNT) 0 func st.

(** The [for] loop of [CalloutService]: the handler runs first, the bit
    of its slot is cleared when it returns. *)
Fixpoint CalloutService_loop (k : nat) (i callouts_remaining : Z)
         (current_time : Z) (st : State) : list Fired * State :=
  match k with
  | O => ([], st)
  | S k' =>
      if occupied (callout_map st) i
         && (current_time =? CalloutEvent.run_time (callout_store st i))
      then
        let f := CalloutEvent.func (callout_store st i) in
        let st1 := run f st in
        let st2 := set_callout_map st1 (vacate (callout_map st1) i) in
        let remaining := uint8 (callouts_remaining - 1) in
        if remaining =? 0 then ([FiredCallout i f], st2)
        else
          let '(log, st3) :=
            CalloutService_loop k' (i + 1) remaining current_time st2 in
          (FiredCallout i f :: log, st3)
      else CalloutService_loop k' (i + 1) callouts_remaining
                               current_time st
  end.

Definition CalloutService (current_time : Z) (st : State)
  : list Fired * State :=
  let callouts_remaining := get_callout_map_size st in
  if callouts_remaining =? 0 then ([], st)
  else CalloutService_loop (Z.to_nat MAX_CALLOUT_CNT) 0 callouts_remaining
                           current_time st.

(** The interrupt routine: [now++], then the two services, each given
    the value [now] has when it is called. *)
Definition ScheduleTimerOverflow (st : State) : list Fired * State :=
  let st1 := set_now st (uint32 (now st + 1)) in
  let '(log1, st2) := CallbackService (now st1) st1 in
  let '(log2, st3) := CalloutService (now st2) st2 in
  (log1 ++ log2, st3).

(** [n] interrupts in a row; the result lists what each of them fired. *)
Fixpoint ticks (n : nat) (st : State) : list (list Fired) * State :=
  match n with
  | O => ([], st)
  | S n' =>
      let '(log, st1) := ScheduleTimerOverflow st in
      let '(logs, st2) := ticks n' st1 in
      (log :: logs, st2)
  end.

End Schedule.

(** ** Reference definitions used by the statements *)

(** The number of set bits among the [n] lowest, by halving. *)
Fixpoint count_bits (n : nat) (m : Z) : Z :=
  match n with
  | O => 0
  | S n' => Z.b2z (Z.odd m) + count_bits n' (Z.div2 m)
  end.

(** The number of set bits at the [n] positions from [i] on. *)
Fixpoint count_from (n : nat) (i : Z) (m : Z) : Z :=
  match n with
  | O => 0
  | S n' => Z.b2z (Z.testbit m i) + count_from n' (i + 1) m
  end.


(** The service loops as plain scans: every index is looked at, nothing
    is counted.  These follow the specification's wording ("for each
    entry ... in ascending index order") and are what the counting loops
    of the source are compared with. *)
Section FullScan.

Variable MAX_CALLOUT_CNT : Z.
Variable _MILLISECOND : Z.
Variable run : Z -> State -> State.

Fixpoint CallbackService_scan_loop (k : nat) (i : Z) (current_time : Z)
         (st : State) : list Fired * State :=
  match k with
  | O => ([], st)
  | S k' =>
      if i <? event_count st then
        let e := callback_store st i in
        if CallbackEvent.enabled e
           && (current_time =? CallbackEvent.next_run_time e)
        then
          let st1 :=
            set_callback st i
              (CallbackEvent.set_next_run_time e
                 (uint32 (current_time
                          + uint32 (CallbackEvent.run_time e
                                    * _MILLISECOND)))) in
          let f := CallbackEvent.func (callback_store st1 i) in
          let st2 := run f st1 in
          let '(log, st3) :=
            CallbackService_scan_loop k' (i + 1) current_time st2 in
          (FiredCallback i f :: log, st3)
        else CallbackService_scan_loop k' (i + 1) current_time st
      else ([], st)
  end.

Definition CallbackService_scan (current_time : Z) (st : State)
  : list Fired * State :=
  CallbackService_scan_loop 256 0 current_time st.

Fixpoint CalloutService_scan_loop (k : nat) (i : Z) (current_time : Z)
         (st : State) : list Fired * State :=
  match k with
  | O => ([], st)
  | S k' =>
      if occupied (callout_map st) i
         && (current_time =? CalloutEvent.run_time (callout_store st i))
      then
        let f := CalloutEvent.func (callout_store st i) in
        let st1 := run f st in
        let st2 := set_callout_map st1 (vacate (callout_map st1) i) in
        let '(log, st3) :=
          CalloutService_scan_loop k' (i + 1) current_time st2 in
        (FiredCallout i f :: log, st3)
      else CalloutService_scan_loop k' (i + 1) current_time st
  end.

Definition CalloutService_scan (current_time : Z) (st : State)
  : list Fired * State :=
  CalloutService_scan_loop (Z.to_nat MAX_CALLOUT_CNT) 0 current_time st.

End FullScan.

(** Which cells a pass starting in [st] at time [t] has to fire. *)
Definition callback_due (st : State) (t i : Z) : bool :=
  CallbackEvent.enabled (callback_store st i)
  && (t =? CallbackEvent.next_run_time (callback_store st i)).

Definition callout_due (st : State) (t i : Z) : bool :=
  occupied (callout_map st) i
  && (t =? CalloutEvent.run_time (callout_store st i)).

Fixpoint due_callouts (k : nat) (i t : Z) (st : State) : list Fired :=
  match k with
  | O => []
  | S k' =>
      (if callout_due st t i
       then [FiredCallout i (CalloutEvent.func (callout_store st i))]
       else [])
      ++ due_callouts k' (i + 1) t st
  end.

Fixpoint due_callbacks (k : nat) (i t : Z) (st : State) : list Fired :=
  match k with
  | O => []
  | S k' =>
      (if callback_due st t i
       then [FiredCallback i (CallbackEvent.func (callback_store st i))]
       else [])
      ++ due_callbacks k' (i + 1) t st
  end.

(** The slots that a log says were fired. *)
Fixpoint fired_callouts (log : list Fired) : list Z :=
  match log with
  | [] => []
  | FiredCallout i _ :: log' => i :: fired_callouts log'
  | FiredCallback _ _ :: log' => fired_callouts log'
  end.

(** A handler that touches none of the scheduler's variables. *)
Definition inert : Z -> State -> State := fun _ st => st.

(** The lowest vacant slot among the [k] slots from [i] on. *)
Fixpoint first_free (k : nat) (i : Z) (map : Z) : option Z :=
  match k with
  | O => None
  | S k' => if occupied map i then first_free k' (i + 1) map else Some i
  end.

(** The lowest slot among the [k] from [i] on whose stored handler is
    [f], occupied or not. *)
Fixpoint first_holding (k : nat) (i : Z) (f : CalloutFn)
         (store : Z -> CalloutEvent.t) : option Z :=
  match k with
  | O => None
  | S k' =>
      if CalloutEvent.func (store i) =? f then Some i
      else first_holding k' (i + 1) f store
  end.

(** The lowest entry below [event_count] among the [k] from [i] on whose
    handler is [f]. *)
Fixpoint first_registered (k : nat) (i : Z) (f : CallbackFn) (st : State)
  : option Z :=
  match k with
  | O => None
  | S k' =>
      if i <? event_count st then
        if f =? CallbackEvent.func (callback_store st i) then Some i
        else first_registered k' (i + 1) f st
      else None
  end.

(** ** A configuration to run

    Two entries per table, one tick per unit of time, and the sizes of an
    MSP430 build: a function pointer takes two bytes, a [CallbackEvent]
    (a flag, a pointer and two [uint32_t]) twelve. *)
Module Demo.
Definition MAX_CALLBACK_CNT : Z := 2.
Definition MAX_CALLOUT_CNT : Z := 2.
Definition _MILLISECOND : Z := 1.
Definition sizeof_CallbackEvent : Z := 12.
Definition sizeof_CallbackFn : Z := 2.

Definition CallbackRegister :=
  CallbackRegister MAX_CALLBACK_CNT _MILLISECOND
                   sizeof_CallbackEvent sizeof_CallbackFn.
Definition CallbackMode := CallbackMode _MILLISECOND.
Definition CalloutRegister := CalloutRegister MAX_CALLOUT_CNT _MILLISECOND.
Definition CalloutCancel := CalloutCancel MAX_CALLOUT_CNT.
Definition CalloutService := CalloutService MAX_CALLOUT_CNT.
Definition CalloutService_scan := CalloutService_scan MAX_CALLOUT_CNT.
Definition CallbackService := CallbackService _MILLISECOND.
Definition CallbackService_scan := CallbackService_scan _MILLISECOND.
Definition ScheduleTimerOverflow :=
  ScheduleTimerOverflow MAX_CALLOUT_CNT _MILLISECOND.
Definition ticks := ticks MAX_CALLOUT_CNT _MILLISECOND.

(** Three handlers that do nothing to the scheduler. *)
Definition A : Z := 1.
Definition B : Z := 2.
Definition C : Z := 3.
End Demo.

(** The clock values, counted from [t], at which a log has an event
    that [hit] accepts. *)
Fixpoint firing_ticks (hit : Fired -> bool) (t : Z)
         (logs : list (list Fired)) : list Z :=
  match logs with
  | [] => []
  | log :: logs' =>
      (if existsb hit log then [t + 1] else [])
      ++ firing_ticks hit (t + 1) logs'
  end.

Definition callback_of (f : CallbackFn) (ev : Fired) : bool :=
  match ev with FiredCallback _ g => g =? f | FiredCallout _ _ => false end.

Definition callout_of (f : CalloutFn) (ev : Fired) : bool :=
  match ev with FiredCallout _ g => g =? f | FiredCallback _ _ => false end.

(** The scenario of the specification: at tick 0, [A] is registered with
    delay 5 and [B] with delay 3; the clock runs to 3, then to 5, and [C]
    is registered with delay 2. *)
Module Scenario.
Definition reg_A := Demo.CalloutRegister Demo.A 5 init_state.
Definition reg_B := Demo.CalloutRegister Demo.B 3 (snd reg_A).
End Scenario.

(** A callback of period 10: registered and enabled at tick 0, then left
    to run for thirty ticks. *)
Module PeriodCase.
Definition registered := Demo.CallbackRegister Demo.A 10 init_state.
Definition enabled := Demo.CallbackMode Demo.A ENABLED (snd registered).
Definition run30 := Demo.ticks inert 30 enabled.
End PeriodCase.

(** The same callback, switched off at tick 12 and on again at tick 14. *)
Module ReenableCase.
Definition at_12 := snd (Demo.ticks inert 12 PeriodCase.enabled).
Definition off := Demo.CallbackMode Demo.A DISABLED at_12.
Definition at_14 := snd (Demo.ticks inert 2 off).
Definition on := Demo.CallbackMode Demo.A ENABLED at_14.
Definition run20 := Demo.ticks inert 20 on.
End ReenableCase.

(** Three registrations in a row into tables declared with two cells. *)
Module CapacityCase.
Definition cb1 := Demo.CallbackRegister Demo.A 10 init_state.
Definition cb2 := Demo.CallbackRegister Demo.B 10 (snd cb1).
Definition cb3 := Demo.CallbackRegister Demo.C 10 (snd cb2).
Definition co1 := Demo.CalloutRegister Demo.A 10 init_state.
Definition co2 := Demo.CalloutRegister Demo.B 10 (snd co1).
Definition co3 := Demo.CalloutRegister Demo.C 10 (snd co2).
End CapacityCase.

(** [A] is scheduled twice, for ticks 1 and 5.  After tick 1 the first
    one has fired, and [A] is cancelled. *)
Module CancelCase.
Definition reg1 := Demo.CalloutRegister Demo.A 1 init_state.
Definition reg2 := Demo.CalloutRegister Demo.A 5 (snd reg1).
Definition at_1 := snd (Demo.ticks inert 1 (snd reg2)).
Definition cancelled := Demo.CalloutCancel Demo.A at_1.
Definition run6 := Demo.ticks inert 6 cancelled.
End CancelCase.

(** Handlers that call back into the scheduler: [B] schedules the
    callout [C] with delay 0, and the callback [D] registers the
    callback [E] with period 1 and enables it. *)
Module Reentrant.
Definition D : Z := 4.
Definition E : Z := 5.

Definition run (f : Z) (st : State) : State :=
  if f =? Demo.B then snd (Demo.CalloutRegister Demo.C 0 st)
  else if f =? D then
    Demo.CallbackMode E ENABLED (snd (Demo.CallbackRegister E 1 st))
  else st.

(** [B] alone is due at tick 1. *)
Definition one_due :=
  set_now (snd (Demo.CalloutRegister Demo.B 1 init_state)) 1.

(** [D] alone, enabled at tick 0 with period 5, seen at tick 4. *)
Definition one_callback :=
  set_now
    (Demo.CallbackMode D ENABLED (snd (Demo.CallbackRegister D 5 init_state)))
    4.

(** [A] in slot 0 and [B] in slot 1, both due at tick 1. *)
Definition two_due :=
  snd (Demo.CalloutRegister Demo.B 1
         (snd (Demo.CalloutRegister Demo.A 1 init_state))).
Definition pass := Demo.ScheduleTimerOverflow run two_due.
Definition later := Demo.ticks run 10 (snd pass).
End Reentrant.

(** The callback [A] of period 10 and a callout [B] that meet: both are
    set up at tick 0 for tick 9, and the clock stands at 8. *)
Module SameTick.
Definition both := snd (Demo.CalloutRegister Demo.B 9 PeriodCase.enabled).
Definition at_8 := snd (Demo.ticks inert 8 both).
End SameTick.

(** The entry as the callback pass leaves it when it fires at [t]. *)
Definition rescheduled (_MILLISECOND : Z) (e : CallbackEvent.t) (t : Z)
  : CallbackEvent.t :=
  CallbackEvent.set_next_run_time e
    (uint32 (t + uint32 (CallbackEvent.run_time e * _MILLISECOND))).

(** ** Further reference definitions *)

(** The entries that a log says were fired. *)
Fixpoint fired_callbacks (log : list Fired) : list Z :=
  match log with
  | [] => []
  | FiredCallback i _ :: log' => i :: fired_callbacks log'
  | FiredCallout _ _ :: log' => fired_callbacks log'
  end.

(** The [k] indices from [i] on. *)
Fixpoint slots (k : nat) (i : Z) : list Z :=
  match k with
  | O => []
  | S k' => i :: slots k' (i + 1)
  end.

(** [CalloutRegister] called for each request of a list in turn, a
    request being a handler and its delay. *)
Fixpoint CalloutRegister_all (MAX_CALLOUT_CNT _MILLISECOND : Z)
         (reqs : list (CalloutFn * Z)) (st : State) : list Status * State :=
  match reqs with
  | [] => ([], st)
  | (f, d) :: reqs' =>
      let '(s, st1) := CalloutRegister MAX_CALLOUT_CNT _MILLISECOND f d st in
      let '(ss, st2) :=
        CalloutRegister_all MAX_CALLOUT_CNT _MILLISECOND reqs' st1 in
      (s :: ss, st2)
  end.

(** The variables hold values of their C types, and the map uses no bit
    from the capacity on. *)
Definition in_range (MAX_CALLOUT_CNT : Z) (st : State) : Prop :=
  0 <= now st < 2 ^ 32
  /\ 0 <= event_count st < 2 ^ 8
  /\ 0 <= callout_map st < 2 ^ MAX_CALLOUT_CNT.

(** Three slots.  [A] and [X] are due at tick 2, in slots 0 and 2; slot
    1 is vacant by then, [B] having fired from it at tick 1.  The
    handler of [A] schedules [C] with delay 0. *)
Module StaleCount.
Definition X : Z := 6.

Definition run (f : Z) (st : State) : State :=
  if f =? Demo.A then snd (CalloutRegister 3 1 Demo.C 0 st) else st.

Definition reg_A := CalloutRegister 3 1 Demo.A 2 init_state.
Definition reg_B := CalloutRegister 3 1 Demo.B 1 (snd reg_A).
Definition reg_X := CalloutRegister 3 1 X 2 (snd reg_B).
Definition to_1 := ticks 3 1 run 1 (snd reg_X).
(** What the callout pass of tick 2 starts from. *)
Definition before_pass := set_now (snd to_1) 2.
Definition to_2 := ticks 3 1 run 2 (snd reg_X).
Definition later := ticks 3 1 run 10 (snd to_2).
End StaleCount.

(** A handler [R] that, when called, cancels itself and schedules
    itself again five ticks on. *)
Module Rearm.
Definition R : Z := 7.

Definition run (f : Z) (st : State) : State :=
  if f =? R then snd (Demo.CalloutRegister R 5 (Demo.CalloutCancel R st))
  else st.

Definition reg_R := Demo.CalloutRegister R 1 init_state.
(** The state in which the handler is called at tick 1, and the
    registration it makes there. *)
Definition in_handler := set_now (snd reg_R) 1.
Definition rearm := Demo.CalloutRegister R 5 (Demo.CalloutCancel R in_handler).
Definition pass := Demo.ScheduleTimerOverflow run (snd reg_R).
Definition later := Demo.ticks run 10 (snd pass).
End Rearm.

(** The state is in range and the entry count is within the declared
    array, so that every entry below it is a cell of [callback_store]. *)
Definition in_tables (MAX_CALLBACK_CNT MAX_CALLOUT_CNT : Z) (st : State)
  : Prop :=
  in_range MAX_CALLOUT_CNT st /\ event_count st <= MAX_CALLBACK_CNT.

(** * Proofs *)

(** ** Bits of the occupancy map *)

Lemma uint16_small (z : Z) : 0 <= z < 2 ^ 16 -> uint16 z = z.
Proof. intros H. unfold uint16. apply Z.mod_small. exact H. Qed.

Lemma uint16_range (z : Z) : 0 <= uint16 z < 2 ^ 16.
Proof. unfold uint16. apply Z.mod_pos_bound. reflexivity. Qed.

Lemma uint32_range (z : Z) : 0 <= uint32 z < 2 ^ 32.
Proof. unfold uint32. apply Z.mod_pos_bound. reflexivity. Qed.

Lemma uint8_small (z : Z) : 0 <= z < 2 ^ 8 -> uint8 z = z.
Proof. intros H. unfold uint8. apply Z.mod_small. exact H. Qed.

Lemma testbit_uint16 (z j : Z) :
  0 <= j -> Z.testbit (uint16 z) j = (j <? 16) && Z.testbit z j.
Proof.
  intros Hj. unfold uint16.
  destruct (Z.ltb_spec j 16) as [Hlt | Hge]; cbn [andb].
  - apply Z.mod_pow2_bits_low. lia.
  - apply Z.mod_pow2_bits_high. lia.
Qed.

Lemma testbit_BV (i j : Z) : 0 <= i -> Z.testbit (_BV i) j = (j =? i).
Proof.
  intros Hi. unfold _BV.
  destruct (Z.eqb_spec j i) as [-> | Hne].
  - rewrite Z.shiftl_1_l. apply Z.pow2_bits_true. exact Hi.
  - rewrite Z.shiftl_1_l. apply Z.pow2_bits_false. congruence.
Qed.

Lemma land_BV (m i : Z) :
  0 <= i -> Z.land m (_BV i) = if Z.testbit m i then _BV i else 0.
Proof.
  intros Hi. apply Z.bits_inj'. intros j Hj.
  rewrite Z.land_spec, testbit_BV by exact Hi.
  destruct (Z.eqb_spec j i) as [-> | Hne].
  - destruct (Z.testbit m i); simpl.
    + rewrite testbit_BV by exact Hi. symmetry. apply Z.eqb_refl.
    + symmetry. apply Z.bits_0.
  - rewrite andb_false_r. destruct (Z.testbit m i).
    + rewrite testbit_BV by exact Hi. symmetry. apply Z.eqb_neq. exact Hne.
    + symmetry. apply Z.bits_0.
Qed.

Lemma BV_pos (i : Z) : 0 <= i -> 0 < _BV i.
Proof.
  intros Hi. unfold _BV. rewrite Z.shiftl_1_l. apply Z.pow_pos_nonneg; lia.
Qed.

Lemma occupied_testbit (m i : Z) : 0 <= i -> occupied m i = Z.testbit m i.
Proof.
  intros Hi. unfold occupied. rewrite land_BV by exact Hi.
  pose proof (BV_pos i Hi) as Hp.
  destruct (Z.testbit m i); simpl.
  - destruct (Z.eqb_spec (_BV i) 0); [lia | reflexivity].
  - reflexivity.
Qed.

Lemma testbit_claim (m i j : Z) :
  0 <= i -> 0 <= j ->
  Z.testbit (claim m i) j = (j <? 16) && (Z.testbit m j || (j =? i)).
Proof.
  intros Hi Hj. unfold claim.
  rewrite testbit_uint16, Z.lor_spec, testbit_BV by assumption.
  reflexivity.
Qed.

Lemma testbit_vacate (m i j : Z) :
  0 <= i -> 0 <= j ->
  Z.testbit (vacate m i) j = (j <? 16) && (Z.testbit m j && negb (j =? i)).
Proof.
  intros Hi Hj. unfold vacate.
  rewrite testbit_uint16, Z.land_spec, Z.lnot_spec, testbit_BV by assumption.
  reflexivity.
Qed.

(** A map in the range of [uint16_t] has no bit from 16 on. *)
Lemma testbit_high (m j : Z) :
  0 <= m < 2 ^ 16 -> 16 <= j -> Z.testbit m j = false.
Proof.
  intros Hm Hj. rewrite <- (uint16_small m Hm), testbit_uint16 by lia.
  destruct (Z.ltb_spec j 16); [lia | reflexivity].
Qed.

Lemma vacate_free (m i : Z) :
  0 <= m < 2 ^ 16 -> 0 <= i -> Z.testbit m i = false -> vacate m i = m.
Proof.
  intros Hm Hi Hb. apply Z.bits_inj'. intros j Hj.
  rewrite testbit_vacate by assumption.
  destruct (Z.ltb_spec j 16) as [Hlt | Hge]; simpl.
  - destruct (Z.eqb_spec j i) as [-> | Hne].
    + rewrite Hb. reflexivity.
    + apply andb_true_r.
  - symmetry. apply testbit_high; assumption.
Qed.

(** ** The population count of the map *)

Lemma odd_double (a : Z) (b : bool) : Z.odd (2 * a + Z.b2z b) = b.
Proof.
  rewrite <- Z.bit0_odd, Z.add_comm. apply Z.add_b2z_double_bit0.
Qed.

Lemma div2_double (a : Z) (b : bool) : Z.div2 (2 * a + Z.b2z b) = a.
Proof.
  rewrite Z.div2_div, Z.add_comm. apply Z.add_b2z_double_div2.
Qed.

Lemma halves (m : Z) : m = 2 * Z.div2 m + Z.b2z (Z.odd m).
Proof. apply Z.div2_odd. Qed.

Lemma count_bits_double (n : nat) (a : Z) (b : bool) :
  count_bits (S n) (2 * a + Z.b2z b) = Z.b2z b + count_bits n a.
Proof. cbn [count_bits]. rewrite odd_double, div2_double. reflexivity. Qed.

Lemma count_bits_nonneg (n : nat) : forall m, 0 <= count_bits n m.
Proof.
  induction n as [| n IH]; intros m; cbn [count_bits].
  - lia.
  - specialize (IH (Z.div2 m)). destruct (Z.odd m); cbn [Z.b2z]; lia.
Qed.

Lemma count_bits_le (n : nat) : forall m, count_bits n m <= Z.of_nat n.
Proof.
  induction n as [| n IH]; intros m; cbn [count_bits].
  - lia.
  - specialize (IH (Z.div2 m)). destruct (Z.odd m); cbn [Z.b2z]; lia.
Qed.

Lemma count_bits_0 (n : nat) : count_bits n 0 = 0.
Proof. induction n as [| n IH]; cbn [count_bits]; [reflexivity | exact IH]. Qed.

Lemma land_succ_double (a : Z) : Z.land (2 * a + 1) (2 * a) = 2 * a.
Proof.
  apply Z.bits_inj'. intros j Hj. rewrite Z.land_spec.
  destruct (Z.eq_dec j 0) as [-> | Hne].
  - rewrite Z.testbit_even_0. apply andb_false_r.
  - replace j with (Z.succ (j - 1)) by lia.
    rewrite Z.testbit_odd_succ, Z.testbit_even_succ by lia.
    apply andb_diag.
Qed.

Lemma land_pred_double (a : Z) :
  Z.land (2 * a) (2 * a - 1) = 2 * Z.land a (a - 1).
Proof.
  replace (2 * a - 1) with (2 * (a - 1) + 1) by lia.
  apply Z.bits_inj'. intros j Hj. rewrite Z.land_spec.
  destruct (Z.eq_dec j 0) as [-> | Hne].
  - rewrite !Z.testbit_even_0. reflexivity.
  - replace j with (Z.succ (j - 1)) by lia.
    rewrite Z.testbit_odd_succ, !Z.testbit_even_succ by lia.
    symmetry. apply Z.land_spec.
Qed.

(** One turn of the counting loop removes exactly one set bit. *)
Lemma count_bits_land_pred (n : nat) :
  forall m, 0 < m < 2 ^ Z.of_nat n ->
            count_bits n (Z.land m (m - 1)) = count_bits n m - 1.
Proof.
  induction n as [| n IH]; intros m Hm.
  - cbn in Hm. lia.
  - rewrite Nat2Z.inj_succ, Z.pow_succ_r in Hm by lia.
    rewrite (halves m) in *. set (a := Z.div2 m) in *.
    destruct (Z.odd m); cbn [Z.b2z] in *.
    + replace (2 * a + 1 - 1) with (2 * a) by lia.
      rewrite land_succ_double.
      change (2 * a + 1) with (2 * a + Z.b2z true).
      replace (2 * a) with (2 * a + Z.b2z false) at 1 by (cbn; lia).
      rewrite !count_bits_double. cbn [Z.b2z]. lia.
    + rewrite Z.add_0_r in *. rewrite land_pred_double.
      replace (2 * Z.land a (a - 1))
        with (2 * Z.land a (a - 1) + Z.b2z false) by (cbn; lia).
      replace (2 * a) with (2 * a + Z.b2z false) by (cbn; lia).
      rewrite !count_bits_double. cbn [Z.b2z].
      rewrite IH by lia. lia.
Qed.

Lemma count_from_shift (n : nat) :
  forall i m, 0 <= i -> count_from n (i + 1) m = count_from n i (Z.div2 m).
Proof.
  induction n as [| n IH]; intros i m Hi; cbn [count_from].
  - reflexivity.
  - rewrite IH by lia.
    rewrite Z.div2_spec, Z.shiftr_spec by exact Hi. reflexivity.
Qed.

Lemma count_bits_from (n : nat) :
  forall m, count_bits n m = count_from n 0 m.
Proof.
  induction n as [| n IH]; intros m; cbn [count_bits count_from].
  - reflexivity.
  - rewrite count_from_shift, <- IH, Z.bit0_odd by lia. reflexivity.
Qed.

(** The count only looks at the bits it counts. *)
Lemma count_from_ext (n : nat) :
  forall i m m',
    (forall j, i <= j < i + Z.of_nat n -> Z.testbit m j = Z.testbit m' j) ->
    count_from n i m = count_from n i m'.
Proof.
  induction n as [| n IH]; intros i m m' H; cbn [count_from].
  - reflexivity.
  - rewrite (H i) by lia. f_equal. apply IH. intros j Hj. apply H. lia.
Qed.

Lemma count_bits_uint16 (m : Z) : count_bits 16 (uint16 m) = count_bits 16 m.
Proof.
  rewrite !count_bits_from. apply count_from_ext. intros j Hj.
  rewrite testbit_uint16 by lia.
  destruct (Z.ltb_spec j 16); [reflexivity | lia].
Qed.

Lemma popcount_loop_spec (k : nat) :
  forall m s,
    0 <= m < 2 ^ 16 -> count_bits 16 m <= Z.of_nat k ->
    0 <= s -> s + count_bits 16 m < 2 ^ 8 ->
    popcount_loop k m s = s + count_bits 16 m.
Proof.
  induction k as [| k IH]; intros m s Hm Hk Hs Hsum; cbn [popcount_loop].
  - pose proof (count_bits_nonneg 16 m). lia.
  - destruct (Z.eqb_spec m 0) as [-> | Hne].
    + rewrite count_bits_0. lia.
    + assert (Hstep : count_bits 16 (uint16 (Z.land m (m - 1)))
                      = count_bits 16 m - 1).
      { rewrite count_bits_uint16. apply count_bits_land_pred.
        change (Z.of_nat 16) with 16. lia. }
      pose proof (count_bits_nonneg 16 (uint16 (Z.land m (m - 1)))) as Hnn.
      rewrite uint8_small by lia.
      rewrite IH; try lia. apply uint16_range.
Qed.

(** [get_callout_map_size] is the number of occupied slots. *)
Lemma get_callout_map_size_spec (st : State) :
  0 <= callout_map st < 2 ^ 16 ->
  get_callout_map_size st = count_from 16 0 (callout_map st).
Proof.
  intros Hm. unfold get_callout_map_size.
  rewrite popcount_loop_spec; try lia.
  - rewrite count_bits_from. lia.
  - apply (count_bits_le 16).
  - pose proof (count_bits_le 16 (callout_map st)).
    change (Z.of_nat 16) with 16 in *. lia.
Qed.

(** ** What a service pass leaves alone *)

Section Frames.

Variable MAX_CALLOUT_CNT : Z.
Variable _MILLISECOND : Z.
Variable run : Z -> State -> State.

(** The callback loop writes nothing but cells of [callback_store]. *)
Lemma CallbackService_loop_frame {A : Type} (proj : State -> A) :
  (forall f s, proj (run f s) = proj s) ->
  (forall s i e, proj (set_callback s i e) = proj s) ->
  forall k i r t st,
    proj (snd (CallbackService_loop _MILLISECOND run k i r t st)) = proj st.
Proof.
  intros Hrun Hset. induction k as [| k IH]; intros i r t st.
  - reflexivity.
  - cbn [CallbackService_loop].
    destruct (i <? event_count st); [| reflexivity].
    destruct (CallbackEvent.enabled (callback_store st i)
              && (t =? CallbackEvent.next_run_time (callback_store st i))).
    + cbv zeta.
      destruct (uint8 (r - 1) =? 0).
      * cbn [snd]. rewrite Hrun, Hset. reflexivity.
      * match goal with
        | |- context [CallbackService_loop ?m ?h k ?a ?b ?c ?d] =>
            specialize (IH a b c d);
            destruct (CallbackService_loop m h k a b c d) as [log st3]
        end.
        cbn [snd] in *. rewrite IH, Hrun, Hset. reflexivity.
    + apply IH.
Qed.

Lemma CallbackService_frame {A : Type} (proj : State -> A) :
  (forall f s, proj (run f s) = proj s) ->
  (forall s i e, proj (set_callback s i e) = proj s) ->
  forall t st, proj (snd (CallbackService _MILLISECOND run t st)) = proj st.
Proof.
  intros Hrun Hset t st. unfold CallbackService.
  destruct (event_count st =? 0); [reflexivity |].
  apply CallbackService_loop_frame; assumption.
Qed.

(** The callout loop writes nothing but [callout_map]. *)
Lemma CalloutService_loop_frame {A : Type} (proj : State -> A) :
  (forall f s, proj (run f s) = proj s) ->
  (forall s m, proj (set_callout_map s m) = proj s) ->
  forall k i r t st,
    proj (snd (CalloutService_loop run k i r t st)) = proj st.
Proof.
  intros Hrun Hset. induction k as [| k IH]; intros i r t st.
  - reflexivity.
  - cbn [CalloutService_loop].
    destruct (occupied (callout_map st) i
              && (t =? CalloutEvent.run_time (callout_store st i))).
    + cbv zeta.
      destruct (uint8 (r - 1) =? 0).
      * cbn [snd]. rewrite Hset, Hrun. reflexivity.
      * match goal with
        | |- context [CalloutService_loop ?h k ?a ?b ?c ?d] =>
            specialize (IH a b c d);
            destruct (CalloutService_loop h k a b c d) as [log st3]
        end.
        cbn [snd] in *. rewrite IH, Hset, Hrun. reflexivity.
    + apply IH.
Qed.

Lemma CalloutService_frame {A : Type} (proj : State -> A) :
  (forall f s, proj (run f s) = proj s) ->
  (forall s m, proj (set_callout_map s m) = proj s) ->
  forall t st, proj (snd (CalloutService MAX_CALLOUT_CNT run t st)) = proj st.
Proof.
  intros Hrun Hset t st. unfold CalloutService.
  destruct (get_callout_map_size st =? 0); [reflexivity |].
  apply CalloutService_loop_frame; assumption.
Qed.

(** The interrupt routine unfolded into its three steps. *)
Lemma ScheduleTimerOverflow_steps (st : State) :
  ScheduleTimerOverflow MAX_CALLOUT_CNT _MILLISECOND run st
  = (fst (CallbackService _MILLISECOND run (uint32 (now st + 1))
                          (set_now st (uint32 (now st + 1))))
       ++ fst (CalloutService MAX_CALLOUT_CNT run
                 (now (snd (CallbackService _MILLISECOND run
                              (uint32 (now st + 1))
                              (set_now st (uint32 (now st + 1))))))
                 (snd (CallbackService _MILLISECOND run
                         (uint32 (now st + 1))
                         (set_now st (uint32 (now st + 1)))))),
     snd (CalloutService MAX_CALLOUT_CNT run
            (now (snd (CallbackService _MILLISECOND run
                         (uint32 (now st + 1))
                         (set_now st (uint32 (now st + 1))))))
            (snd (CallbackService _MILLISECOND run
                    (uint32 (now st + 1))
                    (set_now st (uint32 (now st + 1))))))).
Proof.
  unfold ScheduleTimerOverflow. cbn [now set_now].
  destruct (CallbackService _MILLISECOND run _ _) as [log1 st2].
  cbn [fst snd].
  destruct (CalloutService MAX_CALLOUT_CNT run _ _) as [log2 st3].
  reflexivity.
Qed.

Lemma ScheduleTimerOverflow_fst (st : State) :
  fst (ScheduleTimerOverflow MAX_CALLOUT_CNT _MILLISECOND run st)
  = fst (CallbackService _MILLISECOND run (uint32 (now st + 1))
                         (set_now st (uint32 (now st + 1))))
      ++ fst (CalloutService MAX_CALLOUT_CNT run
                (now (snd (CallbackService _MILLISECOND run
                             (uint32 (now st + 1))
                             (set_now st (uint32 (now st + 1))))))
                (snd (CallbackService _MILLISECOND run
                        (uint32 (now st + 1))
                        (set_now st (uint32 (now st + 1)))))).
Proof.
  unfold ScheduleTimerOverflow. cbn [now set_now].
  destruct (CallbackService _MILLISECOND run _ _) as [log1 st2].
  cbn [fst snd].
  destruct (CalloutService MAX_CALLOUT_CNT run _ _) as [log2 st3].
  reflexivity.
Qed.

Lemma ScheduleTimerOverflow_snd (st : State) :
  snd (ScheduleTimerOverflow MAX_CALLOUT_CNT _MILLISECOND run st)
  = snd (CalloutService MAX_CALLOUT_CNT run
           (now (snd (CallbackService _MILLISECOND run
                        (uint32 (now st + 1))
                        (set_now st (uint32 (now st + 1))))))
           (snd (CallbackService _MILLISECOND run
                   (uint32 (now st + 1))
                   (set_now st (uint32 (now st + 1)))))).
Proof.
  unfold ScheduleTimerOverflow. cbn [now set_now].
  destruct (CallbackService _MILLISECOND run _ _) as [log1 st2].
  cbn [fst snd].
  destruct (CalloutService MAX_CALLOUT_CNT run _ _) as [log2 st3].
  reflexivity.
Qed.

Lemma ScheduleTimerOverflow_now (st : State) :
  (forall f s, now (run f s) = now s) ->
  now (snd (ScheduleTimerOverflow MAX_CALLOUT_CNT _MILLISECOND run st))
  = uint32 (now st + 1).
Proof.
  intros Hrun. rewrite ScheduleTimerOverflow_snd.
  rewrite (CalloutService_frame now), (CallbackService_frame now);
    try assumption; reflexivity.
Qed.

Lemma ticks_step (n : nat) (st : State) :
  ticks MAX_CALLOUT_CNT _MILLISECOND run (S n) st
  = (fst (ScheduleTimerOverflow MAX_CALLOUT_CNT _MILLISECOND run st)
       :: fst (ticks MAX_CALLOUT_CNT _MILLISECOND run n
                 (snd (ScheduleTimerOverflow MAX_CALLOUT_CNT _MILLISECOND
                                             run st))),
     snd (ticks MAX_CALLOUT_CNT _MILLISECOND run n
            (snd (ScheduleTimerOverflow MAX_CALLOUT_CNT _MILLISECOND
                                        run st)))).
Proof.
  cbn [ticks].
  destruct (ScheduleTimerOverflow _ _ _ _) as [log st1]. cbn [fst snd].
  destruct (ticks _ _ _ _ _) as [logs st2]. reflexivity.
Qed.

Lemma ticks_now (n : nat) :
  (forall f s, now (run f s) = now s) ->
  forall st,
    0 <= now st < 2 ^ 32 ->
    now (snd (ticks MAX_CALLOUT_CNT _MILLISECOND run n st))
    = uint32 (now st + Z.of_nat n).
Proof.
  intros Hrun. induction n as [| n IH]; intros st Hst.
  - cbn [ticks snd]. unfold uint32.
    rewrite Z.add_0_r, Z.mod_small by exact Hst. reflexivity.
  - rewrite ticks_step. cbn [snd].
    rewrite IH, ScheduleTimerOverflow_now by
        (try rewrite ScheduleTimerOverflow_now by exact Hrun;
         try apply uint32_range; exact Hrun).
    unfold uint32. rewrite Zplus_mod_idemp_l. f_equal. lia.
Qed.

End Frames.

(** ** Counting bits and clearing one *)

Lemma count_from_nonneg (n : nat) : forall i m, 0 <= count_from n i m.
Proof.
  induction n as [| n IH]; intros i m; cbn [count_from].
  - lia.
  - specialize (IH (i + 1) m). destruct (Z.testbit m i); cbn [Z.b2z]; lia.
Qed.

Lemma count_from_zero (n : nat) :
  forall i m,
    count_from n i m = 0 ->
    forall j, i <= j < i + Z.of_nat n -> Z.testbit m j = false.
Proof.
  induction n as [| n IH]; intros i m H j Hj.
  - lia.
  - cbn [count_from] in H.
    pose proof (count_from_nonneg n (i + 1) m) as Hnn.
    destruct (Z.eq_dec j i) as [-> | Hne].
    + destruct (Z.testbit m i); cbn [Z.b2z] in H; [lia | reflexivity].
    + apply (IH (i + 1)); [| lia].
      destruct (Z.testbit m i); cbn [Z.b2z] in H; lia.
Qed.

Lemma count_from_vacate (n : nat) :
  forall a m i,
    0 <= a -> a + Z.of_nat n <= 16 -> 0 <= i ->
    Z.testbit m i = true ->
    count_from n a (vacate m i)
    = count_from n a m - (if (a <=? i) && (i <? a + Z.of_nat n) then 1 else 0).
Proof.
  induction n as [| n IH]; intros a m i Ha Hn Hi Hbit.
  - cbn [count_from]. replace (a + Z.of_nat 0) with a by lia.
    destruct (Z.leb_spec a i), (Z.ltb_spec i a); cbn [andb]; lia.
  - cbn [count_from]. rewrite IH by (assumption || lia).
    rewrite testbit_vacate by lia.
    destruct (Z.ltb_spec a 16); [| lia]. cbn [andb].
    destruct (Z.eqb_spec a i) as [-> | Hne].
    + rewrite Hbit. cbn [andb negb Z.b2z].
      destruct (Z.leb_spec (i + 1) i), (Z.leb_spec i i),
        (Z.ltb_spec i (i + 1 + Z.of_nat n)),
        (Z.ltb_spec i (i + Z.of_nat (S n))); cbn [andb]; lia.
    + rewrite andb_true_r.
      destruct (Z.leb_spec (a + 1) i), (Z.leb_spec a i),
        (Z.ltb_spec i (a + 1 + Z.of_nat n)),
        (Z.ltb_spec i (a + Z.of_nat (S n))); cbn [andb]; lia.
Qed.

Lemma map_empty_of_count (m : Z) :
  0 <= m < 2 ^ 16 -> count_from 16 0 m = 0 ->
  forall j, 0 <= j -> Z.testbit m j = false.
Proof.
  intros Hm Hc j Hj. destruct (Z.lt_ge_cases j 16) as [Hlt | Hge].
  - apply (count_from_zero 16 0 m Hc). change (Z.of_nat 16) with 16. lia.
  - apply testbit_high; assumption.
Qed.

(** ** The callout pass when handlers leave the callout table alone *)

Section CalloutPass.

Variable run : Z -> State -> State.

Hypothesis run_callout_map :
  forall f s, callout_map (run f s) = callout_map s.
Hypothesis run_callout_store :
  forall f s, callout_store (run f s) = callout_store s.

Lemma due_callouts_ext (k : nat) :
  forall i t st st',
    callout_store st' = callout_store st ->
    (forall j, i <= j -> occupied (callout_map st') j
                         = occupied (callout_map st) j) ->
    due_callouts k i t st' = due_callouts k i t st.
Proof.
  induction k as [| k IH]; intros i t st st' Hs Ho; cbn [due_callouts].
  - reflexivity.
  - unfold callout_due. rewrite Hs, Ho by lia. f_equal.
    apply IH; [exact Hs |]. intros j Hj. apply Ho. lia.
Qed.

Lemma CalloutService_scan_loop_none (k : nat) :
  forall i t st,
    (forall j, i <= j -> occupied (callout_map st) j = false) ->
    CalloutService_scan_loop run k i t st = ([], st).
Proof.
  induction k as [| k IH]; intros i t st H; cbn [CalloutService_scan_loop].
  - reflexivity.
  - rewrite H by lia. cbn [andb]. apply IH. intros j Hj. apply H. lia.
Qed.

(** What a full scan does: it fires the due slots in ascending order,
    clears their bits and nothing else. *)
Lemma CalloutService_scan_loop_spec (k : nat) :
  forall i t st,
    0 <= i -> 0 <= callout_map st < 2 ^ 16 ->
    let r := CalloutService_scan_loop run k i t st in
    fst r = due_callouts k i t st
    /\ callout_store (snd r) = callout_store st
    /\ 0 <= callout_map (snd r) < 2 ^ 16
    /\ forall j, 0 <= j ->
         Z.testbit (callout_map (snd r)) j
         = Z.testbit (callout_map st) j
           && negb ((i <=? j) && (j <? i + Z.of_nat k)
                    && callout_due st t j).
Proof.
  induction k as [| k IH]; intros i t st Hi Hm; cbv zeta.
  - cbn [CalloutService_scan_loop due_callouts fst snd].
    repeat split; try lia. intros j Hj.
    destruct (Z.leb_spec i j), (Z.ltb_spec j (i + Z.of_nat 0));
      cbn [andb negb]; try lia; rewrite andb_true_r; reflexivity.
  - cbn [CalloutService_scan_loop due_callouts].
    fold (callout_due st t i).
    destruct (callout_due st t i) eqn:Hdue.
    + set (st2 := set_callout_map _ _).
      assert (Hmap2 : callout_map st2 = vacate (callout_map st) i).
      { unfold st2. cbn. rewrite run_callout_map. reflexivity. }
      assert (Hst2 : callout_store st2 = callout_store st).
      { unfold st2. cbn. apply run_callout_store. }
      assert (Hm2 : 0 <= callout_map st2 < 2 ^ 16).
      { rewrite Hmap2. apply uint16_range. }
      assert (Hocc : forall j, 0 <= j -> j <> i ->
                Z.testbit (callout_map st2) j
                = Z.testbit (callout_map st) j).
      { intros j Hj Hne. rewrite Hmap2, testbit_vacate by lia.
        destruct (Z.eqb_spec j i); [lia |]. rewrite andb_true_r.
        destruct (Z.ltb_spec j 16); cbn [andb]; [reflexivity |].
        symmetry. apply testbit_high; assumption. }
      assert (Hdue' : forall j, 0 <= j -> j <> i ->
                callout_due st2 t j = callout_due st t j).
      { intros j Hj Hne. unfold callout_due.
        rewrite !occupied_testbit, Hocc, Hst2 by lia. reflexivity. }
      destruct (IH (i + 1) t st2 ltac:(lia) Hm2) as (Hlog & Hs & Hr & Hb).
      destruct (CalloutService_scan_loop run k (i + 1) t st2)
        as [log st3].
      cbn [fst snd] in *. repeat split; try lia.
      * rewrite Hlog. cbn [app]. f_equal.
        apply due_callouts_ext; [exact Hst2 |].
        intros j Hj. rewrite !occupied_testbit by lia. apply Hocc; lia.
      * congruence.
      * intros j Hj. rewrite Hb by exact Hj.
        destruct (Z.eq_dec j i) as [-> | Hne].
        -- rewrite Hmap2, testbit_vacate, Z.eqb_refl by lia.
           rewrite Hdue.
           destruct (Z.leb_spec i i), (Z.ltb_spec i (i + Z.of_nat (S k)));
             try lia.
           all: cbn [andb negb]; rewrite !andb_false_r; reflexivity.
        -- rewrite Hocc, Hdue' by assumption.
           destruct (Z.leb_spec (i + 1) j), (Z.leb_spec i j),
             (Z.ltb_spec j (i + 1 + Z.of_nat k)),
             (Z.ltb_spec j (i + Z.of_nat (S k)));
             cbn [andb negb]; try lia; reflexivity.
    + destruct (IH (i + 1) t st ltac:(lia) Hm) as (Hlog & Hs & Hr & Hb).
      destruct (CalloutService_scan_loop run k (i + 1) t st) as [log st3].
      cbn [fst snd app] in *. repeat split; try lia; try assumption.
      intros j Hj. rewrite Hb by exact Hj.
      destruct (Z.eq_dec j i) as [-> | Hne].
      * rewrite Hdue, !andb_false_r.
        destruct (Z.leb_spec (i + 1) i); [lia | reflexivity].
      * destruct (Z.leb_spec (i + 1) j), (Z.leb_spec i j),
          (Z.ltb_spec j (i + 1 + Z.of_nat k)),
          (Z.ltb_spec j (i + Z.of_nat (S k)));
          cbn [andb negb]; try lia; reflexivity.
Qed.

(** The counting loop of the source does what the full scan does. *)
Lemma CalloutService_loop_scan (k : nat) :
  forall i r t st,
    0 <= i -> 0 <= callout_map st < 2 ^ 16 ->
    r = count_from 16 0 (callout_map st) -> 0 < r ->
    CalloutService_loop run k i r t st
    = CalloutService_scan_loop run k i t st.
Proof.
  induction k as [| k IH]; intros i r t st Hi Hm Hr Hpos.
  - reflexivity.
  - cbn [CalloutService_loop CalloutService_scan_loop].
    destruct (occupied (callout_map st) i) eqn:Hocc; cbn [andb].
    + destruct (t =? CalloutEvent.run_time (callout_store st i)).
      * cbv zeta. set (st2 := set_callout_map _ _).
        assert (Hmap2 : callout_map st2 = vacate (callout_map st) i).
        { unfold st2. cbn. rewrite run_callout_map. reflexivity. }
        assert (Hm2 : 0 <= callout_map st2 < 2 ^ 16).
        { rewrite Hmap2. apply uint16_range. }
        rewrite occupied_testbit in Hocc by exact Hi.
        assert (Hi16 : i < 16).
        { destruct (Z.lt_ge_cases i 16) as [H | H]; [exact H |].
          rewrite testbit_high in Hocc by assumption. discriminate. }
        assert (Hcnt : count_from 16 0 (callout_map st2) = r - 1).
        { rewrite Hmap2, (count_from_vacate 16 0) by
              (try exact Hocc; change (Z.of_nat 16) with 16; lia).
          change (Z.of_nat 16) with 16.
          destruct (Z.leb_spec 0 i), (Z.ltb_spec i (0 + 16));
            cbn [andb]; lia. }
        pose proof (count_from_nonneg 16 0 (callout_map st)) as Hnn.
        assert (Hr16 : r <= 16).
        { rewrite Hr, <- count_bits_from.
          apply (count_bits_le 16). }
        rewrite uint8_small by lia.
        destruct (Z.eqb_spec (r - 1) 0) as [Hz | Hnz].
        -- rewrite CalloutService_scan_loop_none; [reflexivity |].
           intros j Hj. rewrite occupied_testbit by lia.
           apply map_empty_of_count; [exact Hm2 | lia | lia].
        -- rewrite (IH (i + 1) (r - 1) t st2) by lia. reflexivity.
      * apply IH; (assumption || lia).
    + apply IH; (assumption || lia).
Qed.

Lemma CalloutService_is_scan (MAX_CALLOUT_CNT : Z) (t : Z) (st : State) :
  0 <= callout_map st < 2 ^ 16 ->
  CalloutService MAX_CALLOUT_CNT run t st
  = CalloutService_scan MAX_CALLOUT_CNT run t st.
Proof.
  intros Hm. unfold CalloutService, CalloutService_scan.
  rewrite get_callout_map_size_spec by exact Hm.
  pose proof (count_from_nonneg 16 0 (callout_map st)) as Hnn.
  destruct (Z.eqb_spec (count_from 16 0 (callout_map st)) 0) as [Hz | Hnz].
  - rewrite CalloutService_scan_loop_none; [reflexivity |].
    intros j Hj. rewrite occupied_testbit by lia.
    apply map_empty_of_count; [exact Hm | exact Hz | lia].
  - apply CalloutService_loop_scan; first [assumption | reflexivity | lia].
Qed.

End CalloutPass.

(** ** The callback pass when handlers leave the callback table alone *)

Section CallbackPass.

Variable _MILLISECOND : Z.
Variable run : Z -> State -> State.

Hypothesis run_event_count :
  forall f s, event_count (run f s) = event_count s.

Lemma CallbackService_scan_loop_done (k : nat) (i t : Z) (st : State) :
  event_count st <= i ->
  CallbackService_scan_loop _MILLISECOND run k i t st = ([], st).
Proof.
  intros Hge. destruct k as [| k]; cbn [CallbackService_scan_loop].
  - reflexivity.
  - destruct (Z.ltb_spec i (event_count st)); [lia | reflexivity].
Qed.

(** The counter starts at [event_count] and every firing uses up one
    index, so it cannot reach zero before the last index. *)
Lemma CallbackService_loop_scan (k : nat) :
  forall i r t st,
    0 < r < 2 ^ 8 -> event_count st <= i + r ->
    CallbackService_loop _MILLISECOND run k i r t st
    = CallbackService_scan_loop _MILLISECOND run k i t st.
Proof.
  induction k as [| k IH]; intros i r t st Hr Hec.
  - reflexivity.
  - cbn [CallbackService_loop CallbackService_scan_loop].
    destruct (Z.ltb_spec i (event_count st)) as [Hlt | Hge];
      [| reflexivity].
    destruct (CallbackEvent.enabled (callback_store st i)
              && (t =? CallbackEvent.next_run_time (callback_store st i))).
    + cbv zeta. set (st2 := run _ _).
      assert (Hec2 : event_count st2 = event_count st).
      { unfold st2. rewrite run_event_count. reflexivity. }
      rewrite uint8_small by lia.
      destruct (Z.eqb_spec (r - 1) 0) as [Hz | Hnz].
      * rewrite CallbackService_scan_loop_done by lia. reflexivity.
      * rewrite (IH (i + 1) (r - 1) t st2) by lia. reflexivity.
    + apply IH; lia.
Qed.

Lemma CallbackService_is_scan (t : Z) (st : State) :
  0 <= event_count st < 2 ^ 8 ->
  CallbackService _MILLISECOND run t st
  = CallbackService_scan _MILLISECOND run t st.
Proof.
  intros Hec. unfold CallbackService, CallbackService_scan.
  destruct (Z.eqb_spec (event_count st) 0) as [Hz | Hnz].
  - rewrite CallbackService_scan_loop_done by lia. reflexivity.
  - apply CallbackService_loop_scan; lia.
Qed.

Hypothesis run_callback_store :
  forall f s, callback_store (run f s) = callback_store s.

Lemma due_callbacks_ext (k : nat) :
  forall i t st st',
    (forall j, i <= j -> callback_store st' j = callback_store st j) ->
    due_callbacks k i t st' = due_callbacks k i t st.
Proof.
  induction k as [| k IH]; intros i t st st' Hs; cbn [due_callbacks].
  - reflexivity.
  - unfold callback_due. rewrite Hs by lia. f_equal.
    apply IH. intros j Hj. apply Hs. lia.
Qed.

(** What a full scan does: it fires the enabled entries whose
    [next_run_time] is [t], in registration order, and moves the
    [next_run_time] of each by its stored [run_time]. *)
Lemma CallbackService_scan_loop_spec (k : nat) :
  forall i t st,
    0 <= i -> event_count st - i <= Z.of_nat k ->
    let r := CallbackService_scan_loop _MILLISECOND run k i t st in
    fst r = due_callbacks (Z.to_nat (event_count st - i)) i t st
    /\ event_count (snd r) = event_count st
    /\ forall j,
         callback_store (snd r) j
         = if (i <=? j) && (j <? event_count st) && callback_due st t j
           then rescheduled _MILLISECOND (callback_store st j) t
           else callback_store st j.
Proof.
  induction k as [| k IH]; intros i t st Hi Hk; cbv zeta.
  - cbn [CallbackService_scan_loop fst snd].
    replace (Z.to_nat (event_count st - i)) with O by lia.
    repeat split. intros j.
    destruct (Z.leb_spec i j), (Z.ltb_spec j (event_count st));
      cbn [andb]; try lia; reflexivity.
  - cbn [CallbackService_scan_loop].
    destruct (Z.ltb_spec i (event_count st)) as [Hlt | Hge].
    + replace (Z.to_nat (event_count st - i))
        with (S (Z.to_nat (event_count st - (i + 1)))) by lia.
      cbn [due_callbacks]. fold (callback_due st t i).
      destruct (callback_due st t i) eqn:Hdue.
      * cbv zeta. set (st2 := run _ _).
        assert (Hec2 : event_count st2 = event_count st).
        { unfold st2. rewrite run_event_count. reflexivity. }
        assert (Hst2 : callback_store st2
                       = upd (callback_store st) i
                             (rescheduled _MILLISECOND (callback_store st i) t)).
        { unfold st2. rewrite run_callback_store. reflexivity. }
        assert (Hoth : forall j, j <> i ->
                  callback_store st2 j = callback_store st j).
        { intros j Hne. rewrite Hst2. unfold upd.
          destruct (Z.eqb_spec j i); [lia | reflexivity]. }
        destruct (IH (i + 1) t st2 ltac:(lia) ltac:(lia))
          as (Hlog & Hec & Hs).
        destruct (CallbackService_scan_loop _MILLISECOND run k (i + 1) t st2)
          as [log st3].
        cbn [fst snd] in *. repeat split.
        -- rewrite Hlog, Hec2. cbn [app]. f_equal.
           ++ f_equal. cbn. unfold upd. rewrite Z.eqb_refl. reflexivity.
           ++ apply due_callbacks_ext. intros j Hj. apply Hoth. lia.
        -- congruence.
        -- intros j. rewrite Hs, Hec2.
           destruct (Z.eq_dec j i) as [-> | Hne].
           ++ rewrite Hdue.
              destruct (Z.leb_spec (i + 1) i), (Z.leb_spec i i),
                (Z.ltb_spec i (event_count st)); cbn [andb]; try lia.
              rewrite Hst2. unfold upd. rewrite Z.eqb_refl. reflexivity.
           ++ unfold callback_due. rewrite !Hoth by exact Hne.
              destruct (Z.leb_spec (i + 1) j), (Z.leb_spec i j);
                cbn [andb]; try lia; reflexivity.
      * destruct (IH (i + 1) t st ltac:(lia) ltac:(lia))
          as (Hlog & Hec & Hs).
        destruct (CallbackService_scan_loop _MILLISECOND run k (i + 1) t st)
          as [log st3].
        cbn [fst snd app] in *. repeat split; try assumption.
        intros j. rewrite Hs.
        destruct (Z.eq_dec j i) as [-> | Hne].
        -- rewrite Hdue, !andb_false_r. reflexivity.
        -- destruct (Z.leb_spec (i + 1) j), (Z.leb_spec i j);
             cbn [andb]; try lia; reflexivity.
    + cbn [fst snd].
      replace (Z.to_nat (event_count st - i)) with O by lia.
      repeat split. intros j.
      destruct (Z.leb_spec i j), (Z.ltb_spec j (event_count st));
        cbn [andb]; try lia; reflexivity.
Qed.

End CallbackPass.

(** ** Registration and cancellation of callouts *)

Lemma first_free_some (k : nat) :
  forall i map j,
    first_free k i map = Some j ->
    i <= j < i + Z.of_nat k
    /\ occupied map j = false
    /\ forall j', i <= j' < j -> occupied map j' = true.
Proof.
  induction k as [| k IH]; intros i map j H; cbn [first_free] in H.
  - discriminate.
  - destruct (occupied map i) eqn:Ho.
    + destruct (IH _ _ _ H) as (Hr & Hj & Hlow).
      repeat split; try lia; try assumption.
      intros j' Hj'. destruct (Z.eq_dec j' i) as [-> | Hne];
        [exact Ho | apply Hlow; lia].
    + injection H as <-. repeat split; try lia; assumption.
Qed.

Lemma first_free_none (k : nat) :
  forall i map,
    first_free k i map = None ->
    forall j, i <= j < i + Z.of_nat k -> occupied map j = true.
Proof.
  induction k as [| k IH]; intros i map H j Hj; cbn [first_free] in H.
  - lia.
  - destruct (occupied map i) eqn:Ho; [| discriminate].
    destruct (Z.eq_dec j i) as [-> | Hne]; [exact Ho |].
    apply (IH (i + 1)); [exact H | lia].
Qed.

Lemma count_from_le (n : nat) : forall i m, count_from n i m <= Z.of_nat n.
Proof.
  induction n as [| n IH]; intros i m; cbn [count_from].
  - lia.
  - specialize (IH (i + 1) m). destruct (Z.testbit m i); cbn [Z.b2z]; lia.
Qed.

Lemma count_from_full (n : nat) :
  forall i m,
    count_from n i m = Z.of_nat n <->
    (forall j, i <= j < i + Z.of_nat n -> Z.testbit m j = true).
Proof.
  induction n as [| n IH]; intros i m; cbn [count_from].
  - split; [intros _ j Hj; lia | reflexivity].
  - pose proof (count_from_le n (i + 1) m) as Hle.
    specialize (IH (i + 1) m). split.
    + intros H j Hj.
      destruct (Z.testbit m i) eqn:Hb; cbn [Z.b2z] in H; [| lia].
      destruct (Z.eq_dec j i) as [-> | Hne]; [exact Hb |].
      apply IH; lia.
    + intros H. rewrite (H i) by lia. cbn [Z.b2z].
      assert (count_from n (i + 1) m = Z.of_nat n) as ->; [| lia].
      apply IH. intros j Hj. apply H. lia.
Qed.

Lemma count_from_app (a b : nat) :
  forall i m,
    count_from (a + b) i m
    = count_from a i m + count_from b (i + Z.of_nat a) m.
Proof.
  induction a as [| a IH]; intros i m.
  - cbn [Nat.add count_from]. replace (i + Z.of_nat 0) with i by lia. lia.
  - cbn [Nat.add count_from]. rewrite IH.
    replace (i + 1 + Z.of_nat a) with (i + Z.of_nat (S a)) by lia. lia.
Qed.

Lemma count_from_none (n : nat) :
  forall i m,
    (forall j, i <= j < i + Z.of_nat n -> Z.testbit m j = false) ->
    count_from n i m = 0.
Proof.
  induction n as [| n IH]; intros i m H; cbn [count_from].
  - reflexivity.
  - rewrite (H i) by lia. rewrite IH; [reflexivity |].
    intros j Hj. apply H. lia.
Qed.

Lemma testbit_above (m n j : Z) :
  0 <= n -> 0 <= m < 2 ^ n -> n <= j -> Z.testbit m j = false.
Proof.
  intros Hn Hm Hj. rewrite <- (Z.mod_small m (2 ^ n)) by exact Hm.
  apply Z.mod_pow2_bits_high. lia.
Qed.

(** On a map that only uses the slots below the capacity, the count is
    the capacity exactly when every slot is taken. *)
Lemma count_is_capacity (cap m : Z) :
  0 <= cap <= 16 -> 0 <= m < 2 ^ cap ->
  (count_from 16 0 m = cap <->
   forall j, 0 <= j < cap -> Z.testbit m j = true).
Proof.
  intros Hcap Hm.
  replace 16%nat with (Z.to_nat cap + (16 - Z.to_nat cap))%nat by lia.
  rewrite count_from_app.
  rewrite (count_from_none _ (0 + Z.of_nat (Z.to_nat cap))).
  - rewrite Z.add_0_r. rewrite <- (Z2Nat.id cap) at 2 by lia.
    rewrite count_from_full. rewrite Z2Nat.id by lia. reflexivity.
  - intros j Hj. apply (testbit_above m cap); lia.
Qed.

Lemma pow2_le_16 (cap : Z) : 0 <= cap <= 16 -> 2 ^ cap <= 2 ^ 16.
Proof. intros H. apply Z.pow_le_mono_r; lia. Qed.

Section CalloutTable.

Variable MAX_CALLOUT_CNT : Z.
Variable _MILLISECOND : Z.

Hypothesis capacity : 0 <= MAX_CALLOUT_CNT <= 16.

Lemma CalloutRegister_loop_spec (k : nat) :
  forall i f d st,
    CalloutRegister_loop _MILLISECOND k i f d st
    = match first_free k i (callout_map st) with
      | Some j =>
          (SUCCESS,
           set_callout
             (set_callout_map st (claim (callout_map st) j)) j
             (CalloutEvent.mk
                f (uint32 (now st + uint32 (d * _MILLISECOND)))))
      | None => (FAILURE, st)
      end.
Proof.
  induction k as [| k IH]; intros i f d st;
    cbn [CalloutRegister_loop first_free].
  - reflexivity.
  - destruct (occupied (callout_map st) i); cbn [negb].
    + apply IH.
    + reflexivity.
Qed.

(** [CalloutRegister] reports failure exactly when the count of the
    map is the capacity. *)
Lemma CalloutRegister_full_iff (f d : Z) (st : State) :
  0 <= callout_map st < 2 ^ MAX_CALLOUT_CNT ->
  fst (CalloutRegister MAX_CALLOUT_CNT _MILLISECOND f d st) = FAILURE
  <-> get_callout_map_size st = MAX_CALLOUT_CNT.
Proof.
  intros Hm. pose proof (pow2_le_16 _ capacity) as Hp.
  unfold CalloutRegister.
  destruct (Z.eqb_spec (get_callout_map_size st) MAX_CALLOUT_CNT)
    as [Heq | Hne]; cbn [negb].
  - split; [intros _; exact Heq | reflexivity].
  - split; [| intros H; contradiction].
    rewrite CalloutRegister_loop_spec.
    destruct (first_free _ 0 (callout_map st)) eqn:Hff;
      [discriminate | intros _].
    exfalso. apply Hne.
    rewrite get_callout_map_size_spec by lia.
    apply count_is_capacity; [exact capacity | exact Hm |].
    intros j Hj. rewrite <- occupied_testbit by lia.
    apply (first_free_none _ _ _ Hff). lia.
Qed.

(** A successful registration claims the lowest vacant slot, stores the
    handler and its time there, and touches nothing else. *)
Lemma CalloutRegister_success (f d : Z) (st st' : State) :
  CalloutRegister MAX_CALLOUT_CNT _MILLISECOND f d st = (SUCCESS, st') ->
  exists i,
    0 <= i < MAX_CALLOUT_CNT
    /\ occupied (callout_map st) i = false
    /\ (forall j, 0 <= j < i -> occupied (callout_map st) j = true)
    /\ st' = set_callout
               (set_callout_map st (claim (callout_map st) i)) i
               (CalloutEvent.mk
                  f (uint32 (now st + uint32 (d * _MILLISECOND)))).
Proof.
  unfold CalloutRegister.
  destruct (negb _); [| discriminate].
  rewrite CalloutRegister_loop_spec.
  destruct (first_free _ 0 (callout_map st)) as [i |] eqn:Hff;
    [| discriminate].
  intros H. injection H as <-.
  destruct (first_free_some _ _ _ _ Hff) as (Hr & Hfree & Hlow).
  exists i. repeat split; try lia; assumption.
Qed.

Lemma CalloutRegister_failure (f d : Z) (st : State) :
  fst (CalloutRegister MAX_CALLOUT_CNT _MILLISECOND f d st) = FAILURE ->
  snd (CalloutRegister MAX_CALLOUT_CNT _MILLISECOND f d st) = st.
Proof.
  unfold CalloutRegister. destruct (negb _); [| reflexivity].
  rewrite CalloutRegister_loop_spec.
  destruct (first_free _ 0 (callout_map st)); [discriminate | reflexivity].
Qed.

Lemma CalloutCancel_loop_spec (k : nat) :
  forall i f st,
    CalloutCancel_loop k i f st
    = match first_holding k i f (callout_store st) with
      | Some j => set_callout_map st (vacate (callout_map st) j)
      | None => st
      end.
Proof.
  induction k as [| k IH]; intros i f st;
    cbn [CalloutCancel_loop first_holding].
  - reflexivity.
  - destruct (CalloutEvent.func (callout_store st i) =? f).
    + reflexivity.
    + apply IH.
Qed.

Lemma first_holding_some (k : nat) :
  forall i f store j,
    first_holding k i f store = Some j ->
    i <= j < i + Z.of_nat k
    /\ CalloutEvent.func (store j) = f
    /\ forall j', i <= j' < j -> CalloutEvent.func (store j') <> f.
Proof.
  induction k as [| k IH]; intros i f store j H; cbn [first_holding] in H.
  - discriminate.
  - destruct (Z.eqb_spec (CalloutEvent.func (store i)) f) as [He | Hn].
    + injection H as <-. repeat split; try lia; assumption.
    + destruct (IH _ _ _ _ H) as (Hr & Hj & Hlow).
      repeat split; try lia; try assumption.
      intros j' Hj'. destruct (Z.eq_dec j' i) as [-> | Hne];
        [exact Hn | apply Hlow; lia].
Qed.

Lemma first_holding_none (k : nat) :
  forall i f store,
    first_holding k i f store = None ->
    forall j, i <= j < i + Z.of_nat k -> CalloutEvent.func (store j) <> f.
Proof.
  induction k as [| k IH]; intros i f store H j Hj;
    cbn [first_holding] in H.
  - lia.
  - destruct (Z.eqb_spec (CalloutEvent.func (store i)) f) as [He | Hn];
      [discriminate |].
    destruct (Z.eq_dec j i) as [-> | Hne]; [exact Hn |].
    apply (IH (i + 1)); [exact H | lia].
Qed.

End CalloutTable.

(** ** Reading a pass off its log *)

Lemma fired_callouts_app (l1 l2 : list Fired) :
  fired_callouts (l1 ++ l2) = fired_callouts l1 ++ fired_callouts l2.
Proof.
  induction l1 as [| [i f | i f] l1 IH]; cbn [app fired_callouts].
  - reflexivity.
  - exact IH.
  - rewrite IH. reflexivity.
Qed.

Lemma fired_callouts_of_callbacks (log : list Fired) :
  forallb is_callback log = true -> fired_callouts log = [].
Proof.
  induction log as [| [i f | i f] log IH]; cbn [forallb fired_callouts];
    intros H.
  - reflexivity.
  - apply IH. exact H.
  - discriminate.
Qed.

Lemma count_due_callouts (k : nat) :
  forall i t st j,
    count_occ Z.eq_dec (fired_callouts (due_callouts k i t st)) j
    = if (i <=? j) && (j <? i + Z.of_nat k) && callout_due st t j
      then 1%nat else 0%nat.
Proof.
  induction k as [| k IH]; intros i t st j; cbn [due_callouts].
  - cbn [fired_callouts count_occ].
    destruct (Z.leb_spec i j), (Z.ltb_spec j (i + Z.of_nat 0));
      cbn [andb]; try lia; reflexivity.
  - rewrite fired_callouts_app, count_occ_app, IH.
    destruct (Z.eq_dec j i) as [-> | Hne].
    + destruct (Z.leb_spec (i + 1) i); [lia |]. cbn [andb].
      destruct (Z.leb_spec i i), (Z.ltb_spec i (i + Z.of_nat (S k)));
        try lia.
      cbn [andb]. destruct (callout_due st t i);
        cbn [fired_callouts count_occ].
      * destruct (Z.eq_dec i i); [reflexivity | contradiction].
      * reflexivity.
    + assert (Hhead :
        count_occ Z.eq_dec
          (fired_callouts
             (if callout_due st t i
              then [FiredCallout i (CalloutEvent.func (callout_store st i))]
              else [])) j = 0%nat).
      { destruct (callout_due st t i); cbn [fired_callouts count_occ].
        - destruct (Z.eq_dec i j); [congruence | reflexivity].
        - reflexivity. }
      rewrite Hhead. cbn [Nat.add].
      destruct (Z.leb_spec (i + 1) j), (Z.leb_spec i j),
        (Z.ltb_spec j (i + 1 + Z.of_nat k)),
        (Z.ltb_spec j (i + Z.of_nat (S k)));
        cbn [andb]; try lia; reflexivity.
Qed.

Lemma in_due_callouts (k : nat) :
  forall i t st j g,
    In (FiredCallout j g) (due_callouts k i t st) <->
    i <= j < i + Z.of_nat k
    /\ callout_due st t j = true
    /\ g = CalloutEvent.func (callout_store st j).
Proof.
  induction k as [| k IH]; intros i t st j g; cbn [due_callouts].
  - cbn [In]. split; [contradiction | lia].
  - rewrite in_app_iff, IH. split.
    + intros [Hhead | (Hr & Hd & Hg)].
      * destruct (callout_due st t i) eqn:Hdue; cbn [In] in Hhead;
          [| contradiction].
        destruct Hhead as [Heq | []]. injection Heq as <- <-.
        repeat split; try lia; assumption.
      * repeat split; try lia; assumption.
    + intros (Hr & Hd & Hg).
      destruct (Z.eq_dec j i) as [-> | Hne].
      * left. rewrite Hd. left. congruence.
      * right. repeat split; try lia; assumption.
Qed.

Section PassLogs.

Variable MAX_CALLOUT_CNT : Z.
Variable _MILLISECOND : Z.
Variable run : Z -> State -> State.

Lemma CallbackService_loop_log (k : nat) :
  forall i r t st,
    forallb is_callback
            (fst (CallbackService_loop _MILLISECOND run k i r t st)) = true.
Proof.
  induction k as [| k IH]; intros i r t st.
  - reflexivity.
  - cbn [CallbackService_loop].
    destruct (i <? event_count st); [| reflexivity].
    destruct (CallbackEvent.enabled (callback_store st i)
              && (t =? CallbackEvent.next_run_time (callback_store st i))).
    + cbv zeta. destruct (uint8 (r - 1) =? 0); [reflexivity |].
      match goal with
      | |- context [CallbackService_loop ?m ?h k ?a ?b ?c ?d] =>
          specialize (IH a b c d);
          destruct (CallbackService_loop m h k a b c d) as [log st3]
      end.
      cbn [fst forallb is_callback andb] in *. exact IH.
    + apply IH.
Qed.

Lemma CallbackService_log (t : Z) (st : State) :
  forallb is_callback (fst (CallbackService _MILLISECOND run t st)) = true.
Proof.
  unfold CallbackService. destruct (event_count st =? 0); [reflexivity |].
  apply CallbackService_loop_log.
Qed.

Lemma CalloutService_loop_log (k : nat) :
  forall i r t st,
    forallb is_callout (fst (CalloutService_loop run k i r t st)) = true.
Proof.
  induction k as [| k IH]; intros i r t st.
  - reflexivity.
  - cbn [CalloutService_loop].
    destruct (occupied (callout_map st) i
              && (t =? CalloutEvent.run_time (callout_store st i))).
    + cbv zeta. destruct (uint8 (r - 1) =? 0); [reflexivity |].
      match goal with
      | |- context [CalloutService_loop ?h k ?a ?b ?c ?d] =>
          specialize (IH a b c d);
          destruct (CalloutService_loop h k a b c d) as [log st3]
      end.
      cbn [fst forallb is_callout is_callback negb andb] in *. exact IH.
    + apply IH.
Qed.

Lemma CalloutService_log (t : Z) (st : State) :
  forallb is_callout (fst (CalloutService MAX_CALLOUT_CNT run t st)) = true.
Proof.
  unfold CalloutService.
  destruct (get_callout_map_size st =? 0); [reflexivity |].
  apply CalloutService_loop_log.
Qed.

(** A pass over the callouts visits every slot once, in ascending
    order, whatever the handlers do. *)
Lemma CalloutService_loop_ascending (k : nat) :
  forall i r t st,
    Forall (fun j => i <= j < i + Z.of_nat k)
           (fired_callouts (fst (CalloutService_loop run k i r t st)))
    /\ StronglySorted Z.lt
         (fired_callouts (fst (CalloutService_loop run k i r t st))).
Proof.
  induction k as [| k IH]; intros i r t st.
  - cbn. split; constructor.
  - cbn [CalloutService_loop].
    destruct (occupied (callout_map st) i
              && (t =? CalloutEvent.run_time (callout_store st i))).
    + cbv zeta. destruct (uint8 (r - 1) =? 0).
      * cbn [fst fired_callouts]. split.
        -- constructor; [lia | constructor].
        -- constructor; constructor.
      * match goal with
        | |- context [CalloutService_loop ?h k ?a ?b ?c ?d] =>
            specialize (IH a b c d);
            destruct (CalloutService_loop h k a b c d) as [log st3]
        end.
        cbn [fst fired_callouts] in *. destruct IH as [Hr Hs]. split.
        -- constructor; [lia |].
           eapply Forall_impl; [| exact Hr]. cbv beta. intros; lia.
        -- constructor; [exact Hs |].
           eapply Forall_impl; [| exact Hr]. cbv beta. intros; lia.
    + destruct (IH (i + 1) r t st) as [Hr Hs]. split; [| exact Hs].
      eapply Forall_impl; [| exact Hr]. cbv beta. intros; lia.
Qed.

End PassLogs.

(** ** A callout over many ticks *)

Lemma uint32_add_l (a b : Z) : uint32 (uint32 a + b) = uint32 (a + b).
Proof. unfold uint32. apply Zplus_mod_idemp_l. Qed.

Lemma below_pow2_of_bits (cap m : Z) :
  0 <= cap -> 0 <= m ->
  (forall j, cap <= j -> Z.testbit m j = false) -> m < 2 ^ cap.
Proof.
  intros Hcap Hm Hb.
  assert (Heq : m = m mod 2 ^ cap).
  { apply Z.bits_inj'. intros j Hj.
    destruct (Z.lt_ge_cases j cap) as [Hlt | Hge].
    - symmetry. apply Z.mod_pow2_bits_low. lia.
    - rewrite Z.mod_pow2_bits_high by lia. apply Hb. exact Hge. }
  rewrite Heq. apply Z.mod_pos_bound. apply Z.pow_pos_nonneg; lia.
Qed.

Section CalloutLife.

Variable MAX_CALLOUT_CNT : Z.
Variable _MILLISECOND : Z.
Variable run : Z -> State -> State.

Hypothesis capacity : 0 <= MAX_CALLOUT_CNT <= 16.
Hypothesis run_now : forall f s, now (run f s) = now s.
Hypothesis run_callout_map :
  forall f s, callout_map (run f s) = callout_map s.
Hypothesis run_callout_store :
  forall f s, callout_store (run f s) = callout_store s.

Local Abbreviation tick :=
  (ScheduleTimerOverflow MAX_CALLOUT_CNT _MILLISECOND run).
Local Abbreviation tickn := (ticks MAX_CALLOUT_CNT _MILLISECOND run).

(** One interrupt, seen from the callout table. *)
Lemma tick_callouts (st : State) :
  0 <= callout_map st < 2 ^ MAX_CALLOUT_CNT ->
  let t := uint32 (now st + 1) in
  now (snd (tick st)) = t
  /\ callout_store (snd (tick st)) = callout_store st
  /\ 0 <= callout_map (snd (tick st)) < 2 ^ MAX_CALLOUT_CNT
  /\ (forall j, 0 <= j ->
        Z.testbit (callout_map (snd (tick st))) j
        = Z.testbit (callout_map st) j
          && negb ((j <? MAX_CALLOUT_CNT) && callout_due st t j))
  /\ (forall j,
        count_occ Z.eq_dec (fired_callouts (fst (tick st))) j
        = if (0 <=? j) && (j <? MAX_CALLOUT_CNT) && callout_due st t j
          then 1%nat else 0%nat)
  /\ (forall j g,
        In (FiredCallout j g) (fst (tick st)) <->
        0 <= j < MAX_CALLOUT_CNT
        /\ callout_due st t j = true
        /\ g = CalloutEvent.func (callout_store st j)).
Proof.
  intros Hm. cbv zeta.
  pose proof (pow2_le_16 _ capacity) as Hp.
  split; [apply ScheduleTimerOverflow_now; exact run_now |].
  rewrite ScheduleTimerOverflow_fst, ScheduleTimerOverflow_snd.
  set (t := uint32 (now st + 1)).
  set (st1 := set_now st t).
  set (r1 := CallbackService _MILLISECOND run t st1).
  assert (Hnow2 : now (snd r1) = t).
  { unfold r1. rewrite (CallbackService_frame _ _ now); auto. }
  assert (Hmap2 : callout_map (snd r1) = callout_map st).
  { unfold r1. rewrite (CallbackService_frame _ _ callout_map); auto. }
  assert (Hst2 : callout_store (snd r1) = callout_store st).
  { unfold r1. rewrite (CallbackService_frame _ _ callout_store); auto. }
  assert (Hlog1 : fired_callouts (fst r1) = []).
  { apply fired_callouts_of_callbacks. apply CallbackService_log. }
  assert (Hdue : forall j, callout_due (snd r1) t j = callout_due st t j).
  { intros j. unfold callout_due. rewrite Hmap2, Hst2. reflexivity. }
  rewrite Hnow2.
  rewrite (CalloutService_is_scan run run_callout_map)
    by (rewrite Hmap2; lia).
  unfold CalloutService_scan.
  destruct (CalloutService_scan_loop_spec run run_callout_map
              run_callout_store (Z.to_nat MAX_CALLOUT_CNT) 0 t (snd r1))
    as (Hlog & Hs & Hr & Hb); [lia | rewrite Hmap2; lia |].
  set (r2 := CalloutService_scan_loop run _ 0 t (snd r1)) in *.
  assert (Hlog' : fst r2 = due_callouts (Z.to_nat MAX_CALLOUT_CNT) 0 t st).
  { rewrite Hlog. apply due_callouts_ext; [exact Hst2 |].
    intros j Hj. rewrite Hmap2. reflexivity. }
  assert (Hbits : forall j, 0 <= j ->
            Z.testbit (callout_map (snd r2)) j
            = Z.testbit (callout_map st) j
              && negb ((j <? MAX_CALLOUT_CNT) && callout_due st t j)).
  { intros j Hj. rewrite Hb, Hmap2, Hdue, Z2Nat.id by lia.
    destruct (Z.leb_spec 0 j); [| lia]. reflexivity. }
  split; [| split; [| split; [| split]]].
  - congruence.
  - split; [lia |]. apply below_pow2_of_bits; try lia.
    intros j Hj. rewrite Hbits by lia.
    rewrite (testbit_above (callout_map st) MAX_CALLOUT_CNT) by lia.
    reflexivity.
  - exact Hbits.
  - intros j. rewrite fired_callouts_app, Hlog1, Hlog'. cbn [app].
    rewrite count_due_callouts, Z2Nat.id by lia. reflexivity.
  - intros j g. rewrite in_app_iff, Hlog', in_due_callouts.
    rewrite Z2Nat.id by lia. split.
    + intros [Hin | H]; [| exact H].
      pose proof (CallbackService_log _MILLISECOND run t st1) as Hall.
      rewrite forallb_forall in Hall. specialize (Hall _ Hin).
      discriminate.
    + intros H. right. exact H.
Qed.




(** A vacant slot does not fire, as long as nobody registers. *)
Lemma vacant_stays (i : Z) (n : nat) :
  0 <= i ->
  forall st,
    0 <= callout_map st < 2 ^ MAX_CALLOUT_CNT ->
    occupied (callout_map st) i = false ->
    ~ In i (fired_callouts (concat (fst (tickn n st))))
    /\ occupied (callout_map (snd (tickn n st))) i = false.
Proof.
  intros Hi. induction n as [| n IH]; intros st Hm Ho.
  - cbn [ticks fst snd concat fired_callouts In]. split; [intros [] | exact Ho].
  - rewrite ticks_step. cbn [fst snd concat].
    destruct (tick_callouts st Hm) as (Hnow & Hs & Hm' & Hb & Hc & _).
    assert (Hnd : callout_due st (uint32 (now st + 1)) i = false).
    { unfold callout_due. rewrite Ho. reflexivity. }
    destruct (IH (snd (tick st))) as (Hni & Ho').
    + exact Hm'.
    + rewrite occupied_testbit in * by exact Hi.
      rewrite Hb, Ho by exact Hi. reflexivity.
    + split; [| exact Ho'].
      rewrite fired_callouts_app, in_app_iff. intros [Hin | Hin].
      * apply (count_occ_In Z.eq_dec) in Hin.
        rewrite Hc, Hnd, andb_false_r in Hin. lia.
      * exact (Hni Hin).
Qed.


End CalloutLife.

Lemma wait_hits (T x : Z) :
  uint32 (T + uint32 (x - 1) + 1) = uint32 (T + uint32 x).
Proof.
  unfold uint32. change (2 ^ 32) with 4294967296.
  Z.div_mod_to_equations. lia.
Qed.

Lemma wait_quiet (T x k : Z) :
  0 <= k < uint32 (x - 1) -> uint32 (T + k + 1) <> uint32 (T + uint32 x).
Proof.
  unfold uint32. change (2 ^ 32) with 4294967296.
  Z.div_mod_to_equations. lia.
Qed.

Lemma in_due_callbacks (k : nat) :
  forall i t st j g,
    In (FiredCallback j g) (due_callbacks k i t st) <->
    i <= j < i + Z.of_nat k
    /\ callback_due st t j = true
    /\ g = CallbackEvent.func (callback_store st j).
Proof.
  induction k as [| k IH]; intros i t st j g; cbn [due_callbacks].
  - cbn [In]. split; [contradiction | lia].
  - rewrite in_app_iff, IH. split.
    + intros [Hhead | (Hr & Hd & Hg)].
      * destruct (callback_due st t i) eqn:Hdue; cbn [In] in Hhead;
          [| contradiction].
        destruct Hhead as [Heq | []]. injection Heq as <- <-.
        repeat split; try lia; assumption.
      * repeat split; try lia; assumption.
    + intros (Hr & Hd & Hg).
      destruct (Z.eq_dec j i) as [-> | Hne].
      * left. rewrite Hd. left. congruence.
      * right. repeat split; try lia; assumption.
Qed.

(** ** A callback over one tick *)

Section CallbackLife.

Variable MAX_CALLOUT_CNT : Z.
Variable _MILLISECOND : Z.
Variable run : Z -> State -> State.

Hypothesis run_event_count :
  forall f s, event_count (run f s) = event_count s.
Hypothesis run_callback_store :
  forall f s, callback_store (run f s) = callback_store s.

(** One interrupt, seen from the callback table: an entry fires exactly
    when it is enabled and its [next_run_time] is the new clock value,
    and firing moves its [next_run_time] by the stored [run_time]. *)
Lemma tick_callbacks (st : State) :
  0 <= event_count st < 2 ^ 8 ->
  let t := uint32 (now st + 1) in
  let r := ScheduleTimerOverflow MAX_CALLOUT_CNT _MILLISECOND run st in
  event_count (snd r) = event_count st
  /\ (forall j g,
         In (FiredCallback j g) (fst r) <->
         0 <= j < event_count st
         /\ callback_due st t j = true
         /\ g = CallbackEvent.func (callback_store st j))
  /\ (forall j,
         callback_store (snd r) j
         = if (0 <=? j) && (j <? event_count st) && callback_due st t j
           then rescheduled _MILLISECOND (callback_store st j) t
           else callback_store st j).
Proof.
  intros Hec. cbv zeta.
  rewrite ScheduleTimerOverflow_fst, ScheduleTimerOverflow_snd.
  set (t := uint32 (now st + 1)).
  set (st1 := set_now st t).
  rewrite (CallbackService_is_scan _MILLISECOND run run_event_count t st1)
    by exact Hec.
  unfold CallbackService_scan.
  destruct (CallbackService_scan_loop_spec _MILLISECOND run run_event_count
              run_callback_store 256 0 t st1)
    as (Hlog & Hcnt & Hs); [lia | cbn; lia |].
  set (cb := CallbackService_scan_loop _MILLISECOND run 256 0 t st1) in *.
  change (event_count st1) with (event_count st) in *.
  change (callback_store st1) with (callback_store st) in *.
  assert (Hdue : forall j, callback_due st1 t j = callback_due st t j)
    by reflexivity.
  split; [| split].
  - rewrite (CalloutService_frame _ _ event_count) by auto. exact Hcnt.
  - intros j g. rewrite in_app_iff, Hlog, in_due_callbacks, Hdue.
    rewrite Z.sub_0_r, Z2Nat.id by lia.
    change (callback_store st1) with (callback_store st). split.
    + intros [H | Hin]; [exact H |].
      pose proof (CalloutService_log MAX_CALLOUT_CNT run (now (snd cb))
                                     (snd cb)) as Hall.
      rewrite forallb_forall in Hall. specialize (Hall _ Hin).
      discriminate.
    + intros H. left. exact H.
  - intros j. rewrite (CalloutService_frame _ _ callback_store) by auto.
    rewrite Hs, Hdue. reflexivity.
Qed.

End CallbackLife.

(** ** The loop bounds of the model are never what stops a loop *)

(** The sixteen turns given to the counting loop are enough: more turns
    give the same count. *)
Lemma popcount_loop_enough (k : nat) (map : Z) :
  0 <= map < 2 ^ 16 -> (16 <= k)%nat ->
  popcount_loop k map 0 = popcount_loop 16 map 0.
Proof.
  intros Hm Hk. pose proof (count_bits_le 16 map) as Hle.
  change (Z.of_nat 16) with 16 in Hle.
  rewrite !popcount_loop_spec; try lia; reflexivity.
Qed.

Section LoopBounds.

Variable _MILLISECOND : Z.
Variable run : Z -> State -> State.

Hypothesis run_uint8 : forall f s, event_count (run f s) < 2 ^ 8.

Lemma CallbackService_loop_step (k : nat) (i r t : Z) (st : State) :
  CallbackService_loop _MILLISECOND run (S k) i r t st
  = if i <? event_count st then
      if callback_due st t i then
        let st2 :=
          run (CallbackEvent.func (callback_store st i))
              (set_callback st i
                 (rescheduled _MILLISECOND (callback_store st i) t)) in
        if uint8 (r - 1) =? 0
        then ([FiredCallback i (CallbackEvent.func (callback_store st i))],
              st2)
        else
          (FiredCallback i (CallbackEvent.func (callback_store st i))
             :: fst (CallbackService_loop _MILLISECOND run k (i + 1)
                                          (uint8 (r - 1)) t st2),
           snd (CallbackService_loop _MILLISECOND run k (i + 1)
                                     (uint8 (r - 1)) t st2))
      else CallbackService_loop _MILLISECOND run k (i + 1) r t st
    else ([], st).
Proof.
  cbn [CallbackService_loop]. unfold callback_due.
  destruct (i <? event_count st); [| reflexivity].
  destruct (CallbackEvent.enabled (callback_store st i)
            && (t =? CallbackEvent.next_run_time (callback_store st i)));
    [| reflexivity].
  cbv zeta. cbn [callback_store set_callback]. unfold upd.
  rewrite Z.eqb_refl. cbn [CallbackEvent.func CallbackEvent.set_next_run_time].
  destruct (uint8 (r - 1) =? 0); [reflexivity |].
  unfold rescheduled.
  destruct (CallbackService_loop _ _ _ _ _ _ _). reflexivity.
Qed.

(** [event_count] is a [uint8_t], so [i < event_count] fails before
    [i] has been incremented 256 times: a larger bound changes nothing. *)
Lemma CallbackService_loop_enough (k : nat) :
  forall i r t st,
    event_count st < 2 ^ 8 -> 2 ^ 8 <= i + Z.of_nat k ->
    CallbackService_loop _MILLISECOND run (S k) i r t st
    = CallbackService_loop _MILLISECOND run k i r t st.
Proof.
  induction k as [| k IH]; intros i r t st Hec Hk.
  - cbn [CallbackService_loop].
    destruct (Z.ltb_spec i (event_count st)); [lia | reflexivity].
  - rewrite (CallbackService_loop_step (S k) i r t st),
      (CallbackService_loop_step k i r t st).
    destruct (i <? event_count st); [| reflexivity].
    destruct (callback_due st t i).
    + cbv zeta. destruct (uint8 (r - 1) =? 0); [reflexivity |].
      rewrite IH by (try apply run_uint8; lia). reflexivity.
    + apply IH; [exact Hec | lia].
Qed.

Lemma CallbackMode_loop_step (k : nat) (i f : Z) (mode : ScheduleMode)
      (st : State) :
  CallbackMode_loop _MILLISECOND (S k) i f mode st
  = if i <? event_count st then
      if f =? CallbackEvent.func (callback_store st i) then
        CallbackMode_loop _MILLISECOND 1 i f mode st
      else CallbackMode_loop _MILLISECOND k (i + 1) f mode st
    else st.
Proof.
  cbn [CallbackMode_loop].
  destruct (i <? event_count st); [| reflexivity].
  destruct (f =? CallbackEvent.func (callback_store st i)); reflexivity.
Qed.

Lemma CallbackMode_loop_enough (k : nat) :
  forall i f mode st,
    event_count st < 2 ^ 8 -> 2 ^ 8 <= i + Z.of_nat k ->
    CallbackMode_loop _MILLISECOND (S k) i f mode st
    = CallbackMode_loop _MILLISECOND k i f mode st.
Proof.
  induction k as [| k IH]; intros i f mode st Hec Hk.
  - cbn [CallbackMode_loop].
    destruct (Z.ltb_spec i (event_count st)); [lia | reflexivity].
  - rewrite (CallbackMode_loop_step (S k) i f mode st),
      (CallbackMode_loop_step k i f mode st).
    destruct (i <? event_count st); [| reflexivity].
    destruct (f =? CallbackEvent.func (callback_store st i));
      [reflexivity |].
    apply IH; [exact Hec | lia].
Qed.

End LoopBounds.

(** ** Registration of callbacks *)

(** What [CallbackRegister] stores, and when it refuses. *)
Lemma CallbackRegister_status
      (MAX_CALLBACK_CNT _MILLISECOND sizeof_CallbackEvent sizeof_CallbackFn
         f p : Z) (st : State) :
  fst (CallbackRegister MAX_CALLBACK_CNT _MILLISECOND sizeof_CallbackEvent
                        sizeof_CallbackFn f p st) = FAILURE
  <-> callback_limit MAX_CALLBACK_CNT sizeof_CallbackEvent sizeof_CallbackFn
      <= event_count st.
Proof.
  unfold CallbackRegister.
  destruct (Z.ltb_spec (event_count st)
              (callback_limit MAX_CALLBACK_CNT sizeof_CallbackEvent
                              sizeof_CallbackFn)); cbn [fst].
  - split; [discriminate | lia].
  - split; [intros _; assumption | reflexivity].
Qed.

(** A [CallbackEvent] holds a [CallbackFn], two [uint32_t] and a flag,
    so it is at least nine bytes larger than a [CallbackFn]; dividing the
    size of the array by the size of a [CallbackFn] then gives more than
    the number of its cells. *)
Lemma callback_limit_exceeds (cap size_event size_fn : Z) :
  0 < size_fn -> size_fn + 9 <= size_event -> size_fn <= 9 * cap ->
  cap < callback_limit cap size_event size_fn.
Proof.
  intros Hfn Hev Hcap. unfold callback_limit.
  assert (cap + 1 <= cap * size_event / size_fn); [| lia].
  apply Z.div_le_lower_bound; [exact Hfn | nia].
Qed.

(** An accepted registration writes one whole entry at index
    [event_count] and counts it; the clock, the other entries and the
    callout table stay. *)
Lemma CallbackRegister_stores
      (MAX_CALLBACK_CNT _MILLISECOND sizeof_CallbackEvent sizeof_CallbackFn
         f p : Z) (st : State) :
  event_count st
  < callback_limit MAX_CALLBACK_CNT sizeof_CallbackEvent sizeof_CallbackFn ->
  let r := CallbackRegister MAX_CALLBACK_CNT _MILLISECOND
                            sizeof_CallbackEvent sizeof_CallbackFn f p st in
  fst r = SUCCESS
  /\ event_count (snd r) = uint8 (event_count st + 1)
  /\ callback_store (snd r) (event_count st)
     = CallbackEvent.mk false f (uint32 (p - 1))
                        (uint32 (now st + uint32 (p * _MILLISECOND)))
  /\ (forall j, j <> event_count st ->
                callback_store (snd r) j = callback_store st j)
  /\ now (snd r) = now st
  /\ callout_map (snd r) = callout_map st
  /\ callout_store (snd r) = callout_store st.
Proof.
  intros Hlt. cbv zeta. unfold CallbackRegister.
  destruct (Z.ltb_spec (event_count st)
              (callback_limit MAX_CALLBACK_CNT sizeof_CallbackEvent
                              sizeof_CallbackFn)); [| lia].
  cbn. unfold upd. rewrite Z.eqb_refl. repeat split.
  intros j Hj. destruct (Z.eqb_spec j (event_count st)); [lia | reflexivity].
Qed.

(** With [MAX_CALLBACK_CNT] entries in the table, [CallbackRegister]
    still accepts: the bound it checks is larger than the array. *)
Lemma CallbackRegister_accepts_when_full
      (MAX_CALLBACK_CNT _MILLISECOND sizeof_CallbackEvent sizeof_CallbackFn
         f p : Z) (st : State) :
  0 < sizeof_CallbackFn ->
  sizeof_CallbackFn + 9 <= sizeof_CallbackEvent ->
  sizeof_CallbackFn <= 9 * MAX_CALLBACK_CNT ->
  event_count st = MAX_CALLBACK_CNT ->
  fst (CallbackRegister MAX_CALLBACK_CNT _MILLISECOND sizeof_CallbackEvent
                        sizeof_CallbackFn f p st) = SUCCESS.
Proof.
  intros Hfn Hev Hcap Hec.
  pose proof (callback_limit_exceeds _ _ _ Hfn Hev Hcap) as Hlim.
  apply CallbackRegister_stores. lia.
Qed.

(** ** Switching a callback on and off *)

Lemma CallbackMode_loop_spec (_MILLISECOND : Z) (k : nat) :
  forall i f mode st,
    let st' := CallbackMode_loop _MILLISECOND k i f mode st in
    now st' = now st
    /\ event_count st' = event_count st
    /\ callout_map st' = callout_map st
    /\ callout_store st' = callout_store st
    /\ match first_registered k i f st with
       | None => callback_store st' = callback_store st
       | Some j =>
           forall j',
             callback_store st' j'
             = if j' =? j then
                 let e := callback_store st j in
                 CallbackEvent.mk
                   (mode_flag mode)
                   (CallbackEvent.func e)
                   (CallbackEvent.run_time e)
                   (if mode_flag mode
                    then uint32 (now st
                                 + uint32 (CallbackEvent.run_time e
                                           * _MILLISECOND))
                    else CallbackEvent.next_run_time e)
               else callback_store st j'
       end.
Proof.
  induction k as [| k IH]; intros i f mode st; cbv zeta;
    cbn [CallbackMode_loop first_registered].
  - repeat split.
  - destruct (i <? event_count st); [| repeat split].
    destruct (f =? CallbackEvent.func (callback_store st i)).
    + destruct (mode_flag mode); cbn; repeat split;
        intros j'; unfold upd; rewrite ?Z.eqb_refl;
        destruct (j' =? i); reflexivity.
    + apply IH.
Qed.

Lemma first_registered_some (k : nat) :
  forall i f st j,
    first_registered k i f st = Some j ->
    i <= j < event_count st
    /\ CallbackEvent.func (callback_store st j) = f
    /\ forall j', i <= j' < j ->
                  CallbackEvent.func (callback_store st j') <> f.
Proof.
  induction k as [| k IH]; intros i f st j H; cbn [first_registered] in H.
  - discriminate.
  - destruct (Z.ltb_spec i (event_count st)); [| discriminate].
    destruct (Z.eqb_spec f (CallbackEvent.func (callback_store st i)))
      as [He | Hn].
    + injection H as <-. repeat split; try lia; congruence.
    + destruct (IH _ _ _ _ H) as (Hr & Hj & Hlow).
      repeat split; try lia; try assumption.
      intros j' Hj'. destruct (Z.eq_dec j' i) as [-> | Hne];
        [congruence | apply Hlow; lia].
Qed.

(** ** C1: the period of a callback *)

(** C1.  [CallbackRegister] stores [run_time - 1] as the period of the
    new entry, while it computes the first [next_run_time] with the full
    [run_time]; [CallbackMode] and [CallbackService] schedule with the
    stored value.  With a registered period of 10, enabled at tick 0, the
    callback fires at ticks 9, 18 and 27, where the specification has 10,
    20 and 30. *)
Theorem C1_callback_period_one_short :
  (forall (MAX_CALLBACK_CNT _MILLISECOND sizeof_CallbackEvent
             sizeof_CallbackFn f p : Z) (st : State),
      let r := CallbackRegister MAX_CALLBACK_CNT _MILLISECOND
                                sizeof_CallbackEvent sizeof_CallbackFn
                                f p st in
      fst r = FAILURE
      \/ (CallbackEvent.run_time (callback_store (snd r) (event_count st))
          = uint32 (p - 1)
          /\ CallbackEvent.next_run_time
               (callback_store (snd r) (event_count st))
             = uint32 (now st + uint32 (p * _MILLISECOND))))
  /\ fst PeriodCase.registered = SUCCESS
  /\ CallbackEvent.next_run_time
       (callback_store (snd PeriodCase.registered) 0) = 10
  /\ CallbackEvent.run_time
       (callback_store (snd PeriodCase.registered) 0) = 9
  /\ now PeriodCase.enabled = 0
  /\ CallbackEvent.enabled (callback_store PeriodCase.enabled 0) = true
  /\ CallbackEvent.next_run_time (callback_store PeriodCase.enabled 0) = 9
  /\ firing_ticks (callback_of Demo.A) 0 (fst PeriodCase.run30)
     = [9; 18; 27].
Proof.
  split.
  - intros MAX M SE SF f p st. cbv zeta.
    destruct (Z.lt_ge_cases (event_count st) (callback_limit MAX SE SF))
      as [Hlt | Hge].
    + right.
      destruct (CallbackRegister_stores MAX M SE SF f p st Hlt)
        as (_ & _ & Hs & _).
      rewrite Hs. split; reflexivity.
    + left. apply CallbackRegister_status. exact Hge.
  - vm_compute. repeat split; reflexivity.
Qed.

(** ** C2: capacity *)

(** C2.  The bound that [CallbackRegister] checks is the size of the
    array divided by the size of a function pointer, not the number of
    its cells.  With [callback_store] declared with two cells this bound
    is 12: the third registration is accepted and written at index 2,
    past the array.  [CalloutRegister], with the same capacity, refuses
    the third and changes nothing. *)
Theorem C2_callback_capacity_overrun :
  (forall (MAX_CALLBACK_CNT _MILLISECOND sizeof_CallbackEvent
             sizeof_CallbackFn f p : Z) (st : State),
      fst (CallbackRegister MAX_CALLBACK_CNT _MILLISECOND
                            sizeof_CallbackEvent sizeof_CallbackFn f p st)
      = if event_count st
           <? (MAX_CALLBACK_CNT * sizeof_CallbackEvent) / sizeof_CallbackFn
        then SUCCESS else FAILURE)
  /\ Demo.MAX_CALLBACK_CNT = 2
  /\ callback_limit Demo.MAX_CALLBACK_CNT Demo.sizeof_CallbackEvent
                    Demo.sizeof_CallbackFn = 12
  /\ fst CapacityCase.cb1 = SUCCESS
  /\ fst CapacityCase.cb2 = SUCCESS
  /\ event_count (snd CapacityCase.cb2) = Demo.MAX_CALLBACK_CNT
  /\ fst CapacityCase.cb3 = SUCCESS
  /\ event_count (snd CapacityCase.cb3) = 3
  /\ CallbackEvent.func (callback_store (snd CapacityCase.cb3) 2) = Demo.C
  /\ fst CapacityCase.co1 = SUCCESS
  /\ fst CapacityCase.co2 = SUCCESS
  /\ fst CapacityCase.co3 = FAILURE
  /\ callout_map (snd CapacityCase.co3) = callout_map (snd CapacityCase.co2).
Proof.
  split.
  - intros MAX M SE SF f p st. unfold CallbackRegister, callback_limit.
    destruct (event_count st <? MAX * SE / SF); reflexivity.
  - vm_compute. repeat split; reflexivity.
Qed.

(** ** C3: a callout fires once, at its time *)

(** C3.  A callout that is due can be passed over.  [CalloutService]
    counts the occupied slots once, before its loop, and leaves when it
    has called that many handlers; a callout that a handler schedules
    during the pass and that is due at once is called against that count.
    With three slots, [A] and [X] are scheduled at tick 0 with delay 2 and
    sit in slots 0 and 2, and slot 1 is vacant again after tick 1.  The
    handler of [A] schedules [C] with delay 0, which takes slot 1.  The
    pass of tick 2 counts two occupied slots, calls [A] and [C] and
    leaves: [X], in an occupied slot with time 2, is not called at tick 2,
    nor in the ten ticks after it, and its slot stays occupied.
    Second, the slot is cleared after the call whatever the handler did:
    [R] cancels itself and schedules itself again for tick 6, the
    registration returns [SUCCESS] and takes slot 0, the pass then clears
    the bit of slot 0, and [R] is not called again. *)
Theorem C3_due_callout_passed_over :
  (fst StaleCount.reg_X = SUCCESS
   /\ now (snd StaleCount.reg_X) = 0
   /\ occupied (callout_map (snd StaleCount.reg_X)) 2 = true
   /\ callout_store (snd StaleCount.reg_X) 2 = CalloutEvent.mk StaleCount.X 2
   /\ fst StaleCount.to_1 = [[FiredCallout 1 Demo.B]]
   /\ callout_map StaleCount.before_pass = 5
   /\ get_callout_map_size StaleCount.before_pass = 2
   /\ callout_due StaleCount.before_pass 2 0 = true
   /\ callout_due StaleCount.before_pass 2 2 = true
   /\ fst (CalloutService 3 StaleCount.run 2 StaleCount.before_pass)
      = [FiredCallout 0 Demo.A; FiredCallout 1 Demo.C]
   /\ fst StaleCount.to_2
      = [[FiredCallout 1 Demo.B];
         [FiredCallout 0 Demo.A; FiredCallout 1 Demo.C]]
   /\ now (snd StaleCount.to_2) = 2
   /\ occupied (callout_map (snd StaleCount.to_2)) 2 = true
   /\ callout_store (snd StaleCount.to_2) 2 = CalloutEvent.mk StaleCount.X 2
   /\ firing_ticks (callout_of StaleCount.X) 0
        (fst StaleCount.to_2 ++ fst StaleCount.later) = []
   /\ occupied (callout_map (snd StaleCount.later)) 2 = true)
  /\ (fst Rearm.reg_R = SUCCESS
      /\ callout_store (snd Rearm.reg_R) 0 = CalloutEvent.mk Rearm.R 1
      /\ fst Rearm.rearm = SUCCESS
      /\ now (snd Rearm.rearm) = 1
      /\ occupied (callout_map (snd Rearm.rearm)) 0 = true
      /\ callout_store (snd Rearm.rearm) 0 = CalloutEvent.mk Rearm.R 6
      /\ fst Rearm.pass = [FiredCallout 0 Rearm.R]
      /\ callout_map (snd Rearm.pass) = 0
      /\ callout_store (snd Rearm.pass) 0 = CalloutEvent.mk Rearm.R 6
      /\ firing_ticks (callout_of Rearm.R) 1 (fst Rearm.later) = []).
Proof.
  split; vm_compute; repeat split; reflexivity.
Qed.

(** ** C4: cancelling *)

(** C4.  [CalloutCancel] clears the bit of the lowest slot whose stored
    handler is the given one, whether that slot is occupied or not.  Here
    [A] was scheduled twice.  The callout in slot 0 has fired at tick 1,
    and its handler pointer is still in the slot; the one in slot 1 is
    pending for tick 5.  [CalloutCancel] stops at slot 0, whose bit is
    clear already, and leaves slot 1 occupied: [A] fires at tick 5
    although it was cancelled. *)
Theorem C4_cancel_stops_at_stale_slot :
  (forall (MAX_CALLOUT_CNT f : Z) (st : State),
      CalloutCancel MAX_CALLOUT_CNT f st
      = match first_holding (Z.to_nat MAX_CALLOUT_CNT) 0 f
                            (callout_store st) with
        | Some j => set_callout_map st (vacate (callout_map st) j)
        | None => st
        end)
  /\ occupied (callout_map CancelCase.at_1) 0 = false
  /\ CalloutEvent.func (callout_store CancelCase.at_1 0) = Demo.A
  /\ occupied (callout_map CancelCase.at_1) 1 = true
  /\ CalloutEvent.func (callout_store CancelCase.at_1 1) = Demo.A
  /\ first_holding 2 0 Demo.A (callout_store CancelCase.at_1) = Some 0
  /\ callout_map CancelCase.cancelled = callout_map CancelCase.at_1
  /\ occupied (callout_map CancelCase.cancelled) 1 = true
  /\ firing_ticks (callout_of Demo.A) 1 (fst CancelCase.run6) = [5].
Proof.
  split.
  - intros MAX f st. apply CalloutCancel_loop_spec.
  - vm_compute. repeat split; reflexivity.
Qed.

(** ** C5: the early exit against the full scan *)

(** C5.  The counting loops do not return what a full scan returns.  The
    count is taken before the loop; when a called handler registers
    something that is due in the same pass, the loop has used up its
    count and leaves, while a full scan goes on: [B] scheduling [C] with
    delay 0, and [D] registering and enabling [E] with period 1.  With
    three slots the count runs out on the callout scheduled during the
    pass, and [X], pending and due since before the pass, is the one left
    out. *)
Theorem C5_early_exit_differs :
  fst (Demo.CalloutService Reentrant.run 1 Reentrant.one_due)
  = [FiredCallout 0 Demo.B]
  /\ fst (Demo.CalloutService_scan Reentrant.run 1 Reentrant.one_due)
     = [FiredCallout 0 Demo.B; FiredCallout 1 Demo.C]
  /\ fst (Demo.CallbackService Reentrant.run 4 Reentrant.one_callback)
     = [FiredCallback 0 Reentrant.D]
  /\ fst (Demo.CallbackService_scan Reentrant.run 4 Reentrant.one_callback)
     = [FiredCallback 0 Reentrant.D; FiredCallback 1 Reentrant.E]
  /\ Demo.CalloutService Reentrant.run 1 Reentrant.one_due
     <> Demo.CalloutService_scan Reentrant.run 1 Reentrant.one_due
  /\ Demo.CallbackService Reentrant.run 4 Reentrant.one_callback
     <> Demo.CallbackService_scan Reentrant.run 4 Reentrant.one_callback
  /\ callout_due StaleCount.before_pass 2 2 = true
  /\ fst (CalloutService 3 StaleCount.run 2 StaleCount.before_pass)
     = [FiredCallout 0 Demo.A; FiredCallout 1 Demo.C]
  /\ fst (CalloutService_scan 3 StaleCount.run 2 StaleCount.before_pass)
     = [FiredCallout 0 Demo.A; FiredCallout 1 Demo.C;
        FiredCallout 2 StaleCount.X]
  /\ callout_map (snd (CalloutService 3 StaleCount.run 2
                         StaleCount.before_pass)) = 4
  /\ callout_map (snd (CalloutService_scan 3 StaleCount.run 2
                         StaleCount.before_pass)) = 0.
Proof.
  assert (H1 : fst (Demo.CalloutService Reentrant.run 1 Reentrant.one_due)
               = [FiredCallout 0 Demo.B]) by (vm_compute; reflexivity).
  assert (H2 : fst (Demo.CalloutService_scan Reentrant.run 1
                                             Reentrant.one_due)
               = [FiredCallout 0 Demo.B; FiredCallout 1 Demo.C])
    by (vm_compute; reflexivity).
  assert (H3 : fst (Demo.CallbackService Reentrant.run 4
                                         Reentrant.one_callback)
               = [FiredCallback 0 Reentrant.D]) by (vm_compute; reflexivity).
  assert (H4 : fst (Demo.CallbackService_scan Reentrant.run 4
                                              Reentrant.one_callback)
               = [FiredCallback 0 Reentrant.D; FiredCallback 1 Reentrant.E])
    by (vm_compute; reflexivity).
  split; [exact H1 |]. split; [exact H2 |].
  split; [exact H3 |]. split; [exact H4 |].
  split; [intros Heq; rewrite Heq, H2 in H1; discriminate |].
  split; [intros Heq; rewrite Heq, H4 in H3; discriminate |].
  vm_compute. repeat split; reflexivity.
Qed.

(** ** C6: a slot re-claimed during the pass *)

Lemma sorted_count_le (l : list Z) :
  StronglySorted Z.lt l ->
  forall i, (count_occ Z.eq_dec l i <= 1)%nat.
Proof.
  intros Hs. apply (NoDup_count_occ Z.eq_dec).
  induction Hs as [| a l Hs IH Hall]; constructor.
  - intros Hin. rewrite Forall_forall in Hall. specialize (Hall _ Hin). lia.
  - exact IH.
Qed.

(** C6, counterexample.  [A] (slot 0) and [B] (slot 1) are due at tick
    1.  [A] fires and frees slot 0; [B] fires and its handler registers
    [C] with delay 0, which re-claims slot 0 with a time equal to the
    current tick.  The pass is over after slot 1: [C] is not fired in it
    (nor in the ten ticks after). *)
Lemma C6_reclaimed_slot_not_refired :
  fst Reentrant.pass = [FiredCallout 0 Demo.A; FiredCallout 1 Demo.B]
  /\ occupied (callout_map (snd Reentrant.pass)) 0 = true
  /\ callout_store (snd Reentrant.pass) 0
     = CalloutEvent.mk Demo.C (now (snd Reentrant.pass))
  /\ now (snd Reentrant.pass) = 1
  /\ count_occ Z.eq_dec (fired_callouts (fst Reentrant.pass)) 0 = 1%nat
  /\ ~ In (FiredCallout 0 Demo.C) (fst Reentrant.pass)
  /\ concat (fst Reentrant.later) = [].
Proof.
  vm_compute. repeat split; try reflexivity.
  intros [H | [H | []]]; discriminate.
Qed.

(** C6, amended.  A pass over the callouts fires slots in strictly
    ascending index order, whatever the fired handlers do; so every slot
    is serviced at most once in a pass, and a slot that fired earlier in
    the pass is not serviced again in it, also when a handler has
    re-claimed it with a time equal to the current tick. *)
Theorem C6_slot_fires_once_per_pass :
  forall (MAX_CALLOUT_CNT : Z) (run : Z -> State -> State)
         (t : Z) (st : State),
    let log := fst (CalloutService MAX_CALLOUT_CNT run t st) in
    StronglySorted Z.lt (fired_callouts log)
    /\ (forall i, (count_occ Z.eq_dec (fired_callouts log) i <= 1)%nat)
    /\ (forall l1 l2 i f,
           log = l1 ++ FiredCallout i f :: l2 ->
           forall j, In j (fired_callouts l2) -> i < j).
Proof.
  intros MAX run t st log.
  assert (Hs : StronglySorted Z.lt (fired_callouts log)).
  { unfold log, CalloutService.
    destruct (get_callout_map_size st =? 0); [constructor |].
    apply CalloutService_loop_ascending. }
  split; [exact Hs |]. split; [apply sorted_count_le; exact Hs |].
  intros l1 l2 i f Hlog j Hj. rewrite Hlog in Hs.
  rewrite fired_callouts_app in Hs. cbn [fired_callouts] in Hs.
  induction (fired_callouts l1) as [| a l IH]; cbn [app] in Hs.
  - apply StronglySorted_inv in Hs. destruct Hs as [_ Hall].
    rewrite Forall_forall in Hall. apply Hall. exact Hj.
  - apply StronglySorted_inv in Hs. apply IH. apply Hs.
Qed.

(** ** C7: enabling a callback again *)

(** C7.  [CallbackMode] touches the lowest entry whose handler is the
    given one and no other; it sets the flag, and when enabling it puts
    [next_run_time] at [now] plus the stored period, whatever it was
    before.  The stored period is one less than the registered one: the
    callback of period 10, disabled at tick 12 and enabled again at tick
    14, leaves its old schedule (18) and fires next at 23 and 32, where
    the specification has 24 and 34. *)
Theorem C7_reenable_one_short :
  (forall (_MILLISECOND f : Z) (mode : ScheduleMode) (st : State),
      let st' := CallbackMode _MILLISECOND f mode st in
      match first_registered 256 0 f st with
      | None => callback_store st' = callback_store st
      | Some j =>
          forall j',
            callback_store st' j'
            = if j' =? j then
                let e := callback_store st j in
                CallbackEvent.mk
                  (mode_flag mode)
                  (CallbackEvent.func e)
                  (CallbackEvent.run_time e)
                  (if mode_flag mode
                   then uint32 (now st
                                + uint32 (CallbackEvent.run_time e
                                          * _MILLISECOND))
                   else CallbackEvent.next_run_time e)
              else callback_store st j'
      end)
  /\ now ReenableCase.at_14 = 14
  /\ CallbackEvent.enabled (callback_store ReenableCase.at_14 0) = false
  /\ CallbackEvent.next_run_time (callback_store ReenableCase.at_14 0) = 18
  /\ CallbackEvent.run_time (callback_store ReenableCase.at_14 0) = 9
  /\ CallbackEvent.enabled (callback_store ReenableCase.on 0) = true
  /\ CallbackEvent.next_run_time (callback_store ReenableCase.on 0) = 23
  /\ firing_ticks (callback_of Demo.A) 14 (fst ReenableCase.run20)
     = [23; 32].
Proof.
  split.
  - intros M f mode st. cbv zeta. unfold CallbackMode.
    apply (CallbackMode_loop_spec M 256 0 f mode st).
  - vm_compute. repeat split; reflexivity.
Qed.

(** ** C8: the clock *)

(** C8.  Every interrupt adds one to the clock modulo 2^32 and does
    nothing else to it, so after [n] interrupts from reset [TimeNow]
    returns [n mod 2^32].  Handlers are taken not to write [now]. *)
Theorem C8_tick_counter_wraps :
  forall (MAX_CALLOUT_CNT _MILLISECOND : Z) (run : Z -> State -> State),
    (forall f s, now (run f s) = now s) ->
    (forall st,
        TimeNow (snd (ScheduleTimerOverflow MAX_CALLOUT_CNT _MILLISECOND
                                            run st))
        = (TimeNow st + 1) mod 2 ^ 32)
    /\ (forall n,
           TimeNow (snd (ticks MAX_CALLOUT_CNT _MILLISECOND run n init_state))
           = Z.of_nat n mod 2 ^ 32).
Proof.
  intros MAX M run Hnow. split.
  - intros st. apply ScheduleTimerOverflow_now. exact Hnow.
  - intros n. unfold TimeNow. rewrite ticks_now.
    + reflexivity.
    + exact Hnow.
    + cbn. lia.
Qed.

Lemma C8_tick_counter_wraps_witness :
  TimeNow (snd (Demo.ticks inert 7 init_state)) = 7 mod 2 ^ 32.
Proof.
  exact (proj2 (C8_tick_counter_wraps 2 1 inert (fun _ _ => eq_refl)) 7%nat).
Defined.

(** ** C9: the order within one interrupt *)

(** In a log made of callback firings followed by callout firings,
    whatever comes after a callout firing is a callout firing. *)
Lemma callouts_come_last (cbs cos : list Fired) :
  forallb is_callback cbs = true ->
  forallb is_callout cos = true ->
  forall l1 x rest,
    cbs ++ cos = l1 ++ x :: rest ->
    is_callout x = true ->
    forallb is_callout rest = true.
Proof.
  intros Hcb Hco. induction cbs as [| c cbs IH]; intros l1 x rest Heq Hx.
  - cbn [app] in Heq. rewrite Heq in Hco.
    rewrite forallb_app in Hco. cbn [forallb] in Hco.
    apply andb_true_iff in Hco. destruct Hco as [_ Hco].
    apply andb_true_iff in Hco. apply Hco.
  - cbn [forallb] in Hcb. apply andb_true_iff in Hcb.
    destruct Hcb as [Hc Hcbs]. destruct l1 as [| y l1]; cbn [app] in Heq.
    + injection Heq as <- _. unfold is_callout in Hx. rewrite Hc in Hx.
      discriminate.
    + injection Heq as _ Heq. exact (IH Hcbs l1 x rest Heq Hx).
Qed.

(** C9.  An interrupt advances the clock by one (modulo 2^32), then
    runs the callback pass, then the callout pass, both with the new
    clock value; its log is the callback firings followed by the callout
    firings, so no callback handler is called after a callout handler.
    When handlers leave the tables alone, a callback and a callout that
    are both due at the new clock value both fire, the callback first.
    Handlers are taken not to write [now]. *)
Theorem C9_tick_sequence :
  forall (MAX_CALLOUT_CNT _MILLISECOND : Z) (run : Z -> State -> State),
    (forall f s, now (run f s) = now s) ->
    forall st,
      let t := uint32 (now st + 1) in
      let cb := CallbackService _MILLISECOND run t (set_now st t) in
      let co := CalloutService MAX_CALLOUT_CNT run t (snd cb) in
      let tick := ScheduleTimerOverflow MAX_CALLOUT_CNT _MILLISECOND run st in
      tick = (fst cb ++ fst co, snd co)
      /\ forallb is_callback (fst cb) = true
      /\ forallb is_callout (fst co) = true
      /\ (forall l1 x l2 y l3,
             fst tick = l1 ++ x :: l2 ++ y :: l3 ->
             is_callout x = true -> is_callback y = false)
      /\ (0 <= MAX_CALLOUT_CNT <= 16 ->
          0 <= event_count st < 2 ^ 8 ->
          0 <= callout_map st < 2 ^ 16 ->
          (forall f s, event_count (run f s) = event_count s) ->
          (forall f s, callback_store (run f s) = callback_store s) ->
          (forall f s, callout_map (run f s) = callout_map s) ->
          (forall f s, callout_store (run f s) = callout_store s) ->
          forall i j,
            0 <= i < event_count st -> callback_due st t i = true ->
            0 <= j < MAX_CALLOUT_CNT -> callout_due st t j = true ->
            exists l1 l2 l3,
              fst tick
              = l1 ++ FiredCallback
                        i (CallbackEvent.func (callback_store st i))
                   :: l2 ++ FiredCallout
                              j (CalloutEvent.func (callout_store st j))
                   :: l3).
Proof.
  intros MAX M run Hnow st. cbv zeta.
  set (t := uint32 (now st + 1)).
  set (cb := CallbackService M run t (set_now st t)).
  set (co := CalloutService MAX run t (snd cb)).
  assert (Hnow_cb : now (snd cb) = t).
  { unfold cb. rewrite (CallbackService_frame _ _ now); auto. }
  assert (Hsteps : ScheduleTimerOverflow MAX M run st
                   = (fst cb ++ fst co, snd co)).
  { rewrite ScheduleTimerOverflow_steps.
    fold t. fold cb. rewrite Hnow_cb. reflexivity. }
  assert (Hcb : forallb is_callback (fst cb) = true)
    by apply CallbackService_log.
  assert (Hco : forallb is_callout (fst co) = true)
    by apply CalloutService_log.
  rewrite Hsteps. cbn [fst].
  split; [reflexivity |]. split; [exact Hcb |]. split; [exact Hco |].
  split.
  - intros l1 x l2 y l3 Heq Hx.
    pose proof (callouts_come_last _ _ Hcb Hco _ _ _ Heq Hx) as Hrest.
    rewrite forallb_app in Hrest. apply andb_true_iff in Hrest.
    destruct Hrest as [_ Hrest]. cbn [forallb] in Hrest.
    apply andb_true_iff in Hrest. destruct Hrest as [Hy _].
    unfold is_callout in Hy. destruct (is_callback y);
      [discriminate | reflexivity].
  - intros Hcap Hec Hm Hrec Hrcb Hrm Hrs i j Hi Hdi Hj Hdj.
    assert (Hin_cb : In (FiredCallback
                           i (CallbackEvent.func (callback_store st i)))
                        (fst cb)).
    { unfold cb. rewrite (CallbackService_is_scan M run Hrec) by exact Hec.
      unfold CallbackService_scan.
      destruct (CallbackService_scan_loop_spec M run Hrec Hrcb
                  256 0 t (set_now st t)) as (Hlog & _); [lia | cbn; lia |].
      rewrite Hlog. apply in_due_callbacks. cbn [event_count set_now].
      split; [lia |]. split; [exact Hdi | reflexivity]. }
    assert (Hmap_cb : callout_map (snd cb) = callout_map st).
    { unfold cb. rewrite (CallbackService_frame _ _ callout_map); auto. }
    assert (Hst_cb : callout_store (snd cb) = callout_store st).
    { unfold cb. rewrite (CallbackService_frame _ _ callout_store); auto. }
    assert (Hin_co : In (FiredCallout
                           j (CalloutEvent.func (callout_store st j)))
                        (fst co)).
    { unfold co. rewrite (CalloutService_is_scan run Hrm)
        by (rewrite Hmap_cb; exact Hm).
      unfold CalloutService_scan.
      destruct (CalloutService_scan_loop_spec run Hrm Hrs
                  (Z.to_nat MAX) 0 t (snd cb)) as (Hlog & _);
        [lia | rewrite Hmap_cb; exact Hm |].
      rewrite Hlog. apply in_due_callouts.
      split; [lia |]. unfold callout_due in *.
      rewrite Hmap_cb, Hst_cb. split; [exact Hdj | reflexivity]. }
    apply in_split in Hin_cb. destruct Hin_cb as (a1 & a2 & Ha).
    apply in_split in Hin_co. destruct Hin_co as (b1 & b2 & Hb).
    exists a1, (a2 ++ b1), b2. rewrite Ha, Hb.
    rewrite <- !app_assoc. cbn [app]. rewrite <- ?app_assoc. reflexivity.
Qed.

Lemma C9_tick_sequence_witness :
  exists l1 l2 l3,
    fst (Demo.ScheduleTimerOverflow inert SameTick.at_8)
    = l1 ++ FiredCallback 0 Demo.A :: l2 ++ FiredCallout 0 Demo.B :: l3.
Proof.
  exact (proj2 (proj2 (proj2 (proj2
           (C9_tick_sequence 2 1 inert (fun _ _ => eq_refl) SameTick.at_8))))
           ltac:(lia)
           ltac:(vm_compute; split; [discriminate | reflexivity])
           ltac:(vm_compute; split; [discriminate | reflexivity])
           (fun _ _ => eq_refl) (fun _ _ => eq_refl)
           (fun _ _ => eq_refl) (fun _ _ => eq_refl)
           0 0
           ltac:(vm_compute; split; [discriminate | reflexivity])
           ltac:(vm_compute; reflexivity)
           ltac:(lia)
           ltac:(vm_compute; reflexivity)).
Defined.

(** ** C10: what removing a callout touches *)

(** C10.  [CalloutCancel] and the firing of a callout in the service
    pass write [callout_map] and nothing else: the clock, the callback
    table and every cell of [callout_store] (handler pointer and time)
    are as before, and in the map only the bit of the removed slot
    changes.  For the pass this is its own effect, the handlers it calls
    being taken to do nothing.  So a vacant slot still holds the pointer
    of the callout that fired from it, or was cancelled in it: the last
    part shows both. *)
Theorem C10_callout_removal_frame :
  (forall (MAX_CALLOUT_CNT f : Z) (st : State),
      0 <= MAX_CALLOUT_CNT ->
      0 <= callout_map st < 2 ^ 16 ->
      let st' := CalloutCancel MAX_CALLOUT_CNT f st in
      now st' = now st
      /\ event_count st' = event_count st
      /\ callback_store st' = callback_store st
      /\ callout_store st' = callout_store st
      /\ match first_holding (Z.to_nat MAX_CALLOUT_CNT) 0 f
                             (callout_store st) with
         | None => callout_map st' = callout_map st
         | Some i =>
             0 <= i < MAX_CALLOUT_CNT
             /\ forall j, 0 <= j ->
                  Z.testbit (callout_map st') j
                  = Z.testbit (callout_map st) j && negb (j =? i)
         end)
  /\ (forall (MAX_CALLOUT_CNT : Z) (run : Z -> State -> State)
             (t : Z) (st : State),
         0 <= MAX_CALLOUT_CNT <= 16 ->
         0 <= callout_map st < 2 ^ 16 ->
         (forall f s, run f s = s) ->
         let r := CalloutService MAX_CALLOUT_CNT run t st in
         now (snd r) = now st
         /\ event_count (snd r) = event_count st
         /\ callback_store (snd r) = callback_store st
         /\ callout_store (snd r) = callout_store st
         /\ (forall j, 0 <= j -> In j (fired_callouts (fst r)) ->
                       Z.testbit (callout_map st) j = true
                       /\ Z.testbit (callout_map (snd r)) j = false)
         /\ (forall j, 0 <= j -> ~ In j (fired_callouts (fst r)) ->
                       Z.testbit (callout_map (snd r)) j
                       = Z.testbit (callout_map st) j))
  /\ (occupied (callout_map CancelCase.at_1) 0 = false
      /\ callout_store CancelCase.at_1 0 = CalloutEvent.mk Demo.A 1
      /\ occupied
           (callout_map (Demo.CalloutCancel Demo.B (snd Scenario.reg_B))) 1
         = false
      /\ callout_store (Demo.CalloutCancel Demo.B (snd Scenario.reg_B)) 1
         = CalloutEvent.mk Demo.B 3).
Proof.
  split; [| split].
  - intros MAX f st Hcap Hm. cbv zeta. unfold CalloutCancel.
    rewrite CalloutCancel_loop_spec.
    destruct (first_holding (Z.to_nat MAX) 0 f (callout_store st))
      as [i |] eqn:Hfh.
    + destruct (first_holding_some _ _ _ _ _ Hfh) as (Hi & _ & _).
      cbn. repeat split; try lia.
      intros j Hj. rewrite testbit_vacate by lia.
      destruct (Z.ltb_spec j 16); cbn [andb]; [reflexivity |].
      rewrite testbit_high by assumption. reflexivity.
    + repeat split.
  - intros MAX run t st Hcap Hm Hrun. cbv zeta.
    assert (Hrm : forall f s, callout_map (run f s) = callout_map s)
      by (intros; rewrite Hrun; reflexivity).
    assert (Hrs : forall f s, callout_store (run f s) = callout_store s)
      by (intros; rewrite Hrun; reflexivity).
    split; [apply (CalloutService_frame _ _ now);
            intros; rewrite ?Hrun; reflexivity |].
    split; [apply (CalloutService_frame _ _ event_count);
            intros; rewrite ?Hrun; reflexivity |].
    split; [apply (CalloutService_frame _ _ callback_store);
            intros; rewrite ?Hrun; reflexivity |].
    rewrite (CalloutService_is_scan run Hrm) by exact Hm.
    unfold CalloutService_scan.
    destruct (CalloutService_scan_loop_spec run Hrm Hrs
                (Z.to_nat MAX) 0 t st) as (Hlog & Hs & _ & Hb);
      [lia | exact Hm |].
    split; [exact Hs |].
    assert (Hin : forall j,
               In j (fired_callouts
                       (fst (CalloutService_scan_loop run (Z.to_nat MAX)
                                                      0 t st)))
               <-> (0 <=? j) && (j <? 0 + Z.of_nat (Z.to_nat MAX))
                   && callout_due st t j = true).
    { intros j. rewrite Hlog, (count_occ_In Z.eq_dec), count_due_callouts.
      destruct ((0 <=? j) && (j <? 0 + Z.of_nat (Z.to_nat MAX))
                && callout_due st t j); split; (lia || discriminate || auto). }
    split.
    + intros j Hj Hfired. apply Hin in Hfired.
      rewrite Hb, Hfired by exact Hj. split; [| apply andb_false_r].
      apply andb_true_iff in Hfired. destruct Hfired as [_ Hdue].
      unfold callout_due in Hdue. apply andb_true_iff in Hdue.
      rewrite <- occupied_testbit by exact Hj. apply Hdue.
    + intros j Hj Hquiet. rewrite Hb by exact Hj.
      destruct ((0 <=? j) && (j <? 0 + Z.of_nat (Z.to_nat MAX))
                && callout_due st t j) eqn:Hc.
      * exfalso. apply Hquiet. apply Hin. exact Hc.
      * apply andb_true_r.
  - vm_compute. repeat split; reflexivity.
Qed.

Lemma C10_callout_removal_frame_witness :
  callout_store (CalloutCancel 2 Demo.B (snd Scenario.reg_B))
  = callout_store (snd Scenario.reg_B)
  /\ callout_store
       (snd (CalloutService 2 inert 3 (set_now (snd Scenario.reg_B) 3)))
     = callout_store (set_now (snd Scenario.reg_B) 3).
Proof.
  split.
  - destruct (proj1 C10_callout_removal_frame 2 Demo.B (snd Scenario.reg_B)
                ltac:(lia)
                ltac:(vm_compute; split; [discriminate | reflexivity]))
      as (_ & _ & _ & H & _).
    exact H.
  - destruct (proj1 (proj2 C10_callout_removal_frame) 2 inert 3
                (set_now (snd Scenario.reg_B) 3)
                ltac:(lia)
                ltac:(vm_compute; split; [discriminate | reflexivity])
                (fun _ _ => eq_refl))
      as (_ & _ & _ & H & _).
    exact H.
Defined.

(** * Further properties of the code *)

(** ** The size of the map *)

Lemma count_from_slots (k : nat) :
  forall i m,
    0 <= i ->
    count_from k i m = Z.of_nat (length (filter (occupied m) (slots k i))).
Proof.
  induction k as [| k IH]; intros i m Hi; cbn [count_from slots filter].
  - reflexivity.
  - rewrite IH by lia. rewrite occupied_testbit by exact Hi.
    destruct (Z.testbit m i); cbn [Z.b2z length]; lia.
Qed.

(** X1.  On any value of a [uint16_t] map, [get_callout_map_size]
    returns the number of occupied slots among the sixteen; it is
    between 0 and 16, and it is 0 only for the empty map. *)
Theorem X1_map_size_counts_occupied :
  forall st : State,
    0 <= callout_map st < 2 ^ 16 ->
    get_callout_map_size st
    = Z.of_nat (length (filter (occupied (callout_map st)) (slots 16 0)))
    /\ 0 <= get_callout_map_size st <= 16
    /\ (get_callout_map_size st = 0 <-> callout_map st = 0).
Proof.
  intros st Hm. rewrite get_callout_map_size_spec by exact Hm.
  pose proof (count_from_nonneg 16 0 (callout_map st)) as Hnn.
  pose proof (count_from_le 16 0 (callout_map st)) as Hle.
  change (Z.of_nat 16) with 16 in Hle.
  split; [apply count_from_slots; lia |]. split; [lia |]. split.
  - intros Hz. apply Z.bits_inj'. intros j Hj. rewrite Z.bits_0.
    apply map_empty_of_count; assumption.
  - intros ->. reflexivity.
Qed.

Lemma X1_map_size_counts_occupied_witness :
  get_callout_map_size (snd Scenario.reg_B)
  = Z.of_nat (length (filter (occupied (callout_map (snd Scenario.reg_B)))
                             (slots 16 0))).
Proof.
  exact (proj1 (X1_map_size_counts_occupied (snd Scenario.reg_B)
                  ltac:(vm_compute; split; [discriminate | reflexivity]))).
Defined.

(** ** A tick on which nothing is due *)

Section Idle.

Variable MAX_CALLOUT_CNT : Z.
Variable _MILLISECOND : Z.
Variable run : Z -> State -> State.

Lemma CallbackService_loop_idle (k : nat) :
  forall i r t st,
    (forall j, i <= j < event_count st -> callback_due st t j = false) ->
    CallbackService_loop _MILLISECOND run k i r t st = ([], st).
Proof.
  induction k as [| k IH]; intros i r t st Hidle.
  - reflexivity.
  - rewrite CallbackService_loop_step.
    destruct (Z.ltb_spec i (event_count st)) as [Hlt | Hge];
      [| reflexivity].
    rewrite (Hidle i) by lia. apply IH. intros j Hj. apply Hidle. lia.
Qed.

Lemma CalloutService_loop_idle (k : nat) :
  forall i r t st,
    (forall j, i <= j < i + Z.of_nat k -> callout_due st t j = false) ->
    CalloutService_loop run k i r t st = ([], st).
Proof.
  induction k as [| k IH]; intros i r t st Hidle.
  - reflexivity.
  - cbn [CalloutService_loop]. fold (callout_due st t i).
    rewrite (Hidle i) by lia. apply IH. intros j Hj. apply Hidle. lia.
Qed.

End Idle.

(** X2.  When no enabled callback has the new clock value as its
    [next_run_time] and no occupied slot has it as its [run_time], the
    interrupt calls no handler and changes nothing but the clock. *)
Theorem X2_idle_tick_only_advances_clock :
  forall (MAX_CALLOUT_CNT _MILLISECOND : Z) (run : Z -> State -> State)
         (st : State),
    0 <= MAX_CALLOUT_CNT ->
    (forall j, 0 <= j < event_count st ->
               callback_due st (uint32 (now st + 1)) j = false) ->
    (forall j, 0 <= j < MAX_CALLOUT_CNT ->
               callout_due st (uint32 (now st + 1)) j = false) ->
    ScheduleTimerOverflow MAX_CALLOUT_CNT _MILLISECOND run st
    = ([], set_now st (uint32 (now st + 1))).
Proof.
  intros MAX M run st Hmax Hcb Hco.
  set (t := uint32 (now st + 1)) in *.
  assert (H1 : CallbackService M run t (set_now st t)
               = ([], set_now st t)).
  { unfold CallbackService.
    destruct (event_count (set_now st t) =? 0); [reflexivity |].
    apply CallbackService_loop_idle. exact Hcb. }
  assert (H2 : CalloutService MAX run t (set_now st t)
               = ([], set_now st t)).
  { unfold CalloutService.
    destruct (get_callout_map_size (set_now st t) =? 0); [reflexivity |].
    apply CalloutService_loop_idle. intros j Hj. apply Hco. lia. }
  unfold ScheduleTimerOverflow. fold t.
  change (now (set_now st t)) with t. rewrite H1.
  change (now (set_now st t)) with t. rewrite H2. reflexivity.
Qed.

Lemma X2_idle_tick_only_advances_clock_witness :
  ScheduleTimerOverflow 2 1 inert (snd Scenario.reg_B)
  = ([], set_now (snd Scenario.reg_B)
                 (uint32 (now (snd Scenario.reg_B) + 1))).
Proof.
  apply (X2_idle_tick_only_advances_clock 2 1 inert (snd Scenario.reg_B)).
  - lia.
  - intros j Hj. change (event_count (snd Scenario.reg_B)) with 0 in Hj. lia.
  - intros j Hj. assert (Hc : j = 0 \/ j = 1) by lia.
    destruct Hc as [-> | ->]; reflexivity.
Defined.

(** ** Handlers that are not in a table *)

Lemma CallbackMode_loop_absent (_MILLISECOND : Z) (k : nat) :
  forall i f mode st,
    (forall j, i <= j < event_count st ->
               CallbackEvent.func (callback_store st j) <> f) ->
    CallbackMode_loop _MILLISECOND k i f mode st = st.
Proof.
  induction k as [| k IH]; intros i f mode st Habs.
  - reflexivity.
  - cbn [CallbackMode_loop].
    destruct (Z.ltb_spec i (event_count st)) as [Hlt | Hge];
      [| reflexivity].
    destruct (Z.eqb_spec f (CallbackEvent.func (callback_store st i)))
      as [He | Hn].
    + exfalso. apply (Habs i); [lia | congruence].
    + apply IH. intros j Hj. apply Habs. lia.
Qed.

(** X3.  [CallbackMode] for a handler that no registered entry has
    returns without writing anything, for either mode. *)
Theorem X3_mode_of_unregistered_handler :
  forall (_MILLISECOND f : Z) (mode : ScheduleMode) (st : State),
    (forall j, 0 <= j < event_count st ->
               CallbackEvent.func (callback_store st j) <> f) ->
    CallbackMode _MILLISECOND f mode st = st.
Proof.
  intros M f mode st Habs. unfold CallbackMode.
  apply CallbackMode_loop_absent. exact Habs.
Qed.

Lemma X3_mode_of_unregistered_handler_witness :
  CallbackMode 1 Demo.B ENABLED (snd PeriodCase.registered)
  = snd PeriodCase.registered.
Proof.
  apply (X3_mode_of_unregistered_handler 1 Demo.B ENABLED
                                          (snd PeriodCase.registered)).
  intros j Hj. change (event_count (snd PeriodCase.registered)) with 1 in Hj.
  assert (Hj0 : j = 0) by lia. rewrite Hj0. vm_compute. discriminate.
Defined.

(** ** The order of a callback pass *)

Section CallbackOrder.

Variable _MILLISECOND : Z.
Variable run : Z -> State -> State.

Lemma CallbackService_loop_ascending (k : nat) :
  forall i r t st,
    Forall (fun j => i <= j < i + Z.of_nat k)
           (fired_callbacks
              (fst (CallbackService_loop _MILLISECOND run k i r t st)))
    /\ StronglySorted Z.lt
         (fired_callbacks
            (fst (CallbackService_loop _MILLISECOND run k i r t st))).
Proof.
  induction k as [| k IH]; intros i r t st.
  - cbn. split; constructor.
  - rewrite CallbackService_loop_step.
    destruct (i <? event_count st); [| cbn; split; constructor].
    destruct (callback_due st t i).
    + cbv zeta. destruct (uint8 (r - 1) =? 0).
      * cbn [fst fired_callbacks]. split.
        -- constructor; [lia | constructor].
        -- constructor; constructor.
      * cbn [fst fired_callbacks].
        match goal with
        | |- context [CallbackService_loop ?m ?h k ?a ?b ?c ?d] =>
            destruct (IH a b c d) as [Hr Hs]
        end.
        split.
        -- constructor; [lia |].
           eapply Forall_impl; [| exact Hr]. cbv beta. intros; lia.
        -- constructor; [exact Hs |].
           eapply Forall_impl; [| exact Hr]. cbv beta. intros; lia.
    + destruct (IH (i + 1) r t st) as [Hr Hs]. split; [| exact Hs].
      eapply Forall_impl; [| exact Hr]. cbv beta. intros; lia.
Qed.

Lemma CallbackService_ascending (t : Z) (st : State) :
  Forall (fun j => 0 <= j < 256)
         (fired_callbacks (fst (CallbackService _MILLISECOND run t st)))
  /\ StronglySorted Z.lt
       (fired_callbacks (fst (CallbackService _MILLISECOND run t st))).
Proof.
  unfold CallbackService.
  destruct (event_count st =? 0); [cbn; split; constructor |].
  destruct (CallbackService_loop_ascending 256 0 (event_count st) t st)
    as [Hr Hs].
  split; [| exact Hs].
  eapply Forall_impl; [| exact Hr]. cbv beta. intros; lia.
Qed.

End CallbackOrder.

(** X4.  A callback pass calls entries in strictly ascending index
    order, that is in the order of their registration, and each entry at
    most once, whatever the handlers it calls do to the tables. *)
Theorem X4_callback_pass_in_registration_order :
  forall (_MILLISECOND : Z) (run : Z -> State -> State)
         (t : Z) (st : State),
    let log := fst (CallbackService _MILLISECOND run t st) in
    StronglySorted Z.lt (fired_callbacks log)
    /\ (forall i, (count_occ Z.eq_dec (fired_callbacks log) i <= 1)%nat)
    /\ Forall (fun j => 0 <= j < 256) (fired_callbacks log).
Proof.
  intros M run t st log.
  destruct (CallbackService_ascending M run t st) as [Hr Hs].
  split; [exact Hs |]. split; [apply sorted_count_le; exact Hs | exact Hr].
Qed.

(** ** Cancelling, and registering then cancelling *)

Lemma vacate_twice (m i : Z) : 0 <= i -> vacate (vacate m i) i = vacate m i.
Proof.
  intros Hi. apply Z.bits_inj'. intros j Hj.
  rewrite !testbit_vacate by assumption.
  destruct (j <? 16), (Z.testbit m j), (j =? i); reflexivity.
Qed.

Lemma vacate_claim (m i : Z) :
  0 <= m < 2 ^ 16 -> 0 <= i -> Z.testbit m i = false ->
  vacate (claim m i) i = m.
Proof.
  intros Hm Hi Hb. apply Z.bits_inj'. intros j Hj.
  rewrite testbit_vacate, testbit_claim by assumption.
  destruct (Z.ltb_spec j 16) as [Hlt | Hge]; cbn [andb].
  - destruct (Z.eqb_spec j i) as [-> | Hne].
    + rewrite Hb. reflexivity.
    + rewrite orb_false_r, andb_true_r. reflexivity.
  - symmetry. apply testbit_high; assumption.
Qed.

Lemma first_holding_found (k : nat) :
  forall a f store i,
    a <= i < a + Z.of_nat k ->
    CalloutEvent.func (store i) = f ->
    (forall j, a <= j < i -> CalloutEvent.func (store j) <> f) ->
    first_holding k a f store = Some i.
Proof.
  induction k as [| k IH]; intros a f store i Hi Hf Hlow;
    cbn [first_holding].
  - lia.
  - destruct (Z.eqb_spec (CalloutEvent.func (store a)) f) as [He | Hn].
    + destruct (Z.eq_dec a i) as [-> | Hne]; [reflexivity |].
      exfalso. apply (Hlow a); [lia | exact He].
    + destruct (Z.eq_dec a i) as [-> | Hne]; [contradiction |].
      apply IH; [lia | exact Hf |]. intros j Hj. apply Hlow. lia.
Qed.

(** X5.  [CalloutCancel] never vacates a slot whose stored handler is
    another one, so the pending callouts of other handlers stay; and
    cancelling the same handler a second time changes nothing more. *)
Theorem X5_cancel_spares_other_handlers :
  forall (MAX_CALLOUT_CNT f : Z) (st : State),
    0 <= MAX_CALLOUT_CNT ->
    0 <= callout_map st < 2 ^ 16 ->
    (forall j, 0 <= j ->
               CalloutEvent.func (callout_store st j) <> f ->
               occupied (callout_map (CalloutCancel MAX_CALLOUT_CNT f st)) j
               = occupied (callout_map st) j)
    /\ CalloutCancel MAX_CALLOUT_CNT f (CalloutCancel MAX_CALLOUT_CNT f st)
       = CalloutCancel MAX_CALLOUT_CNT f st.
Proof.
  intros MAX f st Hmax Hm. unfold CalloutCancel.
  rewrite (CalloutCancel_loop_spec _ 0 f st).
  destruct (first_holding (Z.to_nat MAX) 0 f (callout_store st))
    as [i |] eqn:Hfh.
  - destruct (first_holding_some _ _ _ _ _ Hfh) as (Hi & Hfi & _). split.
    + intros j Hj Hne. cbn [callout_map set_callout_map].
      rewrite !occupied_testbit, testbit_vacate by lia.
      destruct (Z.eqb_spec j i) as [-> | Hji]; [contradiction |].
      rewrite andb_true_r.
      destruct (Z.ltb_spec j 16); cbn [andb]; [reflexivity |].
      symmetry. apply testbit_high; assumption.
    + rewrite CalloutCancel_loop_spec.
      cbn [callout_store callout_map set_callout_map]. rewrite Hfh.
      unfold set_callout_map. cbn [now event_count callback_store].
      rewrite vacate_twice by lia. reflexivity.
  - split; [reflexivity |].
    rewrite CalloutCancel_loop_spec, Hfh. reflexivity.
Qed.

Lemma X5_cancel_spares_other_handlers_witness :
  CalloutCancel 2 Demo.B (CalloutCancel 2 Demo.B (snd Scenario.reg_B))
  = CalloutCancel 2 Demo.B (snd Scenario.reg_B).
Proof.
  exact (proj2 (X5_cancel_spares_other_handlers 2 Demo.B (snd Scenario.reg_B)
                  ltac:(lia)
                  ltac:(vm_compute; split; [discriminate | reflexivity]))).
Defined.

Lemma register_then_cancel_map
      (MAX_CALLOUT_CNT _MILLISECOND f d : Z) (st st' : State) :
  0 <= callout_map st < 2 ^ 16 ->
  (forall j, 0 <= j < MAX_CALLOUT_CNT ->
             CalloutEvent.func (callout_store st j) <> f) ->
  CalloutRegister MAX_CALLOUT_CNT _MILLISECOND f d st = (SUCCESS, st') ->
  callout_map (CalloutCancel MAX_CALLOUT_CNT f st') = callout_map st
  /\ now (CalloutCancel MAX_CALLOUT_CNT f st') = now st
  /\ event_count (CalloutCancel MAX_CALLOUT_CNT f st') = event_count st
  /\ callback_store (CalloutCancel MAX_CALLOUT_CNT f st')
     = callback_store st.
Proof.
  intros Hm Habs Hreg.
  destruct (CalloutRegister_success _ _ _ _ _ _ Hreg)
    as (i & Hi & Hfree & _ & ->).
  unfold CalloutCancel. rewrite CalloutCancel_loop_spec.
  cbn [callout_store set_callout set_callout_map].
  rewrite (first_holding_found (Z.to_nat MAX_CALLOUT_CNT) 0 f _ i).
  - cbn. repeat split. apply vacate_claim; try lia.
    rewrite <- occupied_testbit by lia. exact Hfree.
  - lia.
  - unfold upd. rewrite Z.eqb_refl. reflexivity.
  - intros j Hj. unfold upd. destruct (Z.eqb_spec j i); [lia |].
    apply Habs. lia.
Qed.

(** X6.  Registering a handler that no slot of the table holds and then
    cancelling it gives back the map as it was before the registration;
    the clock and the callback table are untouched throughout. *)
Theorem X6_register_then_cancel :
  forall (MAX_CALLOUT_CNT _MILLISECOND f d : Z) (st st' : State),
    0 <= callout_map st < 2 ^ 16 ->
    (forall j, 0 <= j < MAX_CALLOUT_CNT ->
               CalloutEvent.func (callout_store st j) <> f) ->
    CalloutRegister MAX_CALLOUT_CNT _MILLISECOND f d st = (SUCCESS, st') ->
    callout_map (CalloutCancel MAX_CALLOUT_CNT f st') = callout_map st
    /\ now (CalloutCancel MAX_CALLOUT_CNT f st') = now st
    /\ event_count (CalloutCancel MAX_CALLOUT_CNT f st') = event_count st
    /\ callback_store (CalloutCancel MAX_CALLOUT_CNT f st')
       = callback_store st.
Proof.
  intros MAX M f d st st'. apply register_then_cancel_map.
Qed.

Lemma X6_register_then_cancel_witness :
  callout_map (CalloutCancel 2 Demo.C
                 (snd (CalloutRegister 2 1 Demo.C 4 (snd Scenario.reg_A))))
  = callout_map (snd Scenario.reg_A).
Proof.
  apply (X6_register_then_cancel 2 1 Demo.C 4 (snd Scenario.reg_A)
           (snd (CalloutRegister 2 1 Demo.C 4 (snd Scenario.reg_A)))).
  - vm_compute. split; [discriminate | reflexivity].
  - intros j Hj. assert (Hc : j = 0 \/ j = 1) by lia.
    destruct Hc as [-> | ->]; vm_compute; discriminate.
  - reflexivity.
Defined.

(** ** How registration fills the callout table *)

Lemma count_from_claim (n : nat) :
  forall a m i,
    0 <= a -> a + Z.of_nat n <= 16 -> 0 <= i ->
    Z.testbit m i = false ->
    count_from n a (claim m i)
    = count_from n a m + (if (a <=? i) && (i <? a + Z.of_nat n) then 1 else 0).
Proof.
  induction n as [| n IH]; intros a m i Ha Hn Hi Hbit.
  - cbn [count_from]. replace (a + Z.of_nat 0) with a by lia.
    destruct (Z.leb_spec a i), (Z.ltb_spec i a); cbn [andb]; lia.
  - cbn [count_from]. rewrite IH by (assumption || lia).
    rewrite testbit_claim by lia.
    destruct (Z.ltb_spec a 16); [| lia]. cbn [andb].
    destruct (Z.eqb_spec a i) as [-> | Hne].
    + rewrite Hbit. cbn [orb Z.b2z].
      destruct (Z.leb_spec (i + 1) i), (Z.leb_spec i i),
        (Z.ltb_spec i (i + 1 + Z.of_nat n)),
        (Z.ltb_spec i (i + Z.of_nat (S n))); cbn [andb]; lia.
    + rewrite orb_false_r.
      destruct (Z.leb_spec (a + 1) i), (Z.leb_spec a i),
        (Z.ltb_spec i (a + 1 + Z.of_nat n)),
        (Z.ltb_spec i (a + Z.of_nat (S n))); cbn [andb]; lia.
Qed.

Lemma count_le_capacity (cap m : Z) :
  0 <= cap <= 16 -> 0 <= m < 2 ^ cap -> count_from 16 0 m <= cap.
Proof.
  intros Hcap Hm.
  replace 16%nat with (Z.to_nat cap + (16 - Z.to_nat cap))%nat by lia.
  rewrite count_from_app.
  rewrite (count_from_none _ (0 + Z.of_nat (Z.to_nat cap))).
  - pose proof (count_from_le (Z.to_nat cap) 0 m). lia.
  - intros j Hj. apply (testbit_above m cap); lia.
Qed.

Lemma claim_within (cap m i : Z) :
  0 <= cap <= 16 -> 0 <= m < 2 ^ cap -> 0 <= i < cap ->
  0 <= claim m i < 2 ^ cap.
Proof.
  intros Hcap Hm Hi. split; [apply uint16_range |].
  apply below_pow2_of_bits; try lia; [apply uint16_range |].
  intros j Hj. rewrite testbit_claim by lia.
  rewrite (testbit_above m cap) by lia.
  destruct (Z.eqb_spec j i); [lia |]. apply andb_false_r.
Qed.

Lemma vacate_within (cap m i : Z) :
  0 <= cap -> 0 <= m < 2 ^ cap -> 0 <= i -> 0 <= vacate m i < 2 ^ cap.
Proof.
  intros Hcap Hm Hi. split; [apply uint16_range |].
  apply below_pow2_of_bits; try lia; [apply uint16_range |].
  intros j Hj. rewrite testbit_vacate by lia.
  rewrite (testbit_above m cap) by lia. apply andb_false_r.
Qed.

(** X7.  On a map that uses only the slots below the capacity,
    [CalloutRegister] either succeeds, and then the size of the map has
    grown by exactly one from a value below the capacity, or fails, and
    then the size is the capacity and the state is returned as it was. *)
Theorem X7_register_grows_size_by_one :
  forall (MAX_CALLOUT_CNT _MILLISECOND f d : Z) (st : State),
    0 <= MAX_CALLOUT_CNT <= 16 ->
    0 <= callout_map st < 2 ^ MAX_CALLOUT_CNT ->
    let r := CalloutRegister MAX_CALLOUT_CNT _MILLISECOND f d st in
    (fst r = SUCCESS
     /\ get_callout_map_size st < MAX_CALLOUT_CNT
     /\ get_callout_map_size (snd r) = get_callout_map_size st + 1)
    \/ (fst r = FAILURE
        /\ get_callout_map_size st = MAX_CALLOUT_CNT
        /\ snd r = st).
Proof.
  intros MAX M f d st Hcap Hm. cbv zeta.
  pose proof (pow2_le_16 _ Hcap) as Hp.
  destruct (CalloutRegister MAX M f d st) as [s st'] eqn:Hreg.
  destruct s.
  - left. cbn [fst snd].
    destruct (CalloutRegister_success _ _ _ _ _ _ Hreg)
      as (i & Hi & Hfree & _ & ->).
    rewrite occupied_testbit in Hfree by lia.
    assert (Hgrow : get_callout_map_size
                      (set_callout
                         (set_callout_map st (claim (callout_map st) i)) i
                         (CalloutEvent.mk
                            f (uint32 (now st + uint32 (d * M)))))
                    = get_callout_map_size st + 1).
    { rewrite !get_callout_map_size_spec
        by (cbn; try apply uint16_range; lia).
      cbn [callout_map set_callout set_callout_map].
      rewrite (count_from_claim 16 0)
        by (try exact Hfree; change (Z.of_nat 16) with 16; lia).
      change (Z.of_nat 16) with 16.
      destruct (Z.leb_spec 0 i), (Z.ltb_spec i (0 + 16)); cbn [andb]; lia. }
    split; [reflexivity |]. split; [| exact Hgrow].
    pose proof (count_le_capacity MAX _ Hcap
                  (claim_within MAX _ i Hcap Hm Hi)) as Hle.
    rewrite get_callout_map_size_spec in Hgrow
      by (cbn; apply uint16_range).
    cbn [callout_map set_callout set_callout_map] in Hgrow. lia.
  - right. cbn [fst snd].
    assert (Hf : fst (CalloutRegister MAX M f d st) = FAILURE)
      by (rewrite Hreg; reflexivity).
    split; [reflexivity |]. split.
    + apply (CalloutRegister_full_iff MAX M Hcap f d st Hm). exact Hf.
    + pose proof (CalloutRegister_failure MAX M f d st Hf) as Hs.
      rewrite Hreg in Hs. exact Hs.
Qed.

Lemma X7_register_grows_size_by_one_witness :
  (fst Scenario.reg_B = SUCCESS
   /\ get_callout_map_size (snd Scenario.reg_A) < 2
   /\ get_callout_map_size (snd Scenario.reg_B)
      = get_callout_map_size (snd Scenario.reg_A) + 1)
  \/ (fst Scenario.reg_B = FAILURE
      /\ get_callout_map_size (snd Scenario.reg_A) = 2
      /\ snd Scenario.reg_B = snd Scenario.reg_A).
Proof.
  exact (X7_register_grows_size_by_one 2 1 Demo.B 3 (snd Scenario.reg_A)
           ltac:(lia)
           ltac:(vm_compute; split; [discriminate | reflexivity])).
Defined.

Lemma first_free_found (k : nat) :
  forall a map i,
    a <= i < a + Z.of_nat k ->
    occupied map i = false ->
    (forall j, a <= j < i -> occupied map j = true) ->
    first_free k a map = Some i.
Proof.
  induction k as [| k IH]; intros a map i Hi Hf Hlow; cbn [first_free].
  - lia.
  - destruct (Z.eq_dec a i) as [-> | Hne].
    + rewrite Hf. reflexivity.
    + rewrite (Hlow a) by lia. apply IH; [lia | exact Hf |].
      intros j Hj. apply Hlow. lia.
Qed.

Lemma ones_range (a : Z) : 0 <= a -> 0 <= Z.ones a < 2 ^ a.
Proof.
  intros Ha. rewrite Z.ones_equiv.
  pose proof (Z.pow_pos_nonneg 2 a ltac:(lia) Ha). lia.
Qed.

Lemma claim_ones (a : Z) : 0 <= a < 16 -> claim (Z.ones a) a = Z.ones (a + 1).
Proof.
  intros Ha. apply Z.bits_inj'. intros j Hj.
  rewrite testbit_claim, !Z.testbit_ones_nonneg by lia.
  destruct (Z.ltb_spec j 16), (Z.ltb_spec j a), (Z.eqb_spec j a),
    (Z.ltb_spec j (a + 1)); cbn [andb orb]; lia.
Qed.

Section Filling.

Variable MAX_CALLOUT_CNT : Z.
Variable _MILLISECOND : Z.

Hypothesis capacity : 0 <= MAX_CALLOUT_CNT <= 16.

(** Registration into a table whose slots below [a] are taken and whose
    other slots are vacant takes slot [a]. *)
Lemma CalloutRegister_next (a f d : Z) (st : State) :
  0 <= a < MAX_CALLOUT_CNT ->
  callout_map st = Z.ones a ->
  CalloutRegister MAX_CALLOUT_CNT _MILLISECOND f d st
  = (SUCCESS,
     set_callout (set_callout_map st (Z.ones (a + 1))) a
       (CalloutEvent.mk f (uint32 (now st + uint32 (d * _MILLISECOND))))).
Proof.
  intros Ha Hmap. unfold CalloutRegister.
  pose proof (ones_range a ltac:(lia)) as Hr.
  pose proof (pow2_le_16 a ltac:(lia)) as Hp.
  assert (Hsize : get_callout_map_size st = a).
  { rewrite get_callout_map_size_spec by (rewrite Hmap; lia).
    rewrite Hmap. apply (count_is_capacity a); [lia | exact Hr |].
    intros j Hj. apply Z.ones_spec_low. exact Hj. }
  rewrite Hsize. destruct (Z.eqb_spec a MAX_CALLOUT_CNT); [lia |].
  cbn [negb]. rewrite CalloutRegister_loop_spec, Hmap.
  rewrite (first_free_found _ 0 _ a).
  - rewrite claim_ones by lia. reflexivity.
  - lia.
  - rewrite occupied_testbit by lia. apply Z.ones_spec_high. lia.
  - intros j Hj. rewrite occupied_testbit by lia.
    apply Z.ones_spec_low. lia.
Qed.

Lemma CalloutRegister_all_fills (reqs : list (CalloutFn * Z)) :
  forall a st,
    0 <= a -> a + Z.of_nat (length reqs) <= MAX_CALLOUT_CNT ->
    callout_map st = Z.ones a ->
    let r := CalloutRegister_all MAX_CALLOUT_CNT _MILLISECOND reqs st in
    fst r = map (fun _ => SUCCESS) reqs
    /\ callout_map (snd r) = Z.ones (a + Z.of_nat (length reqs))
    /\ now (snd r) = now st
    /\ (forall j, 0 <= j < a -> callout_store (snd r) j = callout_store st j)
    /\ (forall k f d,
           nth_error reqs k = Some (f, d) ->
           callout_store (snd r) (a + Z.of_nat k)
           = CalloutEvent.mk f (uint32 (now st + uint32 (d * _MILLISECOND)))).
Proof.
  induction reqs as [| [f d] reqs IH]; intros a st Ha Hlen Hmap; cbv zeta.
  - cbn [CalloutRegister_all fst snd map length]. rewrite Z.add_0_r.
    repeat split; try assumption.
    intros k f d Hk. destruct k; discriminate.
  - cbn [CalloutRegister_all]. cbn [length] in Hlen.
    rewrite (CalloutRegister_next a f d st) by lia.
    set (st1 := set_callout _ a _).
    destruct (IH (a + 1) st1 ltac:(lia) ltac:(lia) eq_refl)
      as (Hs & Hm & Hn & Hlow & Hnew).
    destruct (CalloutRegister_all MAX_CALLOUT_CNT _MILLISECOND reqs st1)
      as [ss st2].
    cbn [fst snd map length] in *.
    split; [rewrite Hs; reflexivity |].
    split; [rewrite Hm; f_equal; lia |].
    split; [exact Hn |]. split.
    + intros j Hj. rewrite Hlow by lia. unfold st1. cbn. unfold upd.
      destruct (Z.eqb_spec j a); [lia | reflexivity].
    + intros k g e Hk. destruct k as [| k]; cbn [nth_error] in Hk.
      * injection Hk as <- <-. rewrite Z.add_0_r, Hlow by lia.
        unfold st1. cbn. unfold upd. rewrite Z.eqb_refl. reflexivity.
      * replace (a + Z.of_nat (S k)) with (a + 1 + Z.of_nat k) by lia.
        rewrite (Hnew k g e Hk). reflexivity.
Qed.

End Filling.

(** X8.  Starting from an empty map, a run of registrations that fits
    the capacity succeeds throughout and takes the slots in order: the
    request number [k] (from 0) is stored in slot [k] with the time of
    its registration plus its delay, and after [n] of them the map is
    [2^n - 1].  When the run fills the table, one more registration
    fails and returns the state as it is. *)
Theorem X8_registrations_fill_slots_in_order :
  forall (MAX_CALLOUT_CNT _MILLISECOND : Z) (reqs : list (CalloutFn * Z))
         (st : State),
    0 <= MAX_CALLOUT_CNT <= 16 ->
    callout_map st = 0 ->
    Z.of_nat (length reqs) <= MAX_CALLOUT_CNT ->
    let r := CalloutRegister_all MAX_CALLOUT_CNT _MILLISECOND reqs st in
    fst r = map (fun _ => SUCCESS) reqs
    /\ callout_map (snd r) = 2 ^ Z.of_nat (length reqs) - 1
    /\ (forall k f d,
           nth_error reqs k = Some (f, d) ->
           callout_store (snd r) (Z.of_nat k)
           = CalloutEvent.mk f (uint32 (now st + uint32 (d * _MILLISECOND))))
    /\ (Z.of_nat (length reqs) = MAX_CALLOUT_CNT ->
        forall f d,
          CalloutRegister MAX_CALLOUT_CNT _MILLISECOND f d (snd r)
          = (FAILURE, snd r)).
Proof.
  intros MAX M reqs st Hcap Hmap Hlen. cbv zeta.
  destruct (CalloutRegister_all_fills MAX M Hcap reqs 0 st
              ltac:(lia) ltac:(lia) Hmap)
    as (Hs & Hm & _ & _ & Hnew).
  rewrite Z.add_0_l in Hm.
  split; [exact Hs |].
  split; [rewrite Hm, Z.ones_equiv; lia |].
  split; [intros k f d Hk; apply (Hnew k f d Hk) |].
  intros Hfull f d.
  set (st' := snd (CalloutRegister_all MAX M reqs st)) in *.
  pose proof (ones_range MAX ltac:(lia)) as Hr.
  assert (Hfail : fst (CalloutRegister MAX M f d st') = FAILURE).
  { apply (CalloutRegister_full_iff MAX M Hcap);
      [rewrite Hm, Hfull; exact Hr |].
    pose proof (pow2_le_16 _ Hcap) as Hp.
    rewrite get_callout_map_size_spec by (rewrite Hm, Hfull; lia).
    rewrite Hm, Hfull. apply (count_is_capacity MAX); [lia | exact Hr |].
    intros j Hj. apply Z.ones_spec_low. exact Hj. }
  pose proof (CalloutRegister_failure MAX M f d st' Hfail) as Hsame.
  destruct (CalloutRegister MAX M f d st') as [s st'']. cbn [fst snd] in *.
  subst. reflexivity.
Qed.

Lemma X8_registrations_fill_slots_in_order_witness :
  callout_map
    (snd (CalloutRegister_all 2 1 [(Demo.A, 5); (Demo.B, 3)] init_state))
  = 2 ^ Z.of_nat (length [(Demo.A, 5); (Demo.B, 3)]) - 1.
Proof.
  exact (proj1 (proj2
           (X8_registrations_fill_slots_in_order
              2 1 [(Demo.A, 5); (Demo.B, 3)] init_state
              ltac:(lia) eq_refl ltac:(cbn; lia)))).
Defined.

(** ** What every operation keeps *)

Section Invariant.

Variable MAX_CALLOUT_CNT : Z.
Variable _MILLISECOND : Z.
Variable run : Z -> State -> State.

Lemma CallbackService_loop_invariant (P : State -> Prop) :
  (forall f s, P s -> P (run f s)) ->
  (forall s i e, P s -> P (set_callback s i e)) ->
  forall k i r t st,
    P st -> P (snd (CallbackService_loop _MILLISECOND run k i r t st)).
Proof.
  intros Hrun Hset. induction k as [| k IH]; intros i r t st HP.
  - exact HP.
  - rewrite CallbackService_loop_step.
    destruct (i <? event_count st); [| exact HP].
    destruct (callback_due st t i); [| apply IH; exact HP].
    cbv zeta. destruct (uint8 (r - 1) =? 0); cbn [snd].
    + apply Hrun, Hset, HP.
    + apply IH, Hrun, Hset, HP.
Qed.

Lemma CalloutService_loop_invariant (P : State -> Prop) :
  (forall f s, P s -> P (run f s)) ->
  (forall s i, 0 <= i -> P s ->
               P (set_callout_map s (vacate (callout_map s) i))) ->
  forall k i r t st,
    0 <= i -> P st -> P (snd (CalloutService_loop run k i r t st)).
Proof.
  intros Hrun Hset. induction k as [| k IH]; intros i r t st Hi HP.
  - exact HP.
  - cbn [CalloutService_loop].
    destruct (occupied (callout_map st) i
              && (t =? CalloutEvent.run_time (callout_store st i)));
      [| apply IH; [lia | exact HP]].
    cbv zeta. destruct (uint8 (r - 1) =? 0).
    + cbn [snd]. apply Hset; [exact Hi |]. apply Hrun, HP.
    + match goal with
      | |- context [CalloutService_loop ?h k ?a ?b ?c ?d] =>
          pose proof (IH a b c d) as IH';
          destruct (CalloutService_loop h k a b c d) as [log st3]
      end.
      cbn [snd] in *. apply IH'; [lia |].
      apply Hset; [exact Hi |]. apply Hrun, HP.
Qed.

Variable MAX_CALLBACK_CNT : Z.
Hypothesis capacity : 0 <= MAX_CALLOUT_CNT <= 16.
Hypothesis run_in_tables :
  forall f s,
    in_tables MAX_CALLBACK_CNT MAX_CALLOUT_CNT s ->
    in_tables MAX_CALLBACK_CNT MAX_CALLOUT_CNT (run f s).

Lemma ScheduleTimerOverflow_in_tables (st : State) :
  in_tables MAX_CALLBACK_CNT MAX_CALLOUT_CNT st ->
  in_tables MAX_CALLBACK_CNT MAX_CALLOUT_CNT
            (snd (ScheduleTimerOverflow MAX_CALLOUT_CNT _MILLISECOND run st)).
Proof.
  intros ((Hn & He & Hm) & Hb). rewrite ScheduleTimerOverflow_snd.
  unfold CalloutService.
  match goal with
  | |- context [snd (CallbackService ?m ?h ?t ?s)] =>
      assert (Hcb : in_tables MAX_CALLBACK_CNT MAX_CALLOUT_CNT
                              (snd (CallbackService m h t s)))
  end.
  { unfold CallbackService.
    assert (H0 : in_tables MAX_CALLBACK_CNT MAX_CALLOUT_CNT
                           (set_now st (uint32 (now st + 1)))).
    { split; [| exact Hb].
      split; [apply uint32_range | split; assumption]. }
    destruct (event_count _ =? 0); [exact H0 |].
    apply CallbackService_loop_invariant;
      [exact run_in_tables | | exact H0].
    intros s i e Hs. exact Hs. }
  destruct (get_callout_map_size _ =? 0); [exact Hcb |].
  apply CalloutService_loop_invariant;
    [exact run_in_tables | | lia | exact Hcb].
  intros s i Hi ((Hn' & He' & Hm') & Hb').
  split; [| exact Hb'].
  split; [exact Hn' |]. split; [exact He' |].
  apply vacate_within; [lia | exact Hm' | exact Hi].
Qed.

End Invariant.

(** X9.  That the clock, the entry count and the map hold values of
    their types, that the map uses only the slots below the capacity and
    that the entry count is at most [MAX_CALLBACK_CNT], the length of
    [callback_store], is true at reset and kept by [CallbackMode],
    [CalloutRegister], [CalloutCancel] and the tick, provided the handlers
    keep it.  [CallbackRegister] keeps it when it writes inside the array,
    that is when [event_count < MAX_CALLBACK_CNT], and when it refuses.
    In such a state the size of the map is at most [MAX_CALLOUT_CNT]. *)
Theorem X9_operations_keep_ranges :
  forall (MAX_CALLBACK_CNT MAX_CALLOUT_CNT _MILLISECOND
            sizeof_CallbackEvent sizeof_CallbackFn : Z)
         (run : Z -> State -> State),
    0 <= MAX_CALLBACK_CNT < 2 ^ 8 ->
    0 <= MAX_CALLOUT_CNT <= 16 ->
    (forall f s,
        in_tables MAX_CALLBACK_CNT MAX_CALLOUT_CNT s ->
        in_tables MAX_CALLBACK_CNT MAX_CALLOUT_CNT (run f s)) ->
    in_tables MAX_CALLBACK_CNT MAX_CALLOUT_CNT init_state
    /\ forall st,
        in_tables MAX_CALLBACK_CNT MAX_CALLOUT_CNT st ->
        (forall f p,
            let r := CallbackRegister MAX_CALLBACK_CNT _MILLISECOND
                       sizeof_CallbackEvent sizeof_CallbackFn f p st in
            event_count st < MAX_CALLBACK_CNT \/ fst r = FAILURE ->
            in_tables MAX_CALLBACK_CNT MAX_CALLOUT_CNT (snd r))
        /\ (forall f mode,
               in_tables MAX_CALLBACK_CNT MAX_CALLOUT_CNT
                 (CallbackMode _MILLISECOND f mode st))
        /\ (forall f d,
               in_tables MAX_CALLBACK_CNT MAX_CALLOUT_CNT
                 (snd (CalloutRegister MAX_CALLOUT_CNT _MILLISECOND f d st)))
        /\ (forall f,
               in_tables MAX_CALLBACK_CNT MAX_CALLOUT_CNT
                 (CalloutCancel MAX_CALLOUT_CNT f st))
        /\ in_tables MAX_CALLBACK_CNT MAX_CALLOUT_CNT
             (snd (ScheduleTimerOverflow MAX_CALLOUT_CNT _MILLISECOND run st))
        /\ 0 <= get_callout_map_size st <= MAX_CALLOUT_CNT.
Proof.
  intros MAXCB MAX M SE SF run Hcb Hcap Hrun.
  pose proof (pow2_le_16 _ Hcap) as Hp.
  split.
  - unfold in_tables, in_range.
    cbn [now event_count callout_map init_state].
    pose proof (Z.pow_pos_nonneg 2 MAX ltac:(lia) ltac:(lia)). lia.
  - intros st Hst. pose proof Hst as ((Hn & He & Hm) & Hb).
    split; [| split; [| split; [| split; [| split]]]].
    + intros f p. cbv zeta. unfold CallbackRegister.
      destruct (event_count st <? callback_limit MAXCB SE SF);
        cbn [fst snd]; [| intros _; exact Hst].
      intros [Hroom | Hfail]; [| discriminate Hfail].
      unfold in_tables, in_range.
      cbn [now event_count callout_map set_event_count set_callback].
      unfold uint8. rewrite Z.mod_small by lia.
      repeat split; lia.
    + intros f mode. unfold CallbackMode.
      destruct (CallbackMode_loop_spec M 256 0 f mode st)
        as (H1 & H2 & H3 & _).
      unfold in_tables, in_range. rewrite H1, H2, H3. exact Hst.
    + intros f d.
      destruct (CalloutRegister MAX M f d st) as [s st'] eqn:Hreg.
      destruct s; cbn [snd].
      * destruct (CalloutRegister_success _ _ _ _ _ _ Hreg)
          as (i & Hi & _ & _ & ->).
        split; [| exact Hb].
        split; [exact Hn |]. split; [exact He |].
        apply claim_within; assumption.
      * pose proof (CalloutRegister_failure MAX M f d st) as Hs.
        rewrite Hreg in Hs. cbn [fst snd] in Hs. rewrite Hs by reflexivity.
        exact Hst.
    + intros f. unfold CalloutCancel. rewrite CalloutCancel_loop_spec.
      destruct (first_holding (Z.to_nat MAX) 0 f (callout_store st))
        as [i |] eqn:Hfh; [| exact Hst].
      destruct (first_holding_some _ _ _ _ _ Hfh) as (Hi & _ & _).
      split; [| exact Hb].
      split; [exact Hn |]. split; [exact He |].
      apply vacate_within; [lia | exact Hm | lia].
    + apply ScheduleTimerOverflow_in_tables; assumption.
    + rewrite get_callout_map_size_spec by lia.
      pose proof (count_from_nonneg 16 0 (callout_map st)).
      pose proof (count_le_capacity MAX _ Hcap Hm). lia.
Qed.

Lemma X9_operations_keep_ranges_witness :
  in_tables 2 2
    (snd (Demo.CallbackRegister Demo.B 7 (snd PeriodCase.registered)))
  /\ in_tables 2 2 (snd (ScheduleTimerOverflow 2 1 inert (snd Scenario.reg_B)))
  /\ 0 <= get_callout_map_size (snd Scenario.reg_B) <= 2.
Proof.
  pose proof (X9_operations_keep_ranges 2 2 1 12 2 inert
                ltac:(lia) ltac:(lia) (fun _ _ H => H)) as (_ & H).
  split.
  - destruct (H (snd PeriodCase.registered)
                ltac:(vm_compute; repeat split; discriminate || reflexivity))
      as (Hr & _).
    apply (Hr Demo.B 7). left. vm_compute. reflexivity.
  - destruct (H (snd Scenario.reg_B)
                ltac:(vm_compute; repeat split; discriminate || reflexivity))
      as (_ & _ & _ & _ & Ht & Hs).
    split; [exact Ht | exact Hs].
Defined.

(** ** A callback over many ticks *)

Lemma fired_callbacks_app (l1 l2 : list Fired) :
  fired_callbacks (l1 ++ l2) = fired_callbacks l1 ++ fired_callbacks l2.
Proof.
  induction l1 as [| [i f | i f] l1 IH]; cbn [app fired_callbacks].
  - reflexivity.
  - rewrite IH. reflexivity.
  - exact IH.
Qed.

Lemma fired_callbacks_of_callouts (log : list Fired) :
  forallb is_callout log = true -> fired_callbacks log = [].
Proof.
  induction log as [| [i f | i f] log IH]; cbn [forallb fired_callbacks];
    intros H.
  - reflexivity.
  - discriminate.
  - apply IH. exact H.
Qed.

Lemma in_fired_callbacks (log : list Fired) (i : Z) :
  In i (fired_callbacks log) <-> exists g, In (FiredCallback i g) log.
Proof.
  induction log as [| [j f | j f] log IH]; cbn [fired_callbacks In].
  - split; [contradiction | intros [g []]].
  - rewrite IH. split.
    + intros [-> | [g Hg]]; [exists f; left; reflexivity |].
      exists g. right. exact Hg.
    + intros [g [Heq | Hg]].
      * injection Heq as -> _. left. reflexivity.
      * right. exists g. exact Hg.
  - rewrite IH. split.
    + intros [g Hg]. exists g. right. exact Hg.
    + intros [g [Heq | Hg]]; [discriminate | exists g; exact Hg].
Qed.

Lemma uint32_back (T n : Z) :
  0 <= n < 2 ^ 32 -> uint32 (T + uint32 (n - T)) = n.
Proof.
  unfold uint32. change (2 ^ 32) with 4294967296.
  intros Hn. Z.div_mod_to_equations. lia.
Qed.

Lemma uint32_gap (n q : Z) :
  uint32 (uint32 (n + q) - n - 1) = uint32 (q - 1).
Proof.
  unfold uint32. change (2 ^ 32) with 4294967296.
  Z.div_mod_to_equations. lia.
Qed.

Section CallbackCycle.

Variable MAX_CALLOUT_CNT : Z.
Variable _MILLISECOND : Z.
Variable run : Z -> State -> State.

Hypothesis run_now : forall f s, now (run f s) = now s.
Hypothesis run_event_count :
  forall f s, event_count (run f s) = event_count s.
Hypothesis run_callback_store :
  forall f s, callback_store (run f s) = callback_store s.

Local Abbreviation tick :=
  (ScheduleTimerOverflow MAX_CALLOUT_CNT _MILLISECOND run).
Local Abbreviation tickn := (ticks MAX_CALLOUT_CNT _MILLISECOND run).

Lemma tick_fired_callbacks (st : State) :
  StronglySorted Z.lt (fired_callbacks (fst (tick st))).
Proof.
  rewrite ScheduleTimerOverflow_fst, fired_callbacks_app.
  rewrite (fired_callbacks_of_callouts (fst (CalloutService _ _ _ _)))
    by apply CalloutService_log.
  rewrite app_nil_r. apply CallbackService_ascending.
Qed.

(** While an entry is not due, ticks pass it by. *)
Lemma callback_waits (i : Z) (n : nat) :
  forall st,
    0 <= event_count st < 2 ^ 8 ->
    (forall k, (k < n)%nat ->
               callback_due st (uint32 (now st + Z.of_nat k + 1)) i = false) ->
    ~ In i (fired_callbacks (concat (fst (tickn n st))))
    /\ callback_store (snd (tickn n st)) i = callback_store st i
    /\ event_count (snd (tickn n st)) = event_count st
    /\ uint32 (now (snd (tickn n st))) = uint32 (now st + Z.of_nat n).
Proof.
  induction n as [| n IH]; intros st Hec Hquiet.
  - cbn [ticks fst snd concat fired_callbacks In]. rewrite Z.add_0_r.
    repeat split; intros [].
  - rewrite ticks_step. cbn [fst snd concat].
    destruct (tick_callbacks MAX_CALLOUT_CNT _MILLISECOND run
                run_event_count run_callback_store st Hec)
      as (Hcnt & Hin & Hs).
    pose proof (ScheduleTimerOverflow_now MAX_CALLOUT_CNT _MILLISECOND run
                  st run_now) as Hnow.
    assert (Hnd : callback_due st (uint32 (now st + 1)) i = false).
    { specialize (Hquiet O ltac:(lia)). cbn [Z.of_nat] in Hquiet.
      rewrite Z.add_0_r in Hquiet. exact Hquiet. }
    assert (Hsame : callback_store (snd (tick st)) i = callback_store st i).
    { rewrite Hs, Hnd, andb_false_r. reflexivity. }
    destruct (IH (snd (tick st))) as (Hni & Hs' & Hc' & Hn').
    + rewrite Hcnt. exact Hec.
    + intros k Hk. unfold callback_due. rewrite Hsame, Hnow.
      rewrite <- Z.add_assoc, uint32_add_l.
      specialize (Hquiet (S k) ltac:(lia)). unfold callback_due in Hquiet.
      replace (now st + 1 + (Z.of_nat k + 1))
        with (now st + Z.of_nat (S k) + 1) by lia.
      exact Hquiet.
    + split; [| split; [| split]].
      * rewrite fired_callbacks_app, in_app_iff. intros [Hfired | Hfired].
        -- apply in_fired_callbacks in Hfired. destruct Hfired as [g Hg].
           apply Hin in Hg. destruct Hg as (_ & Hd & _). congruence.
        -- exact (Hni Hfired).
      * congruence.
      * congruence.
      * rewrite Hn', Hnow, uint32_add_l. f_equal. lia.
Qed.

(** On the tick that reaches its [next_run_time], an enabled entry is
    called once and rescheduled. *)
Lemma callback_fires (i : Z) (st : State) :
  0 <= event_count st < 2 ^ 8 ->
  0 <= i < event_count st ->
  callback_due st (uint32 (now st + 1)) i = true ->
  count_occ Z.eq_dec (fired_callbacks (fst (tick st))) i = 1%nat
  /\ (forall g, In (FiredCallback i g) (fst (tick st))
                <-> g = CallbackEvent.func (callback_store st i))
  /\ callback_store (snd (tick st)) i
     = rescheduled _MILLISECOND (callback_store st i) (uint32 (now st + 1))
  /\ now (snd (tick st)) = uint32 (now st + 1)
  /\ event_count (snd (tick st)) = event_count st.
Proof.
  intros Hec Hi Hdue.
  destruct (tick_callbacks MAX_CALLOUT_CNT _MILLISECOND run
              run_event_count run_callback_store st Hec)
    as (Hcnt & Hin & Hs).
  assert (Hfired : In (FiredCallback
                         i (CallbackEvent.func (callback_store st i)))
                      (fst (tick st))).
  { apply Hin. split; [exact Hi |]. split; [exact Hdue | reflexivity]. }
  split; [| split; [| split; [| split]]].
  - pose proof (sorted_count_le _ (tick_fired_callbacks st) i) as Hle.
    assert (Hge : In i (fired_callbacks (fst (tick st)))).
    { apply in_fired_callbacks. eexists. exact Hfired. }
    apply (count_occ_In Z.eq_dec) in Hge. lia.
  - intros g. split.
    + intros Hg. apply Hin in Hg. apply Hg.
    + intros ->. exact Hfired.
  - rewrite Hs, Hdue.
    destruct (Z.leb_spec 0 i), (Z.ltb_spec i (event_count st));
      try lia. reflexivity.
  - apply ScheduleTimerOverflow_now. exact run_now.
  - exact Hcnt.
Qed.

(** From any state, an enabled entry is left alone until the clock
    reaches its [next_run_time], and then fires. *)
Lemma callback_cycle (i : Z) (st : State) :
  0 <= event_count st < 2 ^ 8 ->
  0 <= i < event_count st ->
  CallbackEvent.enabled (callback_store st i) = true ->
  0 <= CallbackEvent.next_run_time (callback_store st i) < 2 ^ 32 ->
  let e := callback_store st i in
  let n := CallbackEvent.next_run_time e in
  let quiet := tickn (Z.to_nat (uint32 (n - now st - 1))) st in
  ~ In i (fired_callbacks (concat (fst quiet)))
  /\ count_occ Z.eq_dec (fired_callbacks (fst (tick (snd quiet)))) i = 1%nat
  /\ (forall g, In (FiredCallback i g) (fst (tick (snd quiet)))
                <-> g = CallbackEvent.func e)
  /\ now (snd (tick (snd quiet))) = n
  /\ callback_store (snd (tick (snd quiet))) i
     = rescheduled _MILLISECOND e n
  /\ event_count (snd (tick (snd quiet))) = event_count st.
Proof.
  intros Hec Hi Hen Hn. cbv zeta.
  set (e := callback_store st i) in *.
  set (n := CallbackEvent.next_run_time e) in *.
  set (wait := Z.to_nat (uint32 (n - now st - 1))).
  pose proof (uint32_range (n - now st - 1)) as Hw.
  assert (Hback : uint32 (now st + uint32 (n - now st)) = n)
    by (apply uint32_back; exact Hn).
  destruct (callback_waits i wait st Hec) as (Hq1 & Hq2 & Hq3 & Hq4).
  { intros k Hk. unfold callback_due. fold e. fold n.
    destruct (Z.eqb_spec (uint32 (now st + Z.of_nat k + 1)) n) as [Heq | Hne];
      [| apply andb_false_r].
    exfalso. revert Heq. rewrite <- Hback. apply wait_quiet.
    unfold wait in Hk. lia. }
  set (quiet := tickn wait st) in *.
  assert (Hhit : uint32 (now (snd quiet) + 1) = n).
  { rewrite <- uint32_add_l, Hq4, uint32_add_l.
    unfold wait. rewrite Z2Nat.id by lia. rewrite <- Hback at 2.
    apply wait_hits. }
  destruct (callback_fires i (snd quiet)) as (Hf1 & Hf2 & Hf3 & Hf4 & Hf5).
  { rewrite Hq3. exact Hec. }
  { rewrite Hq3. exact Hi. }
  { unfold callback_due. rewrite Hq2, Hhit. fold e. rewrite Hen.
    fold n. rewrite Z.eqb_refl. reflexivity. }
  rewrite Hq2 in Hf2, Hf3. rewrite Hhit in Hf3, Hf4.
  split; [exact Hq1 |]. split; [exact Hf1 |]. split; [exact Hf2 |].
  split; [exact Hf4 |]. split; [exact Hf3 |]. congruence.
Qed.

End CallbackCycle.

(** X10.  An enabled entry is not called while the clock differs from
    its [next_run_time]; on the tick that makes the clock equal to it,
    its handler is called exactly once, and the entry is left enabled
    with [next_run_time] moved on by its stored [run_time] times
    [_MILLISECOND], modulo 2^32.  The firing after that one therefore
    comes that many ticks later (2^32 ticks when the product is 0).
    Handlers are taken not to write the clock or the callback table. *)
Theorem X10_callback_fires_on_its_tick :
  forall (MAX_CALLOUT_CNT _MILLISECOND : Z) (run : Z -> State -> State),
    (forall f s, now (run f s) = now s) ->
    (forall f s, event_count (run f s) = event_count s) ->
    (forall f s, callback_store (run f s) = callback_store s) ->
    forall (i : Z) (st : State),
      0 <= event_count st < 2 ^ 8 ->
      0 <= i < event_count st ->
      CallbackEvent.enabled (callback_store st i) = true ->
      0 <= CallbackEvent.next_run_time (callback_store st i) < 2 ^ 32 ->
      let e := callback_store st i in
      let n := CallbackEvent.next_run_time e in
      let step := uint32 (CallbackEvent.run_time e * _MILLISECOND) in
      let quiet :=
        ticks MAX_CALLOUT_CNT _MILLISECOND run
              (Z.to_nat (uint32 (n - now st - 1))) st in
      let hit :=
        ScheduleTimerOverflow MAX_CALLOUT_CNT _MILLISECOND run (snd quiet) in
      ~ In i (fired_callbacks (concat (fst quiet)))
      /\ count_occ Z.eq_dec (fired_callbacks (fst hit)) i = 1%nat
      /\ (forall g, In (FiredCallback i g) (fst hit)
                    <-> g = CallbackEvent.func e)
      /\ now (snd hit) = n
      /\ callback_store (snd hit) i
         = CallbackEvent.mk true (CallbackEvent.func e)
                            (CallbackEvent.run_time e) (uint32 (n + step))
      /\ uint32 (CallbackEvent.next_run_time (callback_store (snd hit) i)
                 - now (snd hit) - 1)
         = uint32 (step - 1).
Proof.
  intros MAX M run Hnow Hcnt Hstore i st Hec Hi Hen Hn. cbv zeta.
  destruct (callback_cycle MAX M run Hnow Hcnt Hstore i st Hec Hi Hen Hn)
    as (H1 & H2 & H3 & H4 & H5 & _).
  split; [exact H1 |]. split; [exact H2 |]. split; [exact H3 |].
  split; [exact H4 |].
  assert (H5' : callback_store
                  (snd (ScheduleTimerOverflow MAX M run
                          (snd (ticks MAX M run
                                  (Z.to_nat
                                     (uint32
                                        (CallbackEvent.next_run_time
                                           (callback_store st i)
                                         - now st - 1))) st)))) i
                = CallbackEvent.mk
                    true (CallbackEvent.func (callback_store st i))
                    (CallbackEvent.run_time (callback_store st i))
                    (uint32 (CallbackEvent.next_run_time (callback_store st i)
                             + uint32 (CallbackEvent.run_time
                                         (callback_store st i) * M)))).
  { rewrite H5. unfold rescheduled, CallbackEvent.set_next_run_time.
    rewrite Hen. reflexivity. }
  split; [exact H5' |].
  rewrite H5', H4. cbn [CallbackEvent.next_run_time]. apply uint32_gap.
Qed.

Lemma X10_callback_fires_on_its_tick_witness :
  count_occ Z.eq_dec
    (fired_callbacks
       (fst (ScheduleTimerOverflow 2 1 inert
               (snd (ticks 2 1 inert 8 PeriodCase.enabled))))) 0
  = 1%nat.
Proof.
  exact (proj1 (proj2
           (X10_callback_fires_on_its_tick
              2 1 inert (fun _ _ => eq_refl) (fun _ _ => eq_refl)
              (fun _ _ => eq_refl) 0 PeriodCase.enabled
              ltac:(vm_compute; split; [discriminate | reflexivity])
              ltac:(vm_compute; split; [discriminate | reflexivity])
              ltac:(vm_compute; reflexivity)
              ltac:(vm_compute; split; [discriminate | reflexivity])))).
Defined.

(** X11.  An entry whose flag is clear is never called and never
    written by any number of ticks; and that is the state in which
    [CallbackRegister] leaves every entry it adds.  Handlers are taken
    not to write the clock or the callback table. *)
Theorem X11_disabled_callback_never_fires :
  (forall (MAX_CALLOUT_CNT _MILLISECOND : Z) (run : Z -> State -> State),
      (forall f s, now (run f s) = now s) ->
      (forall f s, event_count (run f s) = event_count s) ->
      (forall f s, callback_store (run f s) = callback_store s) ->
      forall (i : Z) (n : nat) (st : State),
        0 <= event_count st < 2 ^ 8 ->
        CallbackEvent.enabled (callback_store st i) = false ->
        ~ In i (fired_callbacks
                  (concat (fst (ticks MAX_CALLOUT_CNT _MILLISECOND run n st))))
        /\ callback_store
             (snd (ticks MAX_CALLOUT_CNT _MILLISECOND run n st)) i
           = callback_store st i)
  /\ (forall (MAX_CALLBACK_CNT _MILLISECOND sizeof_CallbackEvent
                sizeof_CallbackFn f p : Z) (st : State),
         let r := CallbackRegister MAX_CALLBACK_CNT _MILLISECOND
                                   sizeof_CallbackEvent sizeof_CallbackFn
                                   f p st in
         fst r = FAILURE
         \/ CallbackEvent.enabled (callback_store (snd r) (event_count st))
            = false).
Proof.
  split.
  - intros MAX M run Hnow Hcnt Hstore i n st Hec Hoff.
    destruct (callback_waits MAX M run Hnow Hcnt Hstore i n st Hec)
      as (H1 & H2 & _).
    + intros k Hk. unfold callback_due. rewrite Hoff. reflexivity.
    + split; [exact H1 | exact H2].
  - intros MAX M SE SF f p st. cbv zeta.
    destruct (Z.lt_ge_cases (event_count st) (callback_limit MAX SE SF))
      as [Hlt | Hge].
    + right.
      destruct (CallbackRegister_stores MAX M SE SF f p st Hlt)
        as (_ & _ & Hs & _).
      rewrite Hs. reflexivity.
    + left. apply CallbackRegister_status. exact Hge.
Qed.

Lemma X11_disabled_callback_never_fires_witness :
  ~ In 0 (fired_callbacks
            (concat (fst (ticks 2 1 inert 30 (snd PeriodCase.registered))))).
Proof.
  exact (proj1 (proj1 X11_disabled_callback_never_fires
                  2 1 inert (fun _ _ => eq_refl) (fun _ _ => eq_refl)
                  (fun _ _ => eq_refl) 0 30%nat (snd PeriodCase.registered)
                  ltac:(vm_compute; split; [discriminate | reflexivity])
                  ltac:(vm_compute; reflexivity))).
Defined.




(** X13.  When the bound checked by [CallbackRegister] is 256 or more,
    registration never fails; the registration made with 255 entries in
    the table brings the [uint8_t] count round to 0, and from then on a
    callback pass calls nothing. *)
Theorem X13_entry_count_wraps :
  forall (MAX_CALLBACK_CNT _MILLISECOND sizeof_CallbackEvent
            sizeof_CallbackFn f p : Z) (st : State),
    2 ^ 8 <= callback_limit MAX_CALLBACK_CNT sizeof_CallbackEvent
                            sizeof_CallbackFn ->
    0 <= event_count st < 2 ^ 8 ->
    let r := CallbackRegister MAX_CALLBACK_CNT _MILLISECOND
                              sizeof_CallbackEvent sizeof_CallbackFn
                              f p st in
    fst r = SUCCESS
    /\ (event_count st = 255 ->
        event_count (snd r) = 0
        /\ forall run t,
            CallbackService _MILLISECOND run t (snd r) = ([], snd r)).
Proof.
  intros MAXCB M SE SF f p st Hlim Hec. cbv zeta.
  destruct (CallbackRegister_stores MAXCB M SE SF f p st ltac:(lia))
    as (Hs & Hec1 & _).
  split; [exact Hs |]. intros H255.
  assert (Hz : event_count (snd (CallbackRegister MAXCB M SE SF f p st)) = 0).
  { rewrite Hec1, H255. reflexivity. }
  split; [exact Hz |]. intros run t. unfold CallbackService.
  rewrite Hz. reflexivity.
Qed.

Lemma X13_entry_count_wraps_witness :
  fst (CallbackRegister 64 1 12 2 Demo.A 10 (set_event_count init_state 255))
  = SUCCESS.
Proof.
  exact (proj1 (X13_entry_count_wraps 64 1 12 2 Demo.A 10
                  (set_event_count init_state 255)
                  ltac:(vm_compute; discriminate)
                  ltac:(vm_compute; split; [discriminate | reflexivity]))).
Defined.

(** ** The whole of one tick *)

Lemma due_callbacks_filter (k : nat) :
  forall i t st,
    due_callbacks k i t st
    = map (fun j => FiredCallback
                      j (CallbackEvent.func (callback_store st j)))
          (filter (callback_due st t) (slots k i)).
Proof.
  induction k as [| k IH]; intros i t st; cbn [due_callbacks slots filter].
  - reflexivity.
  - rewrite IH. destruct (callback_due st t i); reflexivity.
Qed.

Lemma due_callouts_filter (k : nat) :
  forall i t st,
    due_callouts k i t st
    = map (fun j => FiredCallout
                      j (CalloutEvent.func (callout_store st j)))
          (filter (callout_due st t) (slots k i)).
Proof.
  induction k as [| k IH]; intros i t st; cbn [due_callouts slots filter].
  - reflexivity.
  - rewrite IH. destruct (callout_due st t i); reflexivity.
Qed.

(** X14.  When the handlers leave the clock and both tables alone, an
    interrupt at clock value [now] calls, first, the handlers of the
    entries below [event_count] that are enabled and have [now + 1] as
    [next_run_time], in index order, and then the handlers of the
    occupied slots that have [now + 1] as [run_time], in index order,
    and no other.  It leaves the clock at [now + 1], each called entry
    rescheduled by its stored period, each called slot vacant, and the
    rest as it was. *)
Theorem X14_tick_calls_exactly_the_due :
  forall (MAX_CALLOUT_CNT _MILLISECOND : Z) (run : Z -> State -> State),
    0 <= MAX_CALLOUT_CNT <= 16 ->
    (forall f s, now (run f s) = now s) ->
    (forall f s, event_count (run f s) = event_count s) ->
    (forall f s, callback_store (run f s) = callback_store s) ->
    (forall f s, callout_map (run f s) = callout_map s) ->
    (forall f s, callout_store (run f s) = callout_store s) ->
    forall st : State,
      0 <= event_count st < 2 ^ 8 ->
      0 <= callout_map st < 2 ^ MAX_CALLOUT_CNT ->
      let t := uint32 (now st + 1) in
      let r := ScheduleTimerOverflow MAX_CALLOUT_CNT _MILLISECOND run st in
      fst r
      = map (fun j => FiredCallback
                        j (CallbackEvent.func (callback_store st j)))
            (filter (callback_due st t)
                    (slots (Z.to_nat (event_count st)) 0))
        ++ map (fun j => FiredCallout
                           j (CalloutEvent.func (callout_store st j)))
               (filter (callout_due st t)
                       (slots (Z.to_nat MAX_CALLOUT_CNT) 0))
      /\ now (snd r) = t
      /\ event_count (snd r) = event_count st
      /\ callout_store (snd r) = callout_store st
      /\ (forall j,
             callback_store (snd r) j
             = if (0 <=? j) && (j <? event_count st) && callback_due st t j
               then rescheduled _MILLISECOND (callback_store st j) t
               else callback_store st j)
      /\ (forall j, 0 <= j ->
                    Z.testbit (callout_map (snd r)) j
                    = Z.testbit (callout_map st) j
                      && negb ((j <? MAX_CALLOUT_CNT) && callout_due st t j)).
Proof.
  intros MAX M run Hcap Hnow Hcnt Hcbs Hmap Hcos st Hec Hm. cbv zeta.
  pose proof (pow2_le_16 _ Hcap) as Hp.
  destruct (tick_callouts MAX M run Hcap Hnow Hmap Hcos st Hm)
    as (Hn & Hs & _ & Hb & _).
  destruct (tick_callbacks MAX M run Hcnt Hcbs st Hec) as (He & _ & Hcb).
  split; [| split; [exact Hn |]; split; [exact He |]; split; [exact Hs |];
            split; [exact Hcb | exact Hb]].
  rewrite ScheduleTimerOverflow_fst.
  set (t := uint32 (now st + 1)). set (st1 := set_now st t).
  set (cb := CallbackService M run t st1).
  assert (Hlog1 : fst cb
                  = due_callbacks (Z.to_nat (event_count st)) 0 t st).
  { unfold cb.
    rewrite (CallbackService_is_scan M run Hcnt t st1) by exact Hec.
    destruct (CallbackService_scan_loop_spec M run Hcnt Hcbs 256 0 t st1)
      as (Hlog & _); [lia | cbn; lia |].
    unfold CallbackService_scan. rewrite Hlog.
    change (event_count st1) with (event_count st).
    rewrite Z.sub_0_r.
    apply due_callbacks_ext. intros j Hj. reflexivity. }
  assert (Hnow_cb : now (snd cb) = t).
  { unfold cb. rewrite (CallbackService_frame _ _ now); auto. }
  assert (Hmap_cb : callout_map (snd cb) = callout_map st).
  { unfold cb. rewrite (CallbackService_frame _ _ callout_map); auto. }
  assert (Hst_cb : callout_store (snd cb) = callout_store st).
  { unfold cb. rewrite (CallbackService_frame _ _ callout_store); auto. }
  rewrite Hnow_cb.
  rewrite (CalloutService_is_scan run Hmap) by (rewrite Hmap_cb; lia).
  unfold CalloutService_scan.
  destruct (CalloutService_scan_loop_spec run Hmap Hcos
              (Z.to_nat MAX) 0 t (snd cb)) as (Hlog2 & _);
    [lia | rewrite Hmap_cb; lia |].
  rewrite Hlog1, Hlog2.
  rewrite (due_callouts_ext _ 0 t st (snd cb) Hst_cb)
    by (intros j Hj; rewrite Hmap_cb; reflexivity).
  rewrite due_callbacks_filter, due_callouts_filter. reflexivity.
Qed.

Lemma X14_tick_calls_exactly_the_due_witness :
  fst (ScheduleTimerOverflow 2 1 inert SameTick.at_8)
  = [FiredCallback 0 Demo.A; FiredCallout 0 Demo.B].
Proof.
  exact (proj1 (X14_tick_calls_exactly_the_due
                  2 1 inert ltac:(lia)
                  (fun _ _ => eq_refl) (fun _ _ => eq_refl)
                  (fun _ _ => eq_refl) (fun _ _ => eq_refl)
                  (fun _ _ => eq_refl) SameTick.at_8
                  ltac:(vm_compute; split; [discriminate | reflexivity])
                  ltac:(vm_compute; split; [discriminate | reflexivity]))).
Defined.

(** ** Switching off, and cancelling in time *)

(** X15.  After [CallbackMode] with the disabling mode, the entry it
    found (the lowest one with that handler) is not called by any number
    of ticks, and keeps its handler, its period and the [next_run_time]
    it had.  Handlers are taken not to write the clock or the callback
    table. *)
Theorem X15_disabling_stops_the_first_entry :
  forall (MAX_CALLOUT_CNT _MILLISECOND : Z) (run : Z -> State -> State),
    (forall f s, now (run f s) = now s) ->
    (forall f s, event_count (run f s) = event_count s) ->
    (forall f s, callback_store (run f s) = callback_store s) ->
    forall (f i : Z) (n : nat) (st : State),
      0 <= event_count st < 2 ^ 8 ->
      first_registered 256 0 f st = Some i ->
      let off := CallbackMode _MILLISECOND f DISABLED st in
      let later := ticks MAX_CALLOUT_CNT _MILLISECOND run n off in
      ~ In i (fired_callbacks (concat (fst later)))
      /\ callback_store (snd later) i
         = CallbackEvent.mk
             false
             (CallbackEvent.func (callback_store st i))
             (CallbackEvent.run_time (callback_store st i))
             (CallbackEvent.next_run_time (callback_store st i)).
Proof.
  intros MAX M run Hnow Hcnt Hcbs f i n st Hec Hfr. cbv zeta.
  unfold CallbackMode.
  destruct (CallbackMode_loop_spec M 256 0 f DISABLED st)
    as (_ & Hec' & _ & _ & Hs).
  rewrite Hfr in Hs. specialize (Hs i). rewrite Z.eqb_refl in Hs.
  cbv zeta in Hs. cbn [mode_flag] in Hs.
  set (off := CallbackMode_loop M 256 0 f DISABLED st) in *.
  destruct (callback_waits MAX M run Hnow Hcnt Hcbs i n off)
    as (H1 & H2 & _).
  - rewrite Hec'. exact Hec.
  - intros k Hk. unfold callback_due. rewrite Hs. reflexivity.
  - split; [exact H1 |]. rewrite H2. exact Hs.
Qed.

Lemma X15_disabling_stops_the_first_entry_witness :
  ~ In 0 (fired_callbacks
            (concat (fst (ticks 2 1 inert 20
                            (CallbackMode 1 Demo.A DISABLED
                                          PeriodCase.enabled))))).
Proof.
  exact (proj1 (X15_disabling_stops_the_first_entry
                  2 1 inert (fun _ _ => eq_refl) (fun _ _ => eq_refl)
                  (fun _ _ => eq_refl) Demo.A 0 20%nat PeriodCase.enabled
                  ltac:(vm_compute; split; [discriminate | reflexivity])
                  ltac:(vm_compute; reflexivity))).
Defined.

Section CancelInTime.

Variable MAX_CALLOUT_CNT : Z.
Variable _MILLISECOND : Z.
Variable run : Z -> State -> State.

Hypothesis capacity : 0 <= MAX_CALLOUT_CNT <= 16.
Hypothesis run_now : forall f s, now (run f s) = now s.
Hypothesis run_callout_map :
  forall f s, callout_map (run f s) = callout_map s.
Hypothesis run_callout_store :
  forall f s, callout_store (run f s) = callout_store s.

(** Whatever a run of ticks calls from the callout table is the handler
    stored in the slot it is called from. *)
Lemma ticks_call_stored_handlers (n : nat) :
  forall st j g,
    0 <= callout_map st < 2 ^ MAX_CALLOUT_CNT ->
    In (FiredCallout j g)
       (concat (fst (ticks MAX_CALLOUT_CNT _MILLISECOND run n st))) ->
    0 <= j < MAX_CALLOUT_CNT
    /\ g = CalloutEvent.func (callout_store st j)
    /\ In j (fired_callouts
               (concat (fst (ticks MAX_CALLOUT_CNT _MILLISECOND run n st)))).
Proof.
  induction n as [| n IH]; intros st j g Hm Hin.
  - cbn in Hin. contradiction.
  - rewrite ticks_step in *. cbn [fst snd concat] in *.
    destruct (tick_callouts MAX_CALLOUT_CNT _MILLISECOND run capacity
                run_now run_callout_map run_callout_store st Hm)
      as (_ & Hs & Hm' & _ & Hc & Hev).
    rewrite fired_callouts_app, in_app_iff.
    apply in_app_iff in Hin. destruct Hin as [Hin | Hin].
    + pose proof Hin as Hin'. apply Hev in Hin'.
      destruct Hin' as (Hj & Hd & Hg).
      split; [exact Hj |]. split; [exact Hg |]. left.
      apply (count_occ_In Z.eq_dec). rewrite Hc, Hd.
      destruct (Z.leb_spec 0 j), (Z.ltb_spec j MAX_CALLOUT_CNT);
        try lia. cbn. lia.
    + destruct (IH _ j g Hm' Hin) as (Hj & Hg & Hf).
      split; [exact Hj |]. split; [rewrite <- Hs; exact Hg |].
      right. exact Hf.
Qed.

End CancelInTime.

(** X16.  A handler that no slot of the table holds is registered and
    then cancelled before its time: no number of ticks calls it.
    Handlers are taken not to write the clock or the callout table. *)
Theorem X16_cancelled_fresh_callout_is_never_called :
  forall (MAX_CALLOUT_CNT _MILLISECOND : Z) (run : Z -> State -> State),
    0 <= MAX_CALLOUT_CNT <= 16 ->
    (forall f s, now (run f s) = now s) ->
    (forall f s, callout_map (run f s) = callout_map s) ->
    (forall f s, callout_store (run f s) = callout_store s) ->
    forall (f d : Z) (n : nat) (st st' : State),
      0 <= callout_map st < 2 ^ MAX_CALLOUT_CNT ->
      (forall j, 0 <= j < MAX_CALLOUT_CNT ->
                 CalloutEvent.func (callout_store st j) <> f) ->
      CalloutRegister MAX_CALLOUT_CNT _MILLISECOND f d st = (SUCCESS, st') ->
      forall j,
        ~ In (FiredCallout j f)
             (concat (fst (ticks MAX_CALLOUT_CNT _MILLISECOND run n
                                 (CalloutCancel MAX_CALLOUT_CNT f st')))).
Proof.
  intros MAX M run Hcap Hnow Hmap Hcos f d n st st' Hm Hfresh Hreg j Hin.
  pose proof (pow2_le_16 _ Hcap) as Hp.
  assert (Hback : callout_map (CalloutCancel MAX f st') = callout_map st).
  { apply (register_then_cancel_map MAX M f d st st'); try assumption. lia. }
  destruct (CalloutRegister_success _ _ _ _ _ _ Hreg)
    as (i & Hi & Hfree & _ & Hst').
  assert (Hstore : callout_store (CalloutCancel MAX f st')
                   = callout_store st').
  { unfold CalloutCancel. rewrite CalloutCancel_loop_spec.
    destruct (first_holding _ _ _ _); reflexivity. }
  destruct (ticks_call_stored_handlers MAX M run Hcap Hnow Hmap Hcos
              n (CalloutCancel MAX f st') j f)
    as (Hj & Hg & Hfired); [rewrite Hback; exact Hm | exact Hin |].
  rewrite Hstore, Hst' in Hg. cbn [callout_store set_callout] in Hg.
  unfold upd in Hg. destruct (Z.eqb_spec j i) as [-> | Hne].
  - destruct (vacant_stays MAX M run Hcap Hnow Hmap Hcos i n ltac:(lia)
                (CalloutCancel MAX f st')) as (Hnever & _).
    + rewrite Hback. exact Hm.
    + rewrite Hback. exact Hfree.
    + exact (Hnever Hfired).
  - apply (Hfresh j Hj). symmetry. exact Hg.
Qed.

Lemma X16_cancelled_fresh_callout_is_never_called_witness :
  ~ In (FiredCallout 1 Demo.B)
       (concat (fst (ticks 2 1 inert 10
                       (CalloutCancel 2 Demo.B (snd Scenario.reg_B))))).
Proof.
  exact (X16_cancelled_fresh_callout_is_never_called
           2 1 inert ltac:(lia)
           (fun _ _ => eq_refl) (fun _ _ => eq_refl) (fun _ _ => eq_refl)
           Demo.B 3 10%nat (snd Scenario.reg_A) (snd Scenario.reg_B)
           ltac:(vm_compute; split; [discriminate | reflexivity])
           ltac:(intros j Hj; assert (Hc : j = 0 \/ j = 1) by lia;
                 destruct Hc as [-> | ->]; vm_compute; discriminate)
           eq_refl 1).
Defined.

(** ** The two tables do not touch each other *)



(** ** The counting loops when handlers register nothing *)

Lemma count_from_subset (n : nat) :
  forall a m m',
    (forall j, a <= j < a + Z.of_nat n ->
               Z.testbit m' j = true -> Z.testbit m j = true) ->
    count_from n a m' <= count_from n a m.
Proof.
  induction n as [| n IH]; intros a m m' H; cbn [count_from].
  - lia.
  - assert (Hrest : count_from n (a + 1) m' <= count_from n (a + 1) m).
    { apply IH. intros j Hj. apply H. lia. }
    specialize (H a ltac:(lia)).
    destruct (Z.testbit m' a).
    + rewrite H by reflexivity. lia.
    + destruct (Z.testbit m a); cbn [Z.b2z]; lia.
Qed.

Section EarlyExit.

Variable _MILLISECOND : Z.
Variable run : Z -> State -> State.

(** The handlers append no callback and claim no slot; they may cancel
    callouts. *)
Hypothesis run_event_count_le :
  forall f s, event_count (run f s) <= event_count s.
Hypothesis run_claims_nothing :
  forall f s j,
    0 <= j -> Z.testbit (callout_map (run f s)) j = true ->
    Z.testbit (callout_map s) j = true.

Lemma CallbackService_loop_scan_le (k : nat) :
  forall i r t st,
    0 < r < 2 ^ 8 -> event_count st <= i + r ->
    CallbackService_loop _MILLISECOND run k i r t st
    = CallbackService_scan_loop _MILLISECOND run k i t st.
Proof.
  induction k as [| k IH]; intros i r t st Hr Hec.
  - reflexivity.
  - cbn [CallbackService_loop CallbackService_scan_loop].
    destruct (Z.ltb_spec i (event_count st)) as [Hlt | Hge];
      [| reflexivity].
    destruct (CallbackEvent.enabled (callback_store st i)
              && (t =? CallbackEvent.next_run_time (callback_store st i))).
    + cbv zeta. set (st2 := run _ _).
      assert (Hec2 : event_count st2 <= event_count st).
      { unfold st2. etransitivity; [apply run_event_count_le |].
        cbn. lia. }
      rewrite uint8_small by lia.
      destruct (Z.eqb_spec (r - 1) 0) as [Hz | Hnz].
      * rewrite CallbackService_scan_loop_done by lia. reflexivity.
      * rewrite (IH (i + 1) (r - 1) t st2) by lia. reflexivity.
    + apply IH; lia.
Qed.

(** The counter is never below the number of occupied slots, so when
    it reaches zero the map is empty. *)
Lemma CalloutService_loop_scan_le (k : nat) :
  forall i r t st,
    0 <= i -> 0 <= callout_map st < 2 ^ 16 ->
    count_from 16 0 (callout_map st) <= r -> 0 < r <= 16 ->
    CalloutService_loop run k i r t st
    = CalloutService_scan_loop run k i t st.
Proof.
  induction k as [| k IH]; intros i r t st Hi Hm Hr Hpos.
  - reflexivity.
  - cbn [CalloutService_loop CalloutService_scan_loop].
    destruct (occupied (callout_map st) i) eqn:Hocc; cbn [andb].
    + destruct (t =? CalloutEvent.run_time (callout_store st i)).
      * cbv zeta. set (st1 := run _ st).
        set (st2 := set_callout_map _ _).
        assert (Hmap2 : callout_map st2 = vacate (callout_map st1) i)
          by reflexivity.
        assert (Hm2 : 0 <= callout_map st2 < 2 ^ 16).
        { rewrite Hmap2. apply uint16_range. }
        rewrite occupied_testbit in Hocc by exact Hi.
        assert (Hi16 : i < 16).
        { destruct (Z.lt_ge_cases i 16) as [H | H]; [exact H |].
          rewrite testbit_high in Hocc by assumption. discriminate. }
        assert (Hcnt : count_from 16 0 (callout_map st2) <= r - 1).
        { transitivity (count_from 16 0 (vacate (callout_map st) i)).
          - apply count_from_subset. intros j Hj.
            rewrite Hmap2, !testbit_vacate by lia.
            destruct (j <? 16); cbn [andb]; [| discriminate].
            destruct (negb (j =? i)); rewrite ?andb_false_r;
              [| discriminate].
            rewrite !andb_true_r. apply run_claims_nothing. lia.
          - rewrite (count_from_vacate 16 0) by
                (try exact Hocc; change (Z.of_nat 16) with 16; lia).
            change (Z.of_nat 16) with 16.
            destruct (Z.leb_spec 0 i), (Z.ltb_spec i (0 + 16));
              cbn [andb]; lia. }
        pose proof (count_from_nonneg 16 0 (callout_map st2)) as Hnn.
        rewrite uint8_small by lia.
        destruct (Z.eqb_spec (r - 1) 0) as [Hz | Hnz].
        -- rewrite CalloutService_scan_loop_none; [reflexivity |].
           intros j Hj. rewrite occupied_testbit by lia.
           apply map_empty_of_count; [exact Hm2 | lia | lia].
        -- rewrite (IH (i + 1) (r - 1) t st2) by lia. reflexivity.
      * apply IH; (assumption || lia).
    + apply IH; (assumption || lia).
Qed.

End EarlyExit.

(** X18.  When the handlers called by a pass append no callback (they
    do not raise [event_count]) and claim no callout slot (they set no
    bit of [callout_map]; they may cancel callouts), the counting loops of
    the source return the same log and the same state as a full scan, for
    every table state and every tick. *)
Theorem X18_early_exit_is_scan_without_registration :
  forall (MAX_CALLOUT_CNT _MILLISECOND : Z) (run : Z -> State -> State)
         (t : Z) (st : State),
    0 <= event_count st < 2 ^ 8 ->
    0 <= callout_map st < 2 ^ 16 ->
    (forall f s, event_count (run f s) <= event_count s) ->
    (forall f s j,
        0 <= j -> Z.testbit (callout_map (run f s)) j = true ->
        Z.testbit (callout_map s) j = true) ->
    CallbackService _MILLISECOND run t st
    = CallbackService_scan _MILLISECOND run t st
    /\ CalloutService MAX_CALLOUT_CNT run t st
       = CalloutService_scan MAX_CALLOUT_CNT run t st.
Proof.
  intros MAX M run t st Hec Hm Hrec Hrm. split.
  - unfold CallbackService, CallbackService_scan.
    destruct (Z.eqb_spec (event_count st) 0) as [Hz | Hnz].
    + rewrite CallbackService_scan_loop_done by lia. reflexivity.
    + apply CallbackService_loop_scan_le; [exact Hrec | lia | lia].
  - unfold CalloutService, CalloutService_scan.
    rewrite get_callout_map_size_spec by exact Hm.
    pose proof (count_from_nonneg 16 0 (callout_map st)) as Hnn.
    destruct (Z.eqb_spec (count_from 16 0 (callout_map st)) 0) as [Hz | Hnz].
    + rewrite CalloutService_scan_loop_none; [reflexivity |].
      intros j Hj. rewrite occupied_testbit by lia.
      apply map_empty_of_count; [exact Hm | exact Hz | lia].
    + apply CalloutService_loop_scan_le;
        [exact Hrm | lia | exact Hm | lia |].
      split; [lia |]. rewrite <- count_bits_from. apply (count_bits_le 16).
Qed.

Lemma X18_early_exit_is_scan_without_registration_witness :
  (event_count (set_now SameTick.at_8 9) = 1
   /\ callout_map (set_now SameTick.at_8 9) = 1)
  /\ Demo.CallbackService inert 9 (set_now SameTick.at_8 9)
     = Demo.CallbackService_scan inert 9 (set_now SameTick.at_8 9)
  /\ Demo.CalloutService inert 9 (set_now SameTick.at_8 9)
     = Demo.CalloutService_scan inert 9 (set_now SameTick.at_8 9).
Proof.
  split; [vm_compute; split; reflexivity |].
  apply (X18_early_exit_is_scan_without_registration
           2 1 inert 9 (set_now SameTick.at_8 9)).
  - vm_compute. split; [discriminate | reflexivity].
  - vm_compute. split; [discriminate | reflexivity].
  - intros f s. apply Z.le_refl.
  - intros f s j _ H. exact H.
Defined.

(** ** A callout among handlers that leave the callout table alone *)


